(** * AmazonML2023: the two training scripts, embedded and verified

    [end_to_end.py] fine-tunes a transformer regressor and rotates its
    checkpoints on disk; [train.py] trains a regression head on stored
    embeddings.  Both are glue around PyTorch, so the embedding keeps the
    scripts' own control flow (epoch loops, checkpoint rotation, resume,
    metric accumulation) and takes the library parts (forward pass,
    optimizer update) as parameters.

    Numbers: tensor entries and metrics are exact rationals ([Q]); the
    rounding of IEEE floats is outside the model.  A mean over no elements,
    which numpy and torch report as NaN, is [None].

    Files: the disk is a finite map from the paths the program spells to
    file contents; two spellings are two files.  Writing never fails;
    deleting fails on a missing file and wherever a fault oracle says so.
    Paths are ASCII text. *)

From Stdlib Require Import QArith Qabs Lqa.
From Stdlib Require Import Ascii String Sorted.
From stdpp Require Import base tactics option list strings gmap pretty sorting.

Local Open Scope Z_scope.

(** ** The Python runtime fragment the scripts rely on *)

Module Py.

(** The exceptions that can surface in the modelled code. *)
Inductive exn :=
| FileNotFoundError
| IsADirectoryError
| PermissionError
| ValueError
| ZeroDivisionError
| AttributeError
| IndexError
| RuntimeError
| KeyError
| UnboundLocalError
| KeyboardInterrupt.

(** [except OSError] catches exactly the subclasses of [OSError]. *)
Definition is_OSError (e : exn) : bool :=
  match e with
  | FileNotFoundError | IsADirectoryError | PermissionError => true
  | _ => false
  end.

Inductive result (A : Type) :=
| Ok (a : A)
| Raise (e : exn).
Arguments Ok {A} a.
Arguments Raise {A} e.

#[global] Instance result_ret : MRet result := λ A a, Ok a.
#[global] Instance result_bind : MBind result := λ A B f m,
  match m with
  | Ok a => f a
  | Raise e => Raise e
  end.
#[global] Instance result_fmap : FMap result := λ A B f m,
  match m with
  | Ok a => Ok (f a)
  | Raise e => Raise e
  end.

(** [try: m except OSError: pass], for a body that only changes the
    state [s]: an [OSError] leaves the state as it was, anything else
    propagates. *)
Definition try_except_OSError {S : Type} (m : result S) (s : S) : result S :=
  match m with
  | Ok s' => Ok s'
  | Raise e => if is_OSError e then Ok s else Raise e
  end.

(** [try: m except: pass], the bare handler: nothing propagates. *)
Definition try_except_all {S : Type} (m : result S) (s : S) : result S :=
  match m with
  | Ok s' => Ok s'
  | Raise _ => Ok s
  end.

(** A [for] loop whose body may raise: the first exception ends it. *)
Fixpoint foldlM {A B : Type} (f : B → A → result B) (b : B) (l : list A)
    : result B :=
  match l with
  | [] => Ok b
  | x :: l' =>
      match f b x with
      | Ok b' => foldlM f b' l'
      | Raise e => Raise e
      end
  end.

(** [l[i]] on a Python sequence: negative indices count from the end,
    anything out of range raises [IndexError]. *)
Definition getitem {A : Type} (l : list A) (i : Z) : result A :=
  let n := Z.of_nat (length l) in
  let j := if decide (i < 0) then i + n else i in
  if decide (0 <= j < n) then
    match l !! Z.to_nat j with
    | Some x => Ok x
    | None => Raise IndexError
    end
  else Raise IndexError.

(** [range(start, stop)]. *)
Definition range (start stop : Z) : list Z :=
  map (λ i : nat, start + Z.of_nat i) (seq 0 (Z.to_nat (stop - start))).

(** [a % b] on ints: the sign follows the divisor, as [Z.modulo] does;
    a zero divisor raises. *)
Definition mod_ (a b : Z) : result Z :=
  if decide (b = 0) then Raise ZeroDivisionError else Ok (a `mod` b).

(** [np.mean] of a list of floats, some of which may be NaN. *)
Definition np_mean (l : list (option Q)) : option Q :=
  match l with
  | [] => None
  | _ =>
      s ← foldr (λ x acc, a ← acc; v ← x; Some (v + a)%Q) (Some 0%Q) l;
      Some (s / inject_Z (Z.of_nat (length l)))%Q
  end.

End Py.
Export Py.

(** ** Tensors of rank at most two, with torch's broadcasting *)

Module Torch.

Inductive tensor :=
| Scalar (x : Q)                 (* shape () *)
| Vec (xs : list Q)              (* shape (n,) *)
| Mat (rows : list (list Q)).    (* shape (r, c) *)

(** Broadcasting along one axis: equal sizes go pointwise, a size of one
    is stretched, anything else is a shape error. *)
Definition bc_axis {A B C : Type} (f : A → B → result C)
    (xs : list A) (ys : list B) : result (list C) :=
  if decide (length xs = length ys) then
    mapM (λ p : A * B, f p.1 p.2) (zip xs ys)
  else
    match xs, ys with
    | [x], _ => mapM (f x) ys
    | _, [y] => mapM (λ x, f x y) xs
    | _, _ => Raise RuntimeError
    end.

Definition bc_row (f : Q → Q → Q) : list Q → list Q → result (list Q) :=
  bc_axis (λ x y, Ok (f x y)).

Definition broadcast (f : Q → Q → Q) (a b : tensor) : result tensor :=
  match a, b with
  | Scalar x, Scalar y => Ok (Scalar (f x y))
  | Scalar x, Vec ys => Ok (Vec (map (f x) ys))
  | Scalar x, Mat rs => Ok (Mat (map (map (f x)) rs))
  | Vec xs, Scalar y => Ok (Vec (map (λ x, f x y) xs))
  | Mat rs, Scalar y => Ok (Mat (map (map (λ x, f x y)) rs))
  | Vec xs, Vec ys => Vec <$> bc_row f xs ys
  | Mat rs, Vec ys => Mat <$> mapM (λ r, bc_row f r ys) rs
  | Vec xs, Mat rs => Mat <$> mapM (λ r, bc_row f xs r) rs
  | Mat rs1, Mat rs2 => Mat <$> bc_axis (bc_row f) rs1 rs2
  end.

Definition tmap (f : Q → Q) (t : tensor) : tensor :=
  match t with
  | Scalar x => Scalar (f x)
  | Vec xs => Vec (map f xs)
  | Mat rs => Mat (map (map f) rs)
  end.

Definition qsum (l : list Q) : Q := foldr Qplus 0%Q l.

(** [torch.sum]: the sum of every entry. *)
Definition tsum (t : tensor) : Q :=
  match t with
  | Scalar x => x
  | Vec xs => qsum xs
  | Mat rs => qsum (map qsum rs)
  end.

Definition numel (t : tensor) : nat :=
  match t with
  | Scalar _ => 1%nat
  | Vec xs => length xs
  | Mat rs => length (concat rs)
  end.

(** [t.squeeze()]: every axis of size one is dropped. *)
Definition squeeze (t : tensor) : tensor :=
  match t with
  | Scalar x => Scalar x
  | Vec [x] => Scalar x
  | Vec xs => Vec xs
  | Mat [[x]] => Scalar x
  | Mat [r] => Vec r
  | Mat rs =>
      if forallb (λ r, bool_decide (length r = 1%nat)) rs
      then Vec (concat rs) else Mat rs
  end.

(** [t.squeeze(1)]: axis 1 is dropped when its size is one; a tensor
    without an axis 1 raises. *)
Definition squeeze1 (t : tensor) : result tensor :=
  match t with
  | Scalar _ | Vec _ => Raise IndexError
  | Mat rs =>
      if forallb (λ r, bool_decide (length r = 1%nat)) rs
      then Ok (Vec (concat rs)) else Ok (Mat rs)
  end.

(** [nn.MSELoss()(input, target)]: operands are broadcast against each
    other, the squared differences averaged; no entries gives NaN. *)
Definition mse_loss (input target : tensor) : result (option Q) :=
  d ← broadcast Qminus input target;
  mret (if decide (numel d = 0%nat) then None
        else Some (tsum (tmap (λ x, x * x)%Q d)
                   / inject_Z (Z.of_nat (numel d)))%Q).

End Torch.
Export Torch.

(** ** The validation metric shared by both scripts *)

(** The constant [1e-8] added to [|target|]. *)
Definition epsilon : Q := 1 # 100000000.

(** One sample's term, [|p - t| / (|t| + 1e-8)]. *)
Definition ape (p t : Q) : Q := (Qabs (p - t) / (Qabs t + epsilon))%Q.

(** [torch.sum(torch.abs(output - y) / (torch.abs(y) + 1e-8))] for one
    batch, [y] of shape (B,). *)
Definition batch_mape (output : tensor) (y : list Q) : result Q :=
  diff ← broadcast Qminus output (Vec y);
  ratio ← broadcast Qdiv (tmap Qabs diff)
            (tmap (λ t, t + epsilon)%Q (tmap Qabs (Vec y)));
  mret (tsum ratio).

(** [mape = 0] followed by [mape += <0-d tensor>]: the accumulator is a
    Python int until the first batch turns it into a tensor. *)
Inductive accum :=
| PyInt (z : Z)
| Tensor0 (q : Q).

Definition iadd (a : accum) (q : Q) : accum :=
  match a with
  | PyInt z => Tensor0 (inject_Z z + q)
  | Tensor0 s => Tensor0 (s + q)
  end.

(** [.item()] exists on tensors only. *)
Definition item (a : accum) : result Q :=
  match a with
  | PyInt _ => Raise AttributeError
  | Tensor0 q => Ok q
  end.

(** ** [torch.utils.data.DataLoader] without shuffling *)

Section Loader.
Context {A : Type}.

Fixpoint chunks_fuel (fuel : nat) (bs : nat) (l : list A) : list (list A) :=
  match fuel, l with
  | O, _ | _, [] => []
  | S fuel', _ => take bs l :: chunks_fuel fuel' bs (drop bs l)
  end.

(** Consecutive batches of [bs] samples, the last one possibly shorter. *)
Definition chunks (bs : nat) (l : list A) : list (list A) :=
  chunks_fuel (length l) bs l.

Record DataLoader := {
  dataset : list A;
  loader_batch_size : nat;
}.

(** The constructor rejects a batch size that is not positive. *)
Definition mkDataLoader (ds : list A) (bs : Z) : result DataLoader :=
  if decide (bs <= 0) then Raise ValueError
  else Ok {| dataset := ds; loader_batch_size := Z.to_nat bs |}.

Definition batches (dl : DataLoader) : list (list A) :=
  chunks (loader_batch_size dl) (dataset dl).
End Loader.
Arguments DataLoader A : clear implicits.

(** ** Strings and paths *)

Module Str.

Fixpoint str_filter (f : Ascii.ascii → bool) (s : string) : string :=
  match s with
  | EmptyString => EmptyString
  | String c s' => if f c then String c (str_filter f s') else str_filter f s'
  end.

(** [str.isdigit] on ASCII text. *)
Definition isdigit (c : Ascii.ascii) : bool :=
  let n := Ascii.N_of_ascii c in ((48 <=? n) && (n <=? 57))%N.

Definition digit_val (c : Ascii.ascii) : N := (Ascii.N_of_ascii c - 48)%N.

Fixpoint int_of_digits (acc : N) (s : string) : N :=
  match s with
  | EmptyString => acc
  | String c s' => int_of_digits (acc * 10 + digit_val c) s'
  end.

(** [int(s)] for a string of decimal digits; the empty string is not a
    number. *)
Definition int (s : string) : result Z :=
  match s with
  | EmptyString => Raise ValueError
  | _ => Ok (Z.of_N (int_of_digits 0 s))
  end.

Fixpoint strip_prefix (p s : string) : option string :=
  match p, s with
  | EmptyString, _ => Some s
  | String a p', String b s' =>
      if Ascii.eqb a b then strip_prefix p' s' else None
  | String _ _, EmptyString => None
  end.

Definition startswith (p s : string) : bool :=
  match strip_prefix p s with Some _ => true | None => false end.

Fixpoint str_drop (n : nat) (s : string) : string :=
  match n, s with
  | O, _ => s
  | S n', String _ s' => str_drop n' s'
  | S _, EmptyString => EmptyString
  end.

Definition endswith (suf s : string) : bool :=
  (String.length suf <=? String.length s)%nat
  && String.eqb (str_drop (String.length s - String.length suf) s) suf.

Fixpoint contains (c : Ascii.ascii) (s : string) : bool :=
  match s with
  | EmptyString => false
  | String b s' => Ascii.eqb c b || contains c s'
  end.

(** [os.path.join(a, b)] on POSIX. *)
Definition os_path_join (a b : string) : string :=
  if startswith "/" b then b
  else if bool_decide (a = "") || endswith "/" a then a +:+ b
  else a +:+ "/" +:+ b.


(** [str.isascii]: every character is below 128. *)
Fixpoint isascii (s : string) : bool :=
  match s with
  | EmptyString => true
  | String c s' => (Ascii.N_of_ascii c <? 128)%N && isascii s'
  end.

End Str.
Export Str.

(** ** end_to_end.py *)

Module EndToEnd.

(** [np.inf] or a float. *)
Inductive metric :=
| Inf
| Fin (q : Q).

Definition Qltb (x y : Q) : bool := negb (Qle_bool y x).

(** [v < best] for a finite [v]. *)
Definition lt_metric (v : Q) (best : metric) : bool :=
  match best with
  | Inf => true
  | Fin b => Qltb v b
  end.

(** The argparse namespace, with the attributes [main] adds to it. *)
Record Args := {
  epochs : Z;
  lr : Q;
  log_every : Z;
  save_every : Z;
  run_name : string;
  resume : string;
  batch_size : Z;
  (* set by main *)
  save_dir : string;
  best_val_mape : metric;
  start_epoch : Z;
  iter : Z;
}.

Definition set_best_val_mape (m : metric) (a : Args) : Args :=
  {| epochs := epochs a; lr := lr a; log_every := log_every a;
     save_every := save_every a; run_name := run_name a; resume := resume a;
     batch_size := batch_size a; save_dir := save_dir a;
     best_val_mape := m; start_epoch := start_epoch a; iter := iter a |}.

Definition set_start_epoch (e : Z) (a : Args) : Args :=
  {| epochs := epochs a; lr := lr a; log_every := log_every a;
     save_every := save_every a; run_name := run_name a; resume := resume a;
     batch_size := batch_size a; save_dir := save_dir a;
     best_val_mape := best_val_mape a; start_epoch := e; iter := iter a |}.

Definition set_iter (i : Z) (a : Args) : Args :=
  {| epochs := epochs a; lr := lr a; log_every := log_every a;
     save_every := save_every a; run_name := run_name a; resume := resume a;
     batch_size := batch_size a; save_dir := save_dir a;
     best_val_mape := best_val_mape a; start_epoch := start_epoch a;
     iter := i |}.

Definition set_save_dir (d : string) (a : Args) : Args :=
  {| epochs := epochs a; lr := lr a; log_every := log_every a;
     save_every := save_every a; run_name := run_name a; resume := resume a;
     batch_size := batch_size a; save_dir := d;
     best_val_mape := best_val_mape a; start_epoch := start_epoch a;
     iter := iter a |}.

(** A sample of [TextDataset]: the text and its label. *)
Abbreviation sample := (string * Q)%type.

Section Script.
(** [W] is what [model.state_dict()] holds, [O] what
    [optimizer.state_dict()] holds. *)
Context {W O : Type}.

(** [model(x, device=...)] on a batch of texts. *)
Variable forward : W → list string → tensor.
(** [optimizer.zero_grad(); loss.backward(); optimizer.step()] for the
    batch [(x, y)]. *)
Variable optim_step : W → O → list string → list Q → W * O.
(** What the operating system answers to [os.remove(p)] beyond
    "no such file": [Some e] makes the call raise [e]. *)
Variable remove_fault : string → option exn.

(** The dict built in [train] and handed to [torch.save]; the fields
    are its keys "epoch", "iter", "state_dict", "best_val_mape" and
    "optimizer". *)
Record checkpoint := {
  ck_epoch : Z;
  ck_iter : Z;
  ck_state_dict : W;
  ck_best_val_mape : metric;
  ck_optimizer : O;
}.

Inductive file :=
| CheckpointFile (c : checkpoint)
| OtherFile.

(** The files under the working directory, by the path the program
    spells. *)
Abbreviation disk := (gmap string file).

Definition torch_save (state : checkpoint) (path : string) (d : disk) : disk :=
  <[path := CheckpointFile state]> d.

Definition torch_load (path : string) (d : disk) : result checkpoint :=
  match d !! path with
  | Some (CheckpointFile c) => Ok c
  | Some OtherFile => Raise RuntimeError
  | None => Raise FileNotFoundError
  end.

Definition os_remove (path : string) (d : disk) : result disk :=
  match remove_fault path with
  | Some e => Raise e
  | None =>
      match d !! path with
      | Some _ => Ok (delete path d)
      | None => Raise FileNotFoundError
      end
  end.

(** [glob.glob(pre + "*" + post)] where [pre] ends inside the last
    path component and neither part has a glob metacharacter
    ([has_magic] is false on both): the paths that start with [pre], end
    with [post], and whose middle stays within the component.  The
    listing order is the directory's, here the map's. *)
Definition glob_match (pre post p : string) : bool :=
  match strip_prefix pre p with
  | Some rest =>
      endswith post rest
      && negb (contains "/"%char rest)
  | None => false
  end.

Definition glob_star (pre post : string) (d : disk) : list string :=
  filter (λ p, glob_match pre post p = true) (map fst (map_to_list d)).

(** The sort key [lambda x: int("".join(filter(str.isdigit, x)))]. *)
Definition digits_key (x : string) : result Z := int (str_filter isdigit x).

Fixpoint insert_by_key (x : Z * string) (l : list (Z * string))
    : list (Z * string) :=
  match l with
  | [] => [x]
  | y :: l' => if decide (x.1 <= y.1) then x :: l
               else y :: insert_by_key x l'
  end.

(** [sorted(l, key=...)]: every key is computed first (and may raise),
    then the list is sorted stably by key. *)
Definition sorted_by_key (key : string → result Z) (l : list string)
    : result (list string) :=
  keyed ← mapM (λ p, k ← key p; mret (k, p)) l;
  mret (map snd (foldr insert_by_key [] keyed)).

Definition epoch_path (args : Args) (e : Z) : string :=
  os_path_join (save_dir args) ("epoch_" +:+ pretty e +:+ ".pth.tar").

Definition best_path (args : Args) (e : Z) : string :=
  os_path_join (save_dir args)
    ("model_best_epoch_" +:+ pretty e +:+ ".pth.tar").

Definition past_best_files (args : Args) (d : disk) : list string :=
  glob_star (os_path_join (save_dir args) "model_best_") ".pth.tar" d.

Definition save_checkpoint (state : checkpoint) (is_best : bool)
    (args : Args) (d : disk) : result disk :=
  let d := torch_save state (epoch_path args (ck_epoch state)) d in
  let last_epoch_path :=
    epoch_path args (ck_epoch state - save_every args) in
  d ← try_except_OSError (os_remove last_epoch_path d) d;
  if is_best then
    past_best ← sorted_by_key digits_key (past_best_files args d);
    d ← (if decide (5 <= length past_best)%nat then
           try_except_all (p ← getitem past_best 0; os_remove p d) d
         else Ok d);
    mret (torch_save state (best_path args (ck_epoch state)) d)
  else mret d.


(** What the script prints (the per-step and per-epoch figures are
    left out of the record). *)
Inductive event :=
| PrintEpoch (e : Z)
| PrintStep (i : Z)
| PrintSummary (e : Z)
| PrintSaved.

(** The mutable pieces a run threads through its calls. *)
Record run := {
  model : W;
  optimizer : O;
  args : Args;
  fs : disk;
  console : list event;
}.

(** The body of the loop of [train_one_epoch]; [i] is the batch
    index, [losses] the list being appended to. *)
Definition train_batch (st : run * list (option Q) * Z)
    (b : list sample) : result (run * list (option Q) * Z) :=
  let '(r, losses, i) := st in
  let x := map fst b in
  let y := map snd b in
  let B := Z.of_nat (length y) in
  let output := forward (model r) x in
  loss ← mse_loss (squeeze output) (Vec y);
  let '(w, o) := optim_step (model r) (optimizer r) x y in
  let a := set_iter (iter (args r) + B) (args r) in
  m ← mod_ i (log_every a);
  let out := if decide (m = 0) then console r ++ [PrintStep i]
             else console r in
  mret ({| model := w; optimizer := o; args := a; fs := fs r;
           console := out |}, losses ++ [loss], i + 1).

Definition train_one_epoch (r : run) (train_loader : DataLoader sample)
    : result (run * option Q) :=
  '(r, losses, _) ← foldlM train_batch (r, [], 0) (batches train_loader);
  mret (r, np_mean losses).

Definition val_batch (w : W) (st : list (option Q) * accum)
    (b : list sample) : result (list (option Q) * accum) :=
  let '(losses, mape) := st in
  let x := map fst b in
  let y := map snd b in
  let output := forward w x in
  loss ← mse_loss (squeeze output) (Vec y);
  m ← batch_mape output y;
  mret (losses ++ [loss], iadd mape m).

(** [val]: the pair (mean batch loss, MAPE). *)
Definition val (w : W) (val_loader : DataLoader sample)
    : result (option Q * Q) :=
  '(losses, mape) ← foldlM (val_batch w) ([], PyInt 0) (batches val_loader);
  m ← item mape;
  let n := length (dataset val_loader) in
  if decide (n = 0%nat) then Raise ZeroDivisionError
  else mret (np_mean losses, (m / inject_Z (Z.of_nat n))%Q).

(** The body of the epoch loop of [train]. *)
Definition train_epoch (train_loader val_loader : DataLoader sample)
    (r : run) (epoch : Z) : result run :=
  let r := {| model := model r; optimizer := optimizer r; args := args r;
              fs := fs r; console := console r ++ [PrintEpoch epoch] |} in
  '(r, train_loss) ← train_one_epoch r train_loader;
  '(val_loss, val_mape) ← val (model r) val_loader;
  let out := console r ++ [PrintSummary epoch] in
  let is_best := lt_metric val_mape (best_val_mape (args r)) in
  let a := if is_best then set_best_val_mape (Fin val_mape) (args r)
           else args r in
  let state := {| ck_epoch := epoch; ck_iter := iter a;
                  ck_state_dict := model r;
                  ck_best_val_mape := best_val_mape a;
                  ck_optimizer := optimizer r |} in
  m ← mod_ epoch (save_every a);
  if decide (m = 0) then
    d ← save_checkpoint state is_best a (fs r);
    mret {| model := model r; optimizer := optimizer r; args := a;
            fs := d; console := out ++ [PrintSaved] |}
  else
    mret {| model := model r; optimizer := optimizer r; args := a;
            fs := fs r; console := out |}.

Definition train (r : run) (train_loader val_loader : DataLoader sample)
    : result run :=
  foldlM (train_epoch train_loader val_loader) r
    (range (start_epoch (args r)) (epochs (args r))).

(** [main] up to the call of [train]: loaders, save directory, and the
    resume-or-fresh choice.  [model0] and [optim0] are the freshly built
    model and optimizer.  The two [os.makedirs] calls and the
    [SummaryWriter] are left out: the disk holds the checkpoint files, not
    the directories and not the event files under [logs/]. *)
Definition main_init (model0 : W) (optim0 : O)
    (train_set val_set : list sample) (a : Args) (d : disk)
    : result (run * DataLoader sample * DataLoader sample) :=
  train_loader ← mkDataLoader train_set (batch_size a);
  val_loader ← mkDataLoader val_set (batch_size a);
  let a := set_save_dir ("checkpoints/" +:+ run_name a) a in
  r ← (if bool_decide (resume a ≠ "") then
         state ← torch_load (resume a) d;
         mret {| model := ck_state_dict state;
                 optimizer := ck_optimizer state;
                 args := set_iter (ck_iter state)
                           (set_start_epoch (ck_epoch state + 1)
                             (set_best_val_mape (ck_best_val_mape state) a));
                 fs := d; console := [] |}
       else
         mret {| model := model0; optimizer := optim0;
                 args := set_iter 0
                           (set_start_epoch 0 (set_best_val_mape Inf a));
                 fs := d; console := [] |});
  mret (r, train_loader, val_loader).

Definition main (model0 : W) (optim0 : O)
    (train_set val_set : list sample) (a : Args) (d : disk) : result run :=
  '(r, train_loader, val_loader) ← main_init model0 optim0 train_set val_set a d;
  train r train_loader val_loader.
End Script.
End EndToEnd.

(** ** train.py *)

Module TrainPy.

Record Args := {
  train_data_path : string;
  val_data_path : string;
  epochs : Z;
  lr : Q;
  batch_size : Z;
  features : Z;
  seed : Z;
  log_interval : Z;
  val_interval : Z;
  save : string;
}.

(** What [np.load] and [pd.read_csv] find: arrays of row vectors by path,
    and tables (column name to column) by path. *)
Record storage := {
  npy : gmap string (list (list Q));
  csv : gmap string (gmap string (list Q));
}.

Definition split_train_csv : string :=
  "/home/pbalaji/AmazonML/dataset/split_train.csv".
Definition split_val_csv : string :=
  "/home/pbalaji/AmazonML/dataset/split_val.csv".

Definition np_load (st : storage) (path : string) : result (list (list Q)) :=
  match npy st !! path with
  | Some a => Ok a
  | None => Raise FileNotFoundError
  end.

(** [pd.read_csv(path)[col].values.tolist()]. *)
Definition read_csv_column (st : storage) (path col : string)
    : result (list Q) :=
  match csv st !! path with
  | None => Raise FileNotFoundError
  | Some table =>
      match table !! col with
      | Some c => Ok c
      | None => Raise KeyError
      end
  end.

(** [class TDataset]. *)
Record TDataset := {
  data : list (list Q);
  values : list Q;
}.

Definition TDataset_init (st : storage) (path : string) (train : bool)
    : result TDataset :=
  d ← np_load st path;
  v ← (if train then read_csv_column st split_train_csv "PRODUCT_LENGTH"
       else read_csv_column st split_val_csv "PRODUCT_LENGTH");
  mret {| data := d; values := v |}.

Definition TDataset_len (ds : TDataset) : nat := length (data ds).

Definition TDataset_getitem (ds : TDataset) (idx : Z)
    : result (list Q * Q) :=
  x ← getitem (data ds) idx;
  v ← getitem (values ds) idx;
  mret (x, v).

(** A [DataLoader] over a [TDataset]; samples are fetched when the
    loader is iterated, in the order the sampler gives. *)
Record TLoader := {
  loader_dataset : TDataset;
  loader_bs : nat;
}.

Definition mkTLoader (ds : TDataset) (bs : Z) : result TLoader :=
  if decide (bs <= 0) then Raise ValueError
  else Ok {| loader_dataset := ds; loader_bs := Z.to_nat bs |}.

(** [DataLoader(ds, batch_size=bs, shuffle=True)]: the random sampler is
    built first and rejects an empty dataset. *)
Definition mkShuffledLoader (ds : TDataset) (bs : Z) : result TLoader :=
  if decide (TDataset_len ds = 0%nat) then Raise ValueError
  else mkTLoader ds bs.

Definition loader_batches (order : list Z → list Z) (l : TLoader)
    : result (list (list (list Q * Q))) :=
  items ← mapM (TDataset_getitem (loader_dataset l))
             (order (range 0 (Z.of_nat (TDataset_len (loader_dataset l)))));
  mret (chunks (loader_bs l) items).

(** The [epoch] argument of [val] and [save]: a number, or the string
    ['INTMAX'] of the final validation. *)
Inductive tag :=
| Epoch (e : Z)
| INTMAX.

Inductive event :=
| PrintTrain (epoch batch_idx : Z)
| PrintVal (t : tag) (mape_percent : Q) (mse_mean : option Q)
| PrintSaved (star : string).

(** NaN-propagating sum and comparison on floats. *)
Definition fadd (a b : option Q) : option Q :=
  x ← a; y ← b; Some (x + y)%Q.

Definition flt (a : option Q) (b : Q) : bool :=
  match a with
  | Some x => EndToEnd.Qltb x b
  | None => false
  end.

Section Script.
Context {W O : Type}.

(** [self.regressor(x)] on a batch of embeddings. *)
Variable forward : W → list (list Q) → tensor.
(** [zero_grad(); backward(); step()] for one batch. *)
Variable optim_step : W → O → list (list Q) → list Q → W * O.
(** The permutation the shuffling sampler draws in a given epoch. *)
Variable shuffle : Z → list Z → list Z.

(** The dict written by [save]. *)
Record save_dict := {
  sd_model : W;
  sd_loss : list (option Q);
  sd_mape : list Q;
  sd_mse : list (option Q);
  sd_best_mse : Q;
  sd_epoch : Z;
}.

Record Trainer := {
  args : Args;
  regressor : W;
  optimizer : O;
  trainloader : TLoader;
  valloader : TLoader;
  loss : list (option Q);
  mape : list Q;
  mse : list (option Q);
  best_mse : Q;
  last_metrics : option (Q * option Q);
  fs : gmap string save_dict;
  console : list event;
}.

Definition with_model (w : W) (o : O) (out : list event) (t : Trainer)
    : Trainer :=
  {| args := args t; regressor := w; optimizer := o;
     trainloader := trainloader t; valloader := valloader t;
     loss := loss t; mape := mape t; mse := mse t;
     best_mse := best_mse t; last_metrics := last_metrics t; fs := fs t;
     console := out |}.

Definition with_console (out : list event) (t : Trainer) : Trainer :=
  with_model (regressor t) (optimizer t) out t.

(** What [os.path.exists(p)] answers, and what [os.mkdir(p)] raises when
    it does ([FileNotFoundError] for a missing parent, for one). *)
Variable path_exists : string → bool.
Variable mkdir_fault : string → option exn.

(** [if not os.path.exists(p): os.mkdir(p)]. *)
Definition ensure_dir (p : string) : result unit :=
  if path_exists p then Ok tt
  else match mkdir_fault p with
       | Some e => Raise e
       | None => Ok tt
       end.

(** [Trainer.__init__] with [pred=False], on the disk [d]; the metric
    attributes do not exist before [train] creates them. *)
Definition Trainer_init (a : Args) (st : storage) (w0 : W) (o0 : O)
    (d : gmap string save_dict) : result Trainer :=
  tr ← TDataset_init st (train_data_path a) true;
  trl ← mkShuffledLoader tr (batch_size a);
  va ← TDataset_init st (val_data_path a) false;
  val ← mkTLoader va (batch_size a);
  _ ← ensure_dir (save a);
  mret {| args := a; regressor := w0; optimizer := o0;
          trainloader := trl; valloader := val;
          loss := []; mape := []; mse := []; best_mse := 0;
          last_metrics := None; fs := d; console := [] |}.

(** The loop body of [train_epoch]; the state carries [epoch_loss] and
    the last [batch_idx] bound so far. *)
Definition train_batch (epoch : Z)
    (st : Trainer * option Q * option Z) (b : list (list Q * Q))
    : result (Trainer * option Q * option Z) :=
  let '(t, epoch_loss, prev) := st in
  let batch_idx := match prev with Some i => i + 1 | None => 0 end in
  let emb := map fst b in
  let val := map snd b in
  let output := forward (regressor t) emb in
  l ← mse_loss output (Vec val);
  let '(w, o) := optim_step (regressor t) (optimizer t) emb val in
  m ← mod_ batch_idx (log_interval (args t));
  let out := if decide (m = 0) then console t ++ [PrintTrain epoch batch_idx]
             else console t in
  mret (with_model w o out t, fadd epoch_loss l, Some batch_idx).

Definition Trainer_train_epoch (t : Trainer) (epoch : Z)
    : result (Trainer * option Q) :=
  bs ← loader_batches (shuffle epoch) (trainloader t);
  '(t, epoch_loss, last_idx) ← foldlM (train_batch epoch) (t, Some 0%Q, None) bs;
  match last_idx with
  | None => Raise UnboundLocalError
  | Some i =>
      mret (t, (l ← epoch_loss; Some (l / inject_Z (i + 1))%Q))
  end.

Definition val_batch (w : W) (st : accum * option Q)
    (b : list (list Q * Q)) : result (accum * option Q) :=
  let '(mape, mse) := st in
  let emb := map fst b in
  let val := map snd b in
  output ← squeeze1 (forward w emb);
  m ← batch_mape output val;
  l ← mse_loss output (Vec val);
  mret (iadd mape m, fadd mse l).

(** [val]: prints [100 * mape / len(dataset)] and [mse / len(dataset)],
    returns the undivided sums.  With no batch both sums are still the
    int 0 and the division by the empty dataset's length raises. *)
Definition Trainer_val (t : Trainer) (epoch : tag)
    : result (Trainer * Q * option Q) :=
  bs ← loader_batches id (valloader t);
  '(mape, mse) ← foldlM (val_batch (regressor t)) (PyInt 0, Some 0%Q) bs;
  let n := Z.of_nat (TDataset_len (loader_dataset (valloader t))) in
  match mape with
  | PyInt _ => Raise ZeroDivisionError
  | Tensor0 s =>
      let shown := PrintVal epoch (100 * s / inject_Z n)%Q
                     (m ← mse; Some (m / inject_Z n)%Q) in
      mret (with_console (console t ++ [shown]) t, s, mse)
  end.

Definition save_path (a : Args) (star : string) : string :=
  save a +:+ "/" +:+ star +:+ ".pt".

Definition Trainer_save (t : Trainer) (star : string) (epoch : Z)
    : Trainer :=
  let save_dict := {| sd_model := regressor t; sd_loss := loss t;
                      sd_mape := mape t; sd_mse := mse t;
                      sd_best_mse := best_mse t; sd_epoch := epoch |} in
  {| args := args t; regressor := regressor t; optimizer := optimizer t;
     trainloader := trainloader t; valloader := valloader t;
     loss := loss t; mape := mape t; mse := mse t;
     best_mse := best_mse t; last_metrics := last_metrics t;
     fs := <[save_path (args t) star := save_dict]> (fs t);
     console := console t ++ [PrintSaved star] |}.

Definition set_metrics (l : list (option Q)) (mp : list Q)
    (ms : list (option Q)) (b : Q) (t : Trainer) : Trainer :=
  {| args := args t; regressor := regressor t; optimizer := optimizer t;
     trainloader := trainloader t; valloader := valloader t;
     loss := l; mape := mp; mse := ms; best_mse := b; last_metrics := last_metrics t;
     fs := fs t; console := console t |}.

(** The [best_mse] sentinel set at the start of [train]. *)
Definition best_mse_init : Q := inject_Z 100000000.

(** The body of the epoch loop of [Trainer.train]. *)
Definition train_body (t : Trainer) (epoch : Z) : result Trainer :=
  '(t, l) ← Trainer_train_epoch t epoch;
  let t := set_metrics (loss t ++ [l]) (mape t) (mse t) (best_mse t) t in
  m ← mod_ epoch (val_interval (args t));
  if decide (m = 0) then
    '(t, mp, ms) ← Trainer_val t (Epoch epoch);
    let t := set_metrics (loss t) (mape t ++ [mp]) (mse t ++ [ms])
               (best_mse t) t in
    if flt ms (best_mse t) then
      let t := Trainer_save t "best" epoch in
      mret (set_metrics (loss t) (mape t) (mse t)
              (match ms with Some v => v | None => best_mse t end) t)
    else mret t
  else mret t.

Definition epoch_range (a : Args) : list Z := range 1 (epochs a + 1).

Definition Trainer_train (t : Trainer) : result Trainer :=
  let t := set_metrics [] [] [] best_mse_init t in
  t ← foldlM train_body t (epoch_range (args t));
  '(t, mp, ms) ← Trainer_val t INTMAX;
  match last (epoch_range (args t)) with
  | None => Raise UnboundLocalError
  | Some epoch =>
      mret (Trainer_save
              {| args := args t; regressor := regressor t;
                 optimizer := optimizer t; trainloader := trainloader t;
                 valloader := valloader t; loss := loss t; mape := mape t;
                 mse := mse t; best_mse := best_mse t;
                 last_metrics := Some (mp, ms); fs := fs t; console := console t |}
              "last" epoch)
  end.

(** [load]: the regressor takes the weights stored under the key
    ['model'] of the file at [path]; nothing else of the trainer changes. *)
Definition Trainer_load (t : Trainer) (path : string) : result Trainer :=
  match fs t !! path with
  | Some dict => Ok (with_model (sd_model dict) (optimizer t) (console t) t)
  | None => Raise FileNotFoundError
  end.

(** [main] once the arguments are parsed: [Trainer(args)] on the disk [d],
    then [trainer.train()]. *)
Definition main (a : Args) (st : storage) (w0 : W) (o0 : O)
    (d : gmap string save_dict) : result Trainer :=
  t ← Trainer_init a st w0 o0 d;
  Trainer_train t.
End Script.
End TrainPy.

(** ** Notions used to state the properties *)

(** The entries of a tensor, row by row. *)
Definition entries (t : tensor) : list Q :=
  match t with
  | Scalar x => [x]
  | Vec xs => xs
  | Mat rs => concat rs
  end.

(** The sum the specification writes for MAPE: one [ape] term per sample. *)
Definition ape_sum (preds targets : list Q) : Q :=
  qsum (zip_with ape preds targets).

(** The value an accumulator stands for. *)
Definition accum_value (a : accum) : Q :=
  match a with
  | PyInt z => inject_Z z
  | Tensor0 q => q
  end.

(** The model outputs of a validation pass, batch after batch. *)
Definition outputs {X W : Type} (forward : W → list X → tensor) (w : W)
    (bs : list (list (X * Q))) : list Q :=
  concat (map (λ b, entries (forward w (map fst b))) bs).

(** The targets of the same batches. *)
Definition targets {X : Type} (bs : list (list (X * Q))) : list Q :=
  concat (map (map snd) bs).

(** The model answers every batch with a tensor of the targets' shape
    [(B,)]. *)
Definition vec_shaped {X W : Type} (forward : W → list X → tensor) (w : W)
    (bs : list (list (X * Q))) : Prop :=
  Forall (λ b, ∃ ps, forward w (map fst b) = Vec ps ∧ length ps = length b) bs.

(** The model answers every batch with a column, shape [(B, 1)]. *)
Definition col_shaped {X W : Type} (forward : W → list X → tensor) (w : W)
    (bs : list (list (X * Q))) : Prop :=
  Forall (λ b, ∃ ps, forward w (map fst b) = Mat (map (λ p, [p]) ps)
                     ∧ length ps = length b) bs.

(** What [os.path.join a] puts in front of a relative name. *)
Definition join_prefix (a : string) : string :=
  if bool_decide (a = "") || endswith "/" a then a else a +:+ "/".

(** The disk after an [os.remove(p)] whose failure, if any, is swallowed:
    the file is gone exactly when it was there and the call did not fault. *)
Definition after_remove {V : Type} (remove_fault : string → option exn)
    (p : string) (d : gmap string V) : gmap string V :=
  match remove_fault p, d !! p with
  | None, Some _ => delete p d
  | _, _ => d
  end.


(** ** Small concrete instances *)

Module Demo.

(** Two stored embeddings and their two labels. *)
Definition storage : TrainPy.storage :=
  {| TrainPy.npy := {[ "val.npy" := [[1; 2]; [3; 4]]%Q ]};
     TrainPy.csv :=
       {[ TrainPy.split_val_csv := {[ "PRODUCT_LENGTH" := [10; 20]%Q ]} ]} |}.

(** A model that predicts its single weight for every text, shape (B,). *)
Definition const_forward (w : Q) (xs : list string) : tensor :=
  Vec (map (λ _, w) xs).

(** An update that moves the weight halfway to the first target. *)
Definition halfway_step (w : Q) (o : unit) (xs : list string) (ys : list Q)
    : Q * unit :=
  (((w + hd 0 ys) / 2)%Q, tt).

Definition no_fault : string → option exn := λ _, None.

Definition val_loader : DataLoader EndToEnd.sample :=
  {| dataset := [("a", 1%Q); ("b", 2%Q)]; loader_batch_size := 2 |}.

(** The regression head of train.py answering every embedding with its
    weight, shape (B, 1). *)
Definition col_forward (w : Q) (embs : list (list Q)) : tensor :=
  Mat (map (λ _, [w]) embs).

Definition col_step (w : Q) (o : unit) (embs : list (list Q)) (ys : list Q)
    : Q * unit :=
  (((w + hd 0 ys) / 2)%Q, tt).

Definition train_args : TrainPy.Args :=
  {| TrainPy.train_data_path := "train.npy";
     TrainPy.val_data_path := "val.npy";
     TrainPy.epochs := 2; TrainPy.lr := 1 # 100; TrainPy.batch_size := 2;
     TrainPy.features := 1; TrainPy.seed := 421; TrainPy.log_interval := 5;
     TrainPy.val_interval := 1; TrainPy.save := "model" |}.

Definition pair_loader : TrainPy.TLoader :=
  {| TrainPy.loader_dataset :=
       {| TrainPy.data := [[0]; [0]]%Q; TrainPy.values := [1; 1]%Q |};
     TrainPy.loader_bs := 2 |}.

(** A trainer whose head predicts 2 on a validation set labelled 1, 1. *)
Definition trainer : @TrainPy.Trainer Q unit :=
  {| TrainPy.args := train_args; TrainPy.regressor := 2%Q;
     TrainPy.optimizer := tt;
     TrainPy.trainloader := pair_loader; TrainPy.valloader := pair_loader;
     TrainPy.loss := []; TrainPy.mape := []; TrainPy.mse := [];
     TrainPy.best_mse := TrainPy.best_mse_init;
     TrainPy.last_metrics := None; TrainPy.fs := ∅; TrainPy.console := [] |}.

(** A run named v0 that saves every second epoch. *)
Definition args : EndToEnd.Args :=
  {| EndToEnd.epochs := 2; EndToEnd.lr := 1 # 10000;
     EndToEnd.log_every := 10; EndToEnd.save_every := 2;
     EndToEnd.run_name := "v0"; EndToEnd.resume := "";
     EndToEnd.batch_size := 2; EndToEnd.save_dir := "checkpoints/v0";
     EndToEnd.best_val_mape := EndToEnd.Inf; EndToEnd.start_epoch := 0;
     EndToEnd.iter := 0 |}.

(** The same run asked to resume from its periodic checkpoint of epoch 3. *)
Definition resume_args : EndToEnd.Args :=
  {| EndToEnd.epochs := 10; EndToEnd.lr := 1 # 10000;
     EndToEnd.log_every := 10; EndToEnd.save_every := 1;
     EndToEnd.run_name := "v0";
     EndToEnd.resume := "checkpoints/v0/epoch_3.pth.tar";
     EndToEnd.batch_size := 2; EndToEnd.save_dir := "";
     EndToEnd.best_val_mape := EndToEnd.Inf; EndToEnd.start_epoch := 0;
     EndToEnd.iter := 0 |}.

Definition saved : @EndToEnd.checkpoint Q unit :=
  {| EndToEnd.ck_epoch := 3; EndToEnd.ck_iter := 8;
     EndToEnd.ck_state_dict := 5 # 4;
     EndToEnd.ck_best_val_mape := EndToEnd.Fin (1 # 4);
     EndToEnd.ck_optimizer := tt |}.

Definition resume_disk : gmap string (@EndToEnd.file Q unit) :=
  {[ "checkpoints/v0/epoch_3.pth.tar" := EndToEnd.CheckpointFile saved ]}.



(** A three-epoch run that saves after every epoch. *)
Definition ring_args : EndToEnd.Args :=
  {| EndToEnd.epochs := 3; EndToEnd.lr := 1 # 10000;
     EndToEnd.log_every := 10; EndToEnd.save_every := 1;
     EndToEnd.run_name := "v0"; EndToEnd.resume := "";
     EndToEnd.batch_size := 2; EndToEnd.save_dir := "checkpoints/v0";
     EndToEnd.best_val_mape := EndToEnd.Inf; EndToEnd.start_epoch := 0;
     EndToEnd.iter := 0 |}.

Definition run_of (a : EndToEnd.Args) : @EndToEnd.run Q unit :=
  {| EndToEnd.model := 0%Q; EndToEnd.optimizer := tt; EndToEnd.args := a;
     EndToEnd.fs := ∅; EndToEnd.console := [] |}.





(** The arrays and the label tables of both splits, two samples each. *)
Definition both_splits : TrainPy.storage :=
  {| TrainPy.npy :=
       {[ "train.npy" := [[0]; [0]]%Q; "val.npy" := [[1; 2]; [3; 4]]%Q ]};
     TrainPy.csv :=
       {[ TrainPy.split_train_csv := {[ "PRODUCT_LENGTH" := [1; 1]%Q ]};
          TrainPy.split_val_csv := {[ "PRODUCT_LENGTH" := [10; 20]%Q ]} ]} |}.

(** The sampler that leaves the order as it is. *)
Definition in_order : Z → list Z → list Z := λ _ l, l.

End Demo.

(** The disk after the guarded deletion of the first of the sorted best
    files (lines 56-60 of end_to_end.py), failures swallowed. *)
Definition after_best_removal {V : Type} (remove_fault : string → option exn)
    (past_best : list string) (d : gmap string V) : gmap string V :=
  if decide (5 <= length past_best)%nat then
    match past_best with
    | [] => d
    | q :: _ => after_remove remove_fault q d
    end
  else d.

(** Two namespaces agree on what the command line fixed. *)
Definition same_setup (a a' : EndToEnd.Args) : Prop :=
  EndToEnd.epochs a' = EndToEnd.epochs a
  ∧ EndToEnd.save_every a' = EndToEnd.save_every a
  ∧ EndToEnd.log_every a' = EndToEnd.log_every a
  ∧ EndToEnd.save_dir a' = EndToEnd.save_dir a
  ∧ EndToEnd.start_epoch a' = EndToEnd.start_epoch a.

(** The epochs whose banner [Epoch: e] was printed, in order. *)
Definition epochs_begun (out : list EndToEnd.event) : list Z :=
  omap (λ ev, match ev with EndToEnd.PrintEpoch e => Some e | _ => None end)
    out.

(** The validation MAPE that [train] computes in the epoch starting from
    the run state [r]. *)
Definition epoch_val_mape {W O : Type}
    (forward : W → list string → tensor)
    (optim_step : W → O → list string → list Q → W * O)
    (r : @EndToEnd.run W O)
    (train_loader val_loader : DataLoader EndToEnd.sample) : result Q :=
  '(r1, _) ← EndToEnd.train_one_epoch forward optim_step r train_loader;
  '(_, m) ← EndToEnd.val forward (EndToEnd.model r1) val_loader;
  mret m.

(** The dict that [train] builds at the end of epoch [epoch] from the run
    state [r]. *)
Definition state_of {W O : Type} (r : @EndToEnd.run W O) (epoch : Z)
    : @EndToEnd.checkpoint W O :=
  {| EndToEnd.ck_epoch := epoch;
     EndToEnd.ck_iter := EndToEnd.iter (EndToEnd.args r);
     EndToEnd.ck_state_dict := EndToEnd.model r;
     EndToEnd.ck_best_val_mape := EndToEnd.best_val_mape (EndToEnd.args r);
     EndToEnd.ck_optimizer := EndToEnd.optimizer r |}.

(** The run state once the banner of [epoch] is printed, as [train] has it
    when it calls [train_one_epoch]. *)
Definition with_banner {W O : Type} (r : @EndToEnd.run W O) (epoch : Z)
    : @EndToEnd.run W O :=
  {| EndToEnd.model := EndToEnd.model r;
     EndToEnd.optimizer := EndToEnd.optimizer r;
     EndToEnd.args := EndToEnd.args r; EndToEnd.fs := EndToEnd.fs r;
     EndToEnd.console := EndToEnd.console r ++ [EndToEnd.PrintEpoch epoch] |}.






(** Two trainer states that differ at most in the regressor, the optimizer
    and what was printed. *)
Definition same_records {W O : Type} (t t' : @TrainPy.Trainer W O) : Prop :=
  TrainPy.args t' = TrainPy.args t
  ∧ TrainPy.trainloader t' = TrainPy.trainloader t
  ∧ TrainPy.valloader t' = TrainPy.valloader t
  ∧ TrainPy.loss t' = TrainPy.loss t
  ∧ TrainPy.mape t' = TrainPy.mape t
  ∧ TrainPy.mse t' = TrainPy.mse t
  ∧ TrainPy.best_mse t' = TrainPy.best_mse t
  ∧ TrainPy.fs t' = TrainPy.fs t.

(** The validation MSE that [Trainer.train] computes in [epoch], starting
    from the trainer state [t]. *)
Definition epoch_val_mse {W O : Type}
    (forward : W → list (list Q) → tensor)
    (optim_step : W → O → list (list Q) → list Q → W * O)
    (shuffle : Z → list Z → list Z)
    (t : @TrainPy.Trainer W O) (epoch : Z) : result (option Q) :=
  '(t1, l) ← TrainPy.Trainer_train_epoch forward optim_step shuffle t epoch;
  '(_, _, ms) ← TrainPy.Trainer_val forward
                  (TrainPy.set_metrics (TrainPy.loss t1 ++ [l])
                     (TrainPy.mape t1) (TrainPy.mse t1) (TrainPy.best_mse t1)
                     t1)
                  (TrainPy.Epoch epoch);
  mret ms.

(** The model answers every batch, under every weight, with one scalar per
    sample in a tensor of shape [(B,)]. *)
Definition well_shaped {X W : Type} (forward : W → list X → tensor) : Prop :=
  ∀ w xs, ∃ ps, forward w xs = Vec ps ∧ length ps = length xs.


(** [a <= b] on metrics, [np.inf] being the largest. *)
Definition metric_le (a b : EndToEnd.metric) : Prop :=
  match a, b with
  | _, EndToEnd.Inf => True
  | EndToEnd.Inf, EndToEnd.Fin _ => False
  | EndToEnd.Fin x, EndToEnd.Fin y => (x <= y)%Q
  end.

(** [b] is at most every number of [l]; a NaN entry is not compared. *)
Definition bounds_below (b : Q) (l : list (option Q)) : Prop :=
  Forall (λ ms, match ms with Some v => (b <= v)%Q | None => True end) l.

(** The sum over every pair (prediction, target) of the [ape] term, and of
    the squared difference. *)
Definition cross_ape_sum (ps ys : list Q) : Q :=
  qsum (map (λ p, qsum (map (ape p) ys)) ps).

Definition cross_sq_sum (ps ys : list Q) : Q :=
  qsum (map (λ p, qsum (map (λ y, (p - y) * (p - y))%Q ys)) ps).

(** The epochs of train.py in which the validation branch is taken. *)
Definition validated_epochs (a : TrainPy.Args) : list Z :=
  filter (λ e, e `mod` TrainPy.val_interval a = 0) (TrainPy.epoch_range a).

(** The path lies under the directory [save_dir], as [os.path.join] spells
    the directory. *)
Definition under_save_dir (args : EndToEnd.Args) (p : string) : Prop :=
  startswith (join_prefix (EndToEnd.save_dir args)) p = true.

(** What a validation pass of end_to_end.py adds up when each batch
    contributes its sum over all pairs. *)
Definition cross_ape_batches {W : Type} (forward : W → list string → tensor)
    (w : W) (bs : list (list EndToEnd.sample)) : Q :=
  qsum (map (λ b, cross_ape_sum (entries (forward w (map fst b)))
                    (map snd b)) bs).

(** The model answers every batch, under every weight, with a column: one
    scalar per sample in a tensor of shape [(B, 1)]. *)
Definition column_shaped {X W : Type} (forward : W → list X → tensor) : Prop :=
  ∀ w xs, ∃ ps, forward w xs = Mat (map (λ p, [p]) ps)
                ∧ length ps = length xs.

(** The conditions under which no call inside [Trainer.train] raises: at
    least one epoch, intervals that are not zero, and two non-empty datasets
    whose arrays and label columns have the same length. *)
Definition ready_trainer {W O : Type} (t : @TrainPy.Trainer W O) : Prop :=
  1 <= TrainPy.epochs (TrainPy.args t)
  ∧ TrainPy.log_interval (TrainPy.args t) ≠ 0
  ∧ TrainPy.val_interval (TrainPy.args t) ≠ 0
  ∧ Forall (λ l, length (TrainPy.data (TrainPy.loader_dataset l))
                 = length (TrainPy.values (TrainPy.loader_dataset l))
                 ∧ TrainPy.data (TrainPy.loader_dataset l) ≠ []
                 ∧ (0 < TrainPy.loader_bs l)%nat)
      [TrainPy.trainloader t; TrainPy.valloader t].



(** * Properties *)

(** ** The result monad and loops *)

Lemma mapM_Ok {A B : Type} (g : A → B) (l : list A) :
  mapM (λ x, Ok (g x)) l = Ok (map g l).
Proof.
  induction l as [|x l IH]; [done|].
  cbn. rewrite IH. done.
Qed.

Lemma mapM_Ok_ext {A B : Type} (f : A → result B) (g : A → B) (l : list A) :
  (∀ x, x ∈ l → f x = Ok (g x)) → mapM f l = Ok (map g l).
Proof.
  induction l as [|x l IH]; intros Hf; [done|].
  cbn. rewrite Hf by left. cbn.
  rewrite IH; [done|]. intros y Hy. apply Hf. by right.
Qed.

Lemma mapM_defined {A B : Type} (f : A → result B) (l : list A) :
  (∀ x, x ∈ l → ∃ y, f x = Ok y) → ∃ k, mapM f l = Ok k.
Proof.
  induction l as [|x l IH]; intros Hf; [by exists []|].
  destruct (Hf x) as [y Hy]; [left|].
  destruct IH as [k Hk]; [intros z Hz; apply Hf; by right|].
  exists (y :: k). cbn. rewrite Hy. cbn. by rewrite Hk.
Qed.

Lemma mapM_Ok_length {A B : Type} (f : A → result B) (l : list A) (k : list B) :
  mapM f l = Ok k → length k = length l.
Proof.
  revert k. induction l as [|x l IH]; intros k; cbn.
  - by intros [= <-].
  - destruct (f x) as [y|]; [|done]. cbn.
    destruct (mapM f l) as [k'|]; [|done]. cbn.
    intros [= <-]. cbn. f_equal. by apply IH.
Qed.

Lemma foldlM_app {A B : Type} (f : B → A → result B) (b : B) (l1 l2 : list A) :
  foldlM f b (l1 ++ l2) = foldlM f b l1 ≫= λ b', foldlM f b' l2.
Proof.
  revert b. induction l1 as [|x l1 IH]; intros b; cbn; [done|].
  destruct (f b x); cbn; [apply IH|done].
Qed.

(** A loop invariant rule: whatever the body preserves holds when the loop
    ends normally. *)
Lemma foldlM_invariant {A B : Type} (f : B → A → result B) (I : list A → B → Prop)
    (l : list A) (b b' : B) :
  I [] b →
  (∀ done x s s', I done s → f s x = Ok s' → I (done ++ [x]) s') →
  foldlM f b l = Ok b' → I l b'.
Proof.
  intros H0 Hstep.
  cut (∀ done s, I done s → foldlM f s l = Ok b' → I (done ++ l) b').
  { intros Hgen. apply (Hgen [] b H0). }
  induction l as [|x l IH]; intros done s Hs; cbn.
  - intros [= <-]. by rewrite app_nil_r.
  - destruct (f s x) as [s'|] eqn:Hf; [|done].
    intros Hrest. replace (done ++ x :: l) with ((done ++ [x]) ++ l)
      by (by rewrite <- app_assoc).
    apply (IH (done ++ [x]) s'); [|done]. exact (Hstep done x s s' Hs Hf).
Qed.


(** ** Batching *)

Lemma chunks_fuel_concat {A : Type} (fuel bs : nat) (l : list A) :
  (0 < bs)%nat → (length l ≤ fuel)%nat → concat (chunks_fuel fuel bs l) = l.
Proof.
  intros Hbs. revert l. induction fuel as [|fuel IH]; intros l Hlen.
  - destruct l; [done|]. cbn in Hlen. lia.
  - destruct l as [|x l]; [done|].
    change (chunks_fuel (S fuel) bs (x :: l))
      with (take bs (x :: l) :: chunks_fuel fuel bs (drop bs (x :: l))).
    cbn [concat]. rewrite IH.
    + apply take_drop.
    + rewrite length_drop. cbn in *. lia.
Qed.

Lemma chunks_concat {A : Type} (bs : nat) (l : list A) :
  (0 < bs)%nat → concat (chunks bs l) = l.
Proof. intros. by apply chunks_fuel_concat. Qed.

Lemma batches_concat {A : Type} (dl : DataLoader A) :
  (0 < loader_batch_size dl)%nat → concat (batches dl) = dataset dl.
Proof. apply chunks_concat. Qed.

Lemma chunks_nonempty {A : Type} (bs : nat) (l : list A) :
  l ≠ [] → chunks bs l ≠ [].
Proof. destruct l; [done|]. intros _. done. Qed.

(** ** Sums of rationals *)

Lemma qsum_app (l1 l2 : list Q) : (qsum (l1 ++ l2) == qsum l1 + qsum l2)%Q.
Proof.
  induction l1 as [|x l1 IH].
  - change (qsum l2 == 0 + qsum l2)%Q. ring.
  - change (x + qsum (l1 ++ l2) == x + qsum l1 + qsum l2)%Q. rewrite IH. ring.
Qed.

Lemma qsum_nonneg (l : list Q) : Forall (λ x, 0 <= x)%Q l → (0 <= qsum l)%Q.
Proof.
  induction 1 as [|x l Hx _ IH].
  - change (0 <= 0)%Q. lra.
  - change (0 <= x + qsum l)%Q. lra.
Qed.

Lemma qsum_zero (l : list Q) : Forall (λ x, x == 0)%Q l → (qsum l == 0)%Q.
Proof.
  induction 1 as [|x l Hx _ IH].
  - reflexivity.
  - change (x + qsum l == 0)%Q. rewrite Hx, IH. ring.
Qed.

(** ** The per-sample error term *)

Lemma epsilon_pos : (0 < epsilon)%Q.
Proof. reflexivity. Qed.

Lemma ape_denominator_pos (t : Q) : (0 < Qabs t + epsilon)%Q.
Proof. pose proof (Qabs_nonneg t). pose proof epsilon_pos. lra. Qed.

Lemma ape_nonneg (p t : Q) : (0 <= ape p t)%Q.
Proof.
  unfold ape, Qdiv. apply Qmult_le_0_compat.
  - apply Qabs_nonneg.
  - apply Qlt_le_weak, Qinv_lt_0_compat, ape_denominator_pos.
Qed.

Lemma ape_same (t : Q) : (ape t t == 0)%Q.
Proof.
  unfold ape. assert (t - t == 0)%Q as -> by ring.
  change (Qabs 0) with 0%Q. unfold Qdiv. ring.
Qed.

(** ** One batch of the metric *)

Lemma bc_row_same_length (f : Q → Q → Q) (xs ys : list Q) :
  length xs = length ys → bc_row f xs ys = Ok (zip_with f xs ys).
Proof.
  intros Hlen. unfold bc_row, bc_axis.
  rewrite decide_True by done.
  rewrite (mapM_Ok (λ p : Q * Q, f p.1 p.2)).
  f_equal. revert ys Hlen. induction xs as [|x xs IH]; intros [|y ys] Hlen;
    cbn in *; try done. f_equal. apply IH. lia.
Qed.

Lemma ape_zip (ps ys : list Q) :
  zip_with Qdiv (map Qabs (zip_with Qminus ps ys))
    (map (λ t, t + epsilon)%Q (map Qabs ys)) = zip_with ape ps ys.
Proof.
  revert ys. induction ps as [|p ps IH]; intros [|y ys]; cbn; try done.
  f_equal. apply IH.
Qed.

(** On predictions shaped like the targets the batch term is the plain
    sum of the per-sample terms. *)
Lemma batch_mape_vec (ps ys : list Q) :
  length ps = length ys → batch_mape (Vec ps) ys = Ok (ape_sum ps ys).
Proof.
  intros Hlen. unfold batch_mape. cbn.
  rewrite bc_row_same_length by done. cbn.
  rewrite bc_row_same_length.
  - cbn. unfold ape_sum. by rewrite ape_zip.
  - rewrite !length_map, length_zip_with. lia.
Qed.

Lemma mse_loss_vec_defined (ps ys : list Q) :
  length ps = length ys → ∃ l, mse_loss (squeeze (Vec ps)) (Vec ys) = Ok l.
Proof.
  intros Hlen. unfold mse_loss.
  destruct ps as [|p [|p' ps]]; cbn [squeeze].
  - cbn. rewrite bc_row_same_length by done. cbn. eauto.
  - cbn. eauto.
  - cbn [broadcast]. rewrite bc_row_same_length by done. cbn. eauto.
Qed.

Lemma ape_sum_app (p1 p2 y1 y2 : list Q) :
  length p1 = length y1 →
  (ape_sum (p1 ++ p2) (y1 ++ y2) == ape_sum p1 y1 + ape_sum p2 y2)%Q.
Proof.
  intros Hlen. unfold ape_sum.
  rewrite zip_with_app by done. apply qsum_app.
Qed.

Lemma ape_sum_nonneg (ps ys : list Q) : (0 <= ape_sum ps ys)%Q.
Proof.
  apply qsum_nonneg. revert ys.
  induction ps as [|p ps IH]; intros [|y ys]; cbn; try constructor.
  - apply ape_nonneg.
  - apply IH.
Qed.

Lemma ape_sum_same (ys : list Q) : (ape_sum ys ys == 0)%Q.
Proof.
  apply qsum_zero. induction ys as [|y ys IH]; cbn; constructor.
  - apply ape_same.
  - apply IH.
Qed.

Lemma accum_value_iadd (a : accum) (q : Q) :
  accum_value (iadd a q) = (accum_value a + q)%Q.
Proof. by destruct a. Qed.

Lemma iadd_is_tensor (a : accum) (q : Q) : ∃ s, iadd a q = Tensor0 s.
Proof. destruct a; cbn; eauto. Qed.

Lemma targets_concat {X : Type} (bs : list (list (X * Q))) :
  targets bs = map snd (concat bs).
Proof.
  unfold targets. induction bs as [|b bs IH]; [done|].
  cbn. rewrite map_app. by f_equal.
Qed.

(** ** Validation in end_to_end.py *)

Section EndToEndVal.
Import EndToEnd.
Context {W : Type} (forward : W → list string → tensor) (w : W).

Lemma val_batch_vec (losses : list (option Q)) (acc : accum)
    (b : list sample) (ps : list Q) :
  forward w (map fst b) = Vec ps → length ps = length b →
  ∃ l, val_batch forward w (losses, acc) b
       = Ok (losses ++ [l], iadd acc (ape_sum ps (map snd b))).
Proof.
  intros Hout Hlen. unfold val_batch. rewrite Hout.
  assert (length ps = length (map snd b)) as Hlen'
    by (by rewrite length_map).
  destruct (mse_loss_vec_defined ps (map snd b) Hlen') as [l ->].
  rewrite (batch_mape_vec ps (map snd b) Hlen'). cbn. eauto.
Qed.

Lemma val_loop_vec (bs : list (list sample)) :
  vec_shaped forward w bs →
  ∀ losses acc, ∃ losses' acc',
    foldlM (val_batch forward w) (losses, acc) bs = Ok (losses', acc')
    ∧ (accum_value acc'
       == accum_value acc + ape_sum (outputs forward w bs) (targets bs))%Q
    ∧ (bs ≠ [] → ∃ s, acc' = Tensor0 s).
Proof.
  induction 1 as [|b bs (ps & Hout & Hlen) _ IH]; intros losses acc.
  - exists losses, acc. split; [done|]. split; [|done].
    change (ape_sum (outputs forward w []) (targets [])) with 0%Q. ring.
  - destruct (val_batch_vec losses acc b ps Hout Hlen) as [l Hstep].
    destruct (IH (losses ++ [l]) (iadd acc (ape_sum ps (map snd b))))
      as (losses' & acc' & Hloop & Hval & Htensor).
    exists losses', acc'. split; [|split].
    + cbn [foldlM]. rewrite Hstep. exact Hloop.
    + rewrite Hval, accum_value_iadd.
      change (outputs forward w (b :: bs))
        with (entries (forward w (map fst b)) ++ outputs forward w bs).
      change (targets (b :: bs)) with (map snd b ++ targets bs).
      rewrite Hout. cbn [entries].
      rewrite ape_sum_app by (by rewrite length_map). ring.
    + intros _. destruct bs as [|b' bs'].
      * cbn in Hloop. injection Hloop as _ <-. apply iadd_is_tensor.
      * by apply Htensor.
Qed.

(** With outputs shaped like the targets, [val] returns the mean of the
    per-sample terms over the whole validation set. *)
Lemma val_mape_vec (vl : DataLoader sample) :
  (0 < loader_batch_size vl)%nat → dataset vl ≠ [] →
  vec_shaped forward w (batches vl) →
  ∃ val_loss val_mape,
    val forward w vl = Ok (val_loss, val_mape)
    ∧ (val_mape ==
       ape_sum (outputs forward w (batches vl)) (map snd (dataset vl))
       / inject_Z (Z.of_nat (length (dataset vl))))%Q.
Proof.
  intros Hbs Hne Hshape.
  destruct (val_loop_vec (batches vl) Hshape [] (PyInt 0))
    as (losses & acc & Hloop & Hval & Htensor).
  destruct Htensor as [s ->]; [by apply chunks_nonempty|].
  unfold val. rewrite Hloop. cbn.
  rewrite decide_False by (by destruct (dataset vl)).
  eexists _, _. split; [done|].
  cbn in Hval. rewrite Hval.
  rewrite targets_concat, (batches_concat vl Hbs).
  assert (inject_Z 0 == 0)%Q as -> by reflexivity.
  assert (0 + ape_sum (outputs forward w (batches vl)) (map snd (dataset vl))
          == ape_sum (outputs forward w (batches vl)) (map snd (dataset vl)))%Q
    as -> by ring.
  reflexivity.
Qed.
End EndToEndVal.

(** ** Broadcasting keeps entrywise properties *)

Lemma mapM_Forall {A B : Type} (f : A → result B) (P : B → Prop)
    (l : list A) (k : list B) :
  mapM f l = Ok k → (∀ x y, x ∈ l → f x = Ok y → P y) → Forall P k.
Proof.
  revert k. induction l as [|x l IH]; intros k; cbn.
  - intros [= <-] _. constructor.
  - destruct (f x) as [y|] eqn:Hfx; [|done]. cbn.
    destruct (mapM f l) as [k'|]; [|done]. cbn.
    intros [= <-] HP. constructor.
    + apply (HP x y); [left|done].
    + apply IH; [done|]. intros x' y' Hin. apply HP. by right.
Qed.

Lemma bc_axis_Forall {A B C : Type} (g : A → B → result C) (P : C → Prop)
    (xs : list A) (ys : list B) (zs : list C) :
  bc_axis g xs ys = Ok zs →
  (∀ x y z, x ∈ xs → y ∈ ys → g x y = Ok z → P z) → Forall P zs.
Proof.
  unfold bc_axis. intros Hbc HP. destruct (decide (length xs = length ys)).
  - eapply mapM_Forall; [exact Hbc|]. intros [x y] z Hin Hg. cbn in Hg.
    apply (HP x y z); [|  |done].
    + by eapply elem_of_zip_l.
    + by eapply elem_of_zip_r.
  - destruct xs as [|x [|x' xs]].
    + destruct ys as [|y [|y' ys]]; try done.
      eapply mapM_Forall; [exact Hbc|]. intros x0 z Hin. by inversion Hin.
    + eapply mapM_Forall; [exact Hbc|]. intros y z Hin Hg.
      apply (HP x y z); [left|done|done].
    + destruct ys as [|y [|y' ys]]; try done.
      eapply mapM_Forall; [exact Hbc|]. intros x0 z Hin Hg.
      apply (HP x0 y z); [done|left|done].
Qed.

Lemma bc_row_Forall (f : Q → Q → Q) (PA PB PC : Q → Prop) (xs ys zs : list Q) :
  bc_row f xs ys = Ok zs → Forall PA xs → Forall PB ys →
  (∀ x y, PA x → PB y → PC (f x y)) → Forall PC zs.
Proof.
  intros Hbc HA HB Hf. eapply bc_axis_Forall; [exact Hbc|].
  intros x y z Hx Hy [= <-]. apply Hf.
  - by eapply Forall_forall in HA.
  - by eapply Forall_forall in HB.
Qed.

Lemma broadcast_Forall (f : Q → Q → Q) (PA PB PC : Q → Prop) (a b t : tensor) :
  broadcast f a b = Ok t →
  Forall PA (entries a) → Forall PB (entries b) →
  (∀ x y, PA x → PB y → PC (f x y)) → Forall PC (entries t).
Proof.
  intros Hbc HA HB Hf. destruct a as [x|xs|rs1], b as [y|ys|rs2]; cbn in *.
  - injection Hbc as <-. cbn. constructor; [|done].
    apply Hf; [by inversion HA|by inversion HB].
  - injection Hbc as <-. cbn. apply Forall_map.
    eapply Forall_impl; [exact HB|]. intros y Hy. apply Hf; [by inversion HA|done].
  - injection Hbc as <-. cbn. apply Forall_concat, Forall_map.
    apply Forall_concat in HB. eapply Forall_impl; [exact HB|].
    intros r Hr. apply Forall_map. eapply Forall_impl; [exact Hr|].
    intros y Hy. apply Hf; [by inversion HA|done].
  - injection Hbc as <-. cbn. apply Forall_map.
    eapply Forall_impl; [exact HA|]. intros x Hx. apply Hf; [done|by inversion HB].
  - destruct (bc_row f xs ys) as [zs|] eqn:Hrow; [|done].
    injection Hbc as <-. cbn. by eapply bc_row_Forall.
  - destruct (mapM _ rs2) as [zs|] eqn:Hrows; [|done].
    injection Hbc as <-. cbn. apply Forall_concat.
    apply Forall_concat in HB.
    eapply mapM_Forall; [exact Hrows|]. intros r z Hr Hz.
    eapply bc_row_Forall; [exact Hz|exact HA| |exact Hf].
    by eapply Forall_forall in HB.
  - injection Hbc as <-. cbn. apply Forall_concat, Forall_map.
    apply Forall_concat in HA. eapply Forall_impl; [exact HA|].
    intros r Hr. apply Forall_map. eapply Forall_impl; [exact Hr|].
    intros x Hx. apply Hf; [done|by inversion HB].
  - destruct (mapM _ rs1) as [zs|] eqn:Hrows; [|done].
    injection Hbc as <-. cbn. apply Forall_concat.
    apply Forall_concat in HA.
    eapply mapM_Forall; [exact Hrows|]. intros r z Hr Hz.
    eapply bc_row_Forall; [exact Hz| |exact HB|exact Hf].
    by eapply Forall_forall in HA.
  - destruct (bc_axis _ rs1 rs2) as [zs|] eqn:Hrows; [|done].
    injection Hbc as <-. cbn. apply Forall_concat.
    apply Forall_concat in HA. apply Forall_concat in HB.
    eapply bc_axis_Forall; [exact Hrows|]. intros r1 r2 z Hr1 Hr2 Hz.
    eapply bc_row_Forall; [exact Hz| | |exact Hf].
    + by eapply Forall_forall in HA.
    + by eapply Forall_forall in HB.
Qed.

Lemma entries_tmap (f : Q → Q) (t : tensor) :
  entries (tmap f t) = map f (entries t).
Proof.
  destruct t as [x|xs|rs]; cbn; try done.
  induction rs as [|r rs IH]; cbn; [done|]. by rewrite map_app, IH.
Qed.

Lemma tsum_nonneg (t : tensor) :
  Forall (λ x, 0 <= x)%Q (entries t) → (0 <= tsum t)%Q.
Proof.
  destruct t as [x|xs|rs]; cbn; intros H.
  - by inversion H.
  - by apply qsum_nonneg.
  - apply qsum_nonneg, Forall_map. apply Forall_concat in H.
    eapply Forall_impl; [exact H|]. intros r Hr. by apply qsum_nonneg.
Qed.

(** Whatever the shapes, a batch term that is computed at all is a sum of
    non-negative ratios. *)
Lemma batch_mape_nonneg (output : tensor) (y : list Q) (s : Q) :
  batch_mape output y = Ok s → (0 <= s)%Q.
Proof.
  unfold batch_mape. intros H.
  destruct (broadcast Qminus output (Vec y)) as [diff|]; [|done]. cbn in H.
  destruct (broadcast Qdiv _ _) as [ratio|] eqn:Hratio; [|done].
  cbn in H. injection H as <-. apply tsum_nonneg.
  eapply (broadcast_Forall Qdiv (λ x, 0 <= x)%Q (λ d, 0 < d)%Q); [exact Hratio| | |].
  - rewrite entries_tmap. apply Forall_map, Forall_true. intros x. apply Qabs_nonneg.
  - cbn. apply Forall_map, Forall_map, Forall_true. intros t.
    apply ape_denominator_pos.
  - intros x d Hx Hd. unfold Qdiv. apply Qmult_le_0_compat; [done|].
    by apply Qlt_le_weak, Qinv_lt_0_compat.
Qed.

Section EndToEndValSign.
Import EndToEnd.
Context {W : Type} (forward : W → list string → tensor) (w : W).

Lemma val_loop_nonneg (bs : list (list sample)) (st st' : list (option Q) * accum) :
  (0 <= accum_value st.2)%Q →
  foldlM (val_batch forward w) st bs = Ok st' → (0 <= accum_value st'.2)%Q.
Proof.
  intros H0 Hloop.
  apply (foldlM_invariant (val_batch forward w)
           (λ _ s, 0 <= accum_value s.2)%Q bs st st'); [done| |done].
  intros _ b [losses acc] s' Hacc Hstep. unfold val_batch in Hstep.
  destruct (mse_loss _ _) as [l|]; [|done]. cbn in Hstep.
  destruct (batch_mape _ _) as [m|] eqn:Hm; [|done]. cbn in Hstep.
  injection Hstep as <-. cbn [snd] in *. rewrite accum_value_iadd.
  apply batch_mape_nonneg in Hm. lra.
Qed.

Lemma val_nonneg (vl : DataLoader sample) (val_loss : option Q) (val_mape : Q) :
  val forward w vl = Ok (val_loss, val_mape) → (0 <= val_mape)%Q.
Proof.
  unfold val. intros H.
  destruct (foldlM _ _ _) as [[losses acc]|] eqn:Hloop; [|done]. cbn in H.
  apply val_loop_nonneg in Hloop; [|apply Qle_refl].
  destruct acc as [z|q]; [done|]. cbn in H, Hloop.
  destruct (decide (length (dataset vl) = 0%nat)) as [|Hn]; [done|].
  injection H as _ <-. unfold Qdiv. apply Qmult_le_0_compat; [done|].
  apply Qlt_le_weak, Qinv_lt_0_compat.
  change 0%Q with (inject_Z 0). rewrite <- Zlt_Qlt. lia.
Qed.
End EndToEndValSign.

(** ** The dataset and validation in train.py *)

Lemma getitem_nat {A : Type} (l : list A) (i : nat) (x : A) :
  l !! i = Some x → getitem l (Z.of_nat i) = Ok x.
Proof.
  intros Hx. unfold getitem. cbv zeta.
  pose proof (lookup_lt_Some _ _ _ Hx).
  rewrite (decide_False (P := Z.of_nat i < 0)) by lia.
  rewrite decide_True by lia.
  by rewrite Nat2Z.id, Hx.
Qed.

Lemma range_lookup (start stop : Z) (i : nat) :
  (Z.of_nat i < stop - start) → range start stop !! i = Some (start + Z.of_nat i).
Proof.
  intros Hi. unfold range.
  change (map ?f ?l) with (f <$> l).
  rewrite list_lookup_fmap, lookup_seq_lt by lia. done.
Qed.

Lemma range_length (start stop : Z) :
  length (range start stop) = Z.to_nat (stop - start).
Proof. unfold range. by rewrite length_map, length_seq. Qed.

Lemma mapM_Ok_lookup {A B : Type} (f : A → result B) (l : list A) (k : list B) :
  length l = length k →
  (∀ i x y, l !! i = Some x → k !! i = Some y → f x = Ok y) →
  mapM f l = Ok k.
Proof.
  revert k. induction l as [|x l IH]; intros [|y k] Hlen Hf; try done.
  cbn. rewrite (Hf 0%nat x y) by done. cbn.
  rewrite (IH k); [done|by injection Hlen|].
  intros i x' y' Hx Hy. by apply (Hf (S i)).
Qed.

Section TrainPyDataset.
Import TrainPy.

(** On aligned sources, iterating the dataset in index order pairs the
    rows of the array with the rows of the label column. *)
Lemma TDataset_items_aligned (ds : TDataset) :
  length (data ds) = length (values ds) →
  mapM (TDataset_getitem ds) (range 0 (Z.of_nat (TDataset_len ds)))
  = Ok (zip (data ds) (values ds)).
Proof.
  intros Hlen. apply mapM_Ok_lookup.
  - rewrite range_length, length_zip_with. unfold TDataset_len. lia.
  - intros i idx [x v] Hidx Hxv.
    apply lookup_zip_with_Some in Hxv as (x' & v' & [= <- <-] & Hx & Hv).
    pose proof (lookup_lt_Some _ _ _ Hx) as Hi.
    rewrite range_lookup in Hidx by (unfold TDataset_len; lia).
    injection Hidx as <-. unfold TDataset_getitem.
    rewrite Z.add_0_l, (getitem_nat _ _ _ Hx), (getitem_nat _ _ _ Hv). done.
Qed.

Lemma loader_batches_aligned (l : TLoader) :
  length (data (loader_dataset l)) = length (values (loader_dataset l)) →
  loader_batches id l
  = Ok (chunks (loader_bs l)
          (zip (data (loader_dataset l)) (values (loader_dataset l)))).
Proof.
  intros Hlen. unfold loader_batches, id.
  by rewrite TDataset_items_aligned.
Qed.
End TrainPyDataset.

Lemma squeeze1_col (ps : list Q) :
  squeeze1 (Mat (map (λ p, [p]) ps)) = Ok (Vec ps).
Proof.
  unfold squeeze1.
  assert (forallb (λ r : list Q, bool_decide (length r = 1%nat))
            (map (λ p, [p]) ps) = true) as ->.
  { induction ps as [|p ps IH]; [done|]. cbn. exact IH. }
  do 2 f_equal. induction ps as [|p ps IH]; [done|]. cbn. by f_equal.
Qed.

Lemma entries_col (ps : list Q) : entries (Mat (map (λ p, [p]) ps)) = ps.
Proof. cbn. induction ps as [|p ps IH]; [done|]. cbn. by f_equal. Qed.

Lemma mse_loss_same_length (ps ys : list Q) :
  length ps = length ys → ∃ l, mse_loss (Vec ps) (Vec ys) = Ok l.
Proof.
  intros Hlen. unfold mse_loss. cbn [broadcast].
  rewrite bc_row_same_length by done. cbn. eauto.
Qed.

Section TrainPyVal.
Import TrainPy.
Context {W O : Type} (forward : W → list (list Q) → tensor).

Lemma val_batch_col (w : W) (acc : accum) (ms : option Q)
    (b : list (list Q * Q)) (ps : list Q) :
  forward w (map fst b) = Mat (map (λ p, [p]) ps) → length ps = length b →
  ∃ l, val_batch forward w (acc, ms) b
       = Ok (iadd acc (ape_sum ps (map snd b)), fadd ms l).
Proof.
  intros Hout Hlen. unfold val_batch. rewrite Hout, squeeze1_col.
  cbn [mbind result_bind].
  assert (length ps = length (map snd b)) as Hlen'
    by (by rewrite length_map).
  rewrite (batch_mape_vec ps (map snd b) Hlen').
  destruct (mse_loss_same_length ps (map snd b) Hlen') as [l ->].
  cbn. eauto.
Qed.

Lemma val_loop_col (w : W) (bs : list (list (list Q * Q))) :
  col_shaped forward w bs →
  ∀ acc ms, ∃ acc' ms',
    foldlM (val_batch forward w) (acc, ms) bs = Ok (acc', ms')
    ∧ (accum_value acc'
       == accum_value acc + ape_sum (outputs forward w bs) (targets bs))%Q
    ∧ (bs ≠ [] → ∃ s, acc' = Tensor0 s).
Proof.
  induction 1 as [|b bs (ps & Hout & Hlen) _ IH]; intros acc ms.
  - exists acc, ms. split; [done|]. split; [|done].
    change (ape_sum (outputs forward w []) (targets [])) with 0%Q. ring.
  - destruct (val_batch_col w acc ms b ps Hout Hlen) as [l Hstep].
    destruct (IH (iadd acc (ape_sum ps (map snd b))) (fadd ms l))
      as (acc' & ms' & Hloop & Hval & Htensor).
    exists acc', ms'. split; [|split].
    + cbn [foldlM]. rewrite Hstep. exact Hloop.
    + rewrite Hval, accum_value_iadd.
      change (outputs forward w (b :: bs))
        with (entries (forward w (map fst b)) ++ outputs forward w bs).
      change (targets (b :: bs)) with (map snd b ++ targets bs).
      rewrite Hout, entries_col.
      rewrite ape_sum_app by (by rewrite length_map). ring.
    + intros _. destruct bs as [|b' bs'].
      * cbn in Hloop. injection Hloop as <- _. apply iadd_is_tensor.
      * by apply Htensor.
Qed.

(** On an aligned, non-empty validation set and column-shaped outputs,
    [Trainer.val] returns the undivided sum of the per-sample terms and
    prints one hundred times their mean. *)
Lemma Trainer_val_col (t : @Trainer W O) (epoch : tag) :
  let ds := loader_dataset (valloader t) in
  let bs := chunks (loader_bs (valloader t)) (zip (data ds) (values ds)) in
  length (data ds) = length (values ds) →
  (0 < loader_bs (valloader t))%nat → data ds ≠ [] →
  col_shaped forward (regressor t) bs →
  ∃ t' s ms shown_mse,
    Trainer_val forward t epoch = Ok (t', s, ms)
    ∧ (s == ape_sum (outputs forward (regressor t) bs) (values ds))%Q
    ∧ console t'
      = console t
        ++ [PrintVal epoch
              (100 * s / inject_Z (Z.of_nat (length (data ds))))%Q shown_mse]
    ∧ fs t' = fs t ∧ regressor t' = regressor t.
Proof.
  intros ds bs Hal Hbs Hne Hshape.
  destruct (val_loop_col (regressor t) bs Hshape (PyInt 0) (Some 0%Q))
    as (acc & ms & Hloop & Hval & Htensor).
  destruct Htensor as [s ->].
  { apply chunks_nonempty. subst ds. destruct (data _), (values _); done. }
  unfold Trainer_val. rewrite loader_batches_aligned by done.
  cbn. fold ds. fold bs. rewrite Hloop. cbn.
  eexists _, s, ms, _. split; [done|]. split; [|done].
  cbn in Hval. rewrite Hval, targets_concat.
  subst bs. rewrite chunks_concat by done.
  change (map snd ?l) with (snd <$> l). rewrite snd_zip by lia.
  assert (inject_Z 0 == 0)%Q as -> by reflexivity. ring.
Qed.

Lemma train_val_loop_nonneg (w : W) (bs : list (list (list Q * Q)))
    (st st' : accum * option Q) :
  (0 <= accum_value st.1)%Q →
  foldlM (val_batch forward w) st bs = Ok st' → (0 <= accum_value st'.1)%Q.
Proof.
  intros H0 Hloop.
  apply (foldlM_invariant (val_batch forward w)
           (λ _ s, 0 <= accum_value s.1)%Q bs st st'); [done| |done].
  intros _ b [acc ms] s' Hacc Hstep. unfold val_batch in Hstep.
  destruct (squeeze1 _) as [output|]; [|done]. cbn in Hstep.
  destruct (batch_mape _ _) as [m|] eqn:Hm; [|done]. cbn in Hstep.
  destruct (mse_loss _ _) as [l|]; [|done]. cbn in Hstep.
  injection Hstep as <-. cbn [fst] in *. rewrite accum_value_iadd.
  apply batch_mape_nonneg in Hm. lra.
Qed.

Lemma Trainer_val_nonneg (t t' : @Trainer W O) (epoch : tag) (s : Q)
    (ms : option Q) :
  Trainer_val forward t epoch = Ok (t', s, ms) → (0 <= s)%Q.
Proof.
  unfold Trainer_val. intros H.
  destruct (loader_batches _ _) as [bs|]; [|done]. cbn in H.
  destruct (foldlM _ _ _) as [[acc ms']|] eqn:Hloop; [|done]. cbn in H.
  apply train_val_loop_nonneg in Hloop; [|apply Qle_refl].
  destruct acc as [z|q]; [done|]. cbn in H, Hloop. by injection H as _ <- _.
Qed.
End TrainPyVal.

(** ** Strings *)

Lemma str_app_cons (x : Ascii.ascii) (a b : string) :
  String x a +:+ b = String x (a +:+ b).
Proof. reflexivity. Qed.

Lemma str_app_nil_l (a : string) : "" +:+ a = a.
Proof. reflexivity. Qed.

Ltac str_simpl :=
  rewrite ?str_app_cons, ?str_app_nil_l in *; simpl in *.

Lemma str_app_assoc (a b c : string) : (a +:+ b) +:+ c = a +:+ (b +:+ c).
Proof. induction a as [|x a IH]; str_simpl; [done|]. by rewrite IH. Qed.

Lemma str_app_nil_r (a : string) : a +:+ "" = a.
Proof. induction a as [|x a IH]; str_simpl; [done|]. by rewrite IH. Qed.

Lemma str_length_app (a b : string) :
  String.length (a +:+ b) = (String.length a + String.length b)%nat.
Proof. induction a as [|x a IH]; str_simpl; [done|]. by rewrite IH. Qed.

Lemma str_app_inj_r (a b t : string) : a +:+ t = b +:+ t → a = b.
Proof.
  revert b. induction a as [|x a IH]; intros [|y b] H; str_simpl.
  - done.
  - apply (f_equal String.length) in H. str_simpl.
    rewrite str_length_app in H. lia.
  - apply (f_equal String.length) in H. str_simpl.
    rewrite str_length_app in H. lia.
  - injection H as -> H. f_equal. by apply IH.
Qed.



Lemma strip_prefix_mismatch (p : string) (x y : Ascii.ascii) (a b : string) :
  x ≠ y → strip_prefix (p +:+ String x a) (p +:+ String y b) = None.
Proof.
  intros Hxy. induction p as [|c p IH]; str_simpl.
  - by destruct (Ascii.eqb_spec x y).
  - by rewrite Ascii.eqb_refl.
Qed.

Lemma str_filter_app (f : Ascii.ascii → bool) (a b : string) :
  str_filter f (a +:+ b) = str_filter f a +:+ str_filter f b.
Proof.
  induction a as [|x a IH]; str_simpl; [done|].
  destruct (f x); str_simpl; by rewrite IH.
Qed.

Lemma int_of_digits_app (acc : N) (a b : string) :
  int_of_digits acc (a +:+ b) = int_of_digits (int_of_digits acc a) b.
Proof. revert acc. induction a as [|x a IH]; intros acc; str_simpl; [done|]. apply IH. Qed.

Lemma contains_app (c : Ascii.ascii) (a b : string) :
  contains c (a +:+ b) = contains c a || contains c b.
Proof.
  induction a as [|x a IH]; str_simpl; [done|]. rewrite IH. by rewrite orb_assoc.
Qed.



Lemma os_path_join_relative (a : string) (c : Ascii.ascii) (b : string) :
  c ≠ "/"%char → os_path_join a (String c b) = join_prefix a +:+ String c b.
Proof.
  intros Hc. unfold os_path_join, join_prefix, startswith.
  change (strip_prefix "/" (String c b))
    with (if Ascii.eqb "/" c then strip_prefix "" b else None).
  destruct (Ascii.eqb_spec "/" c) as [<-|_]; [done|].
  destruct (bool_decide (a = "") || endswith "/" a); [reflexivity|].
  rewrite str_app_assoc. reflexivity.
Qed.

(** ** Decimal numerals *)

Lemma pretty_N_char_digit (d : N) :
  (d < 10)%N →
  isdigit (pretty_N_char d) = true ∧ digit_val (pretty_N_char d) = d
  ∧ Ascii.eqb "/" (pretty_N_char d) = false.
Proof.
  intros Hd.
  assert (d = 0 ∨ d = 1 ∨ d = 2 ∨ d = 3 ∨ d = 4 ∨ d = 5 ∨ d = 6 ∨ d = 7
          ∨ d = 8 ∨ d = 9)%N as Hcases by lia.
  repeat (destruct Hcases as [->|Hcases]; [by vm_compute|]).
  subst d. by vm_compute.
Qed.

(** The numeral of a positive number: digits only, read back as the
    number, with as many digits as its size needs. *)
Lemma pretty_N_go_numeral (x : N) :
  (0 < x)%N →
  ∃ (ds : string) (k : N),
    (∀ s, pretty_N_go x s = ds +:+ s)
    ∧ str_filter isdigit ds = ds
    ∧ contains "/" ds = false
    ∧ (∀ acc, int_of_digits acc ds = acc * 10 ^ k + x)%N
    ∧ (1 <= k)%N ∧ (10 ^ (k - 1) <= x < 10 ^ k)%N.
Proof.
  induction (N.lt_wf_0 x) as [x _ IH]. intros Hx.
  pose proof (N.mod_lt x 10 ltac:(lia)) as Hmod.
  destruct (pretty_N_char_digit _ Hmod) as (Hdig & Hval & Hslash).
  pose proof (N.div_mod x 10 ltac:(lia)) as Hdm.
  destruct (decide (x `div` 10 = 0)%N) as [Hz|Hnz].
  - exists (String (pretty_N_char (x `mod` 10)) ""), 1%N.
    repeat split.
    + intros s. rewrite pretty_N_go_step by done. by rewrite Hz, pretty_N_go_0.
    + simpl. by rewrite Hdig.
    + change (Ascii.eqb "/" (pretty_N_char (x `mod` 10)) || false = false).
      by rewrite Hslash.
    + intros acc. simpl. rewrite Hval. lia.
    + lia.
    + change (10 ^ (1 - 1))%N with 1%N. lia.
    + change (10 ^ 1)%N with 10%N. lia.
  - destruct (IH (x `div` 10)%N) as (ds & k & Hgo & Hfil & Hsl & Hint & Hk & Hlo & Hhi).
    { apply N.div_lt; lia. }
    { lia. }
    exists (ds +:+ String (pretty_N_char (x `mod` 10)) ""), (k + 1)%N.
    repeat split.
    + intros s. rewrite pretty_N_go_step by done.
      rewrite Hgo, str_app_assoc. reflexivity.
    + rewrite str_filter_app, Hfil. simpl. by rewrite Hdig.
    + rewrite contains_app, Hsl.
      change (false || (Ascii.eqb "/" (pretty_N_char (x `mod` 10)) || false)
              = false).
      by rewrite Hslash.
    + intros acc. rewrite int_of_digits_app, Hint. simpl. rewrite Hval.
      rewrite N.pow_add_r. change (10 ^ 1)%N with 10%N. lia.
    + lia.
    + replace (k + 1 - 1)%N with (k - 1 + 1)%N by lia.
      rewrite N.pow_add_r. change (10 ^ 1)%N with 10%N. lia.
    + rewrite N.pow_add_r. change (10 ^ 1)%N with 10%N. lia.
Qed.

Lemma pretty_Z_numeral (e : Z) :
  0 <= e →
  ∃ k : N,
    str_filter isdigit (pretty e) = pretty e
    ∧ pretty e ≠ ""
    ∧ contains "/" (pretty e) = false
    ∧ (∀ acc, int_of_digits acc (pretty e) = acc * 10 ^ k + Z.to_N e)%N
    ∧ (1 <= k)%N
    ∧ (0 < e → (10 ^ (k - 1) <= Z.to_N e < 10 ^ k)%N)
    ∧ (e = 0 → k = 1%N).
Proof.
  intros He. destruct e as [|p|p]; [| |lia].
  - exists 1%N. repeat split; try done; intros acc; simpl; lia.
  - destruct (pretty_N_go_numeral (N.pos p)) as (ds & k & Hgo & Hfil & Hsl & Hint & Hk & Hb);
      [lia|].
    assert (pretty (Z.pos p) = ds) as ->.
    { change (pretty (Z.pos p)) with (pretty_N_go (N.pos p) "").
      by rewrite Hgo, str_app_nil_r. }
    exists k. repeat split; try done; try lia.
    intros ->. specialize (Hint 0%N). simpl in Hint. lia.
Qed.

(** ** Checkpoint file names *)

Section Paths.
Import EndToEnd.
Variable args : Args.

Lemma epoch_path_eq (e : Z) :
  epoch_path args e
  = join_prefix (save_dir args) +:+ "epoch_" +:+ pretty e +:+ ".pth.tar".
Proof.
  unfold epoch_path.
  change ("epoch_" +:+ pretty e +:+ ".pth.tar")
    with (String "e" ("poch_" +:+ pretty e +:+ ".pth.tar")).
  by rewrite os_path_join_relative.
Qed.

Lemma best_path_eq (e : Z) :
  best_path args e
  = join_prefix (save_dir args) +:+ "model_best_epoch_" +:+ pretty e
    +:+ ".pth.tar".
Proof.
  unfold best_path.
  change ("model_best_epoch_" +:+ pretty e +:+ ".pth.tar")
    with (String "m" ("odel_best_epoch_" +:+ pretty e +:+ ".pth.tar")).
  by rewrite os_path_join_relative.
Qed.

Lemma best_pattern_eq :
  os_path_join (save_dir args) "model_best_"
  = join_prefix (save_dir args) +:+ "model_best_".
Proof. by rewrite os_path_join_relative. Qed.

Lemma epoch_path_inj (e1 e2 : Z) :
  epoch_path args e1 = epoch_path args e2 → e1 = e2.
Proof.
  rewrite !epoch_path_eq. intros H.
  apply (inj (String.append _)) in H. apply (inj (String.append _)) in H.
  apply str_app_inj_r in H. by apply (inj pretty) in H.
Qed.


Lemma epoch_path_ne_best_path (e1 e2 : Z) :
  epoch_path args e1 ≠ best_path args e2.
Proof.
  rewrite epoch_path_eq, best_path_eq. intros H.
  apply (inj (String.append _)) in H. discriminate H.
Qed.

(** The periodic files never match the best-file pattern. *)
Lemma glob_match_epoch_path (e : Z) :
  glob_match (os_path_join (save_dir args) "model_best_") ".pth.tar"
    (epoch_path args e) = false.
Proof.
  unfold glob_match. rewrite best_pattern_eq, epoch_path_eq.
  change ("model_best_") with (String "m" "odel_best_").
  change ("epoch_" +:+ pretty e +:+ ".pth.tar")
    with (String "e" ("poch_" +:+ pretty e +:+ ".pth.tar")).
  by rewrite strip_prefix_mismatch.
Qed.


(** The sort key of a best file: the digits of the directory part
    followed by those of the epoch. *)
Lemma digits_key_best_path (e : Z) :
  0 <= e →
  ∃ k : N,
    digits_key (best_path args e)
    = Ok (Z.of_N (int_of_digits 0
                    (str_filter isdigit (join_prefix (save_dir args)))
                  * 10 ^ k + Z.to_N e))
    ∧ (1 <= k)%N
    ∧ (0 < e → (10 ^ (k - 1) <= Z.to_N e < 10 ^ k)%N)
    ∧ (e = 0 → k = 1%N).
Proof.
  intros He.
  destruct (pretty_Z_numeral e He) as (k & Hfil & Hne & _ & Hint & Hk & Hpos & Hz).
  exists k. split; [|done].
  unfold digits_key. rewrite best_path_eq, !str_filter_app, Hfil.
  change (str_filter isdigit "model_best_epoch_") with "".
  change (str_filter isdigit ".pth.tar") with "".
  rewrite str_app_nil_l, str_app_nil_r. unfold int.
  destruct (_ +:+ pretty e) as [|c s] eqn:Hs.
  - apply (f_equal String.length) in Hs. rewrite str_length_app in Hs.
    destruct (pretty e); [done|]. simpl in Hs. lia.
  - rewrite <- Hs, int_of_digits_app, Hint. done.
Qed.

(** Later epochs sort later. *)
Lemma digits_key_mono (e1 e2 key1 key2 : Z) :
  0 <= e1 < e2 →
  digits_key (best_path args e1) = Ok key1 →
  digits_key (best_path args e2) = Ok key2 →
  key1 < key2.
Proof.
  intros He H1 H2.
  destruct (digits_key_best_path e1) as (k1 & Hk1 & Hk1' & Hpos1 & Hz1); [lia|].
  destruct (digits_key_best_path e2) as (k2 & Hk2 & Hk2' & Hpos2 & _); [lia|].
  rewrite H1 in Hk1. rewrite H2 in Hk2.
  injection Hk1 as ->. injection Hk2 as ->.
  set (D := int_of_digits 0 _).
  specialize (Hpos2 ltac:(lia)).
  assert (k1 <= k2)%N as Hle.
  { destruct (decide (e1 = 0)) as [->|Hnz]; [rewrite Hz1 by done; lia|].
    specialize (Hpos1 ltac:(lia)).
    destruct (decide (k1 <= k2)%N) as [|Hgt]; [done|exfalso].
    assert (10 ^ k2 <= 10 ^ (k1 - 1))%N
      by (apply N.pow_le_mono_r; lia).
    lia. }
  assert (10 ^ k1 <= 10 ^ k2)%N by (apply N.pow_le_mono_r; lia).
  assert (D * 10 ^ k1 <= D * 10 ^ k2)%N by (apply N.mul_le_mono_l; lia).
  lia.
Qed.
End Paths.

(** ** Sorting by key *)

Section Sorting.
Import EndToEnd.

Lemma insert_by_key_perm (x : Z * string) (l : list (Z * string)) :
  insert_by_key x l ≡ₚ x :: l.
Proof.
  induction l as [|y l IH]; simpl; [done|].
  destruct (decide (x.1 <= y.1)); [done|].
  rewrite IH. apply perm_swap.
Qed.

Lemma sort_by_key_perm (l : list (Z * string)) :
  foldr insert_by_key [] l ≡ₚ l.
Proof.
  induction l as [|x l IH]; simpl; [done|].
  by rewrite insert_by_key_perm, IH.
Qed.



Lemma keyed_spec (key : string → result Z) (l : list string)
    (keyed : list (Z * string)) :
  mapM (λ p, k ← key p; mret (k, p)) l = Ok keyed →
  map snd keyed = l ∧ Forall (λ kp, key kp.2 = Ok kp.1) keyed.
Proof.
  revert keyed. induction l as [|p l IH]; intros keyed; simpl.
  - intros [= <-]. by split.
  - destruct (key p) as [k|] eqn:Hk; [|done]. simpl.
    destruct (mapM _ l) as [keyed'|]; [|done]. simpl.
    intros [= <-]. destruct (IH keyed' eq_refl) as [Hsnd Hkeys].
    split; simpl; [by f_equal|]. by constructor.
Qed.

End Sorting.

(** ** The checkpoint directory *)

Section Disk.
Import EndToEnd.
Context {W O : Type}.
Implicit Types d : gmap string (@file W O).

Lemma elem_of_glob_star (pre post : string) d (p : string) :
  p ∈ glob_star pre post d
  ↔ is_Some (d !! p) ∧ glob_match pre post p = true.
Proof.
  unfold glob_star. rewrite list_elem_of_filter.
  change (map fst (map_to_list d)) with (fst <$> map_to_list d).
  rewrite list_elem_of_fmap. split.
  - intros [Hm ([q f] & -> & Hin)]. split; [|done].
    apply elem_of_map_to_list in Hin. by exists f.
  - intros [[f Hf] Hm]. split; [done|]. exists (p, f). split; [done|].
    by apply elem_of_map_to_list.
Qed.


Lemma lookup_after_remove (rf : string → option exn) (p q : string) d :
  after_remove rf p d !! q
  = if decide (p = q ∧ rf p = None) then None else d !! q.
Proof.
  unfold after_remove. destruct (rf p) as [ex|] eqn:Hrf.
  - rewrite decide_False; [done|]. by intros [_ ?].
  - destruct (d !! p) as [f|] eqn:Hp.
    + rewrite lookup_delete. destruct (decide (p = q)) as [->|Hne].
      * by rewrite decide_True.
      * rewrite decide_False; [done|]. by intros [? _].
    + destruct (decide (p = q ∧ None = None)) as [[<- _]|]; done.
Qed.


(** [try: os.remove(l[0]) except: pass]. *)
Lemma try_remove_all (rf : string → option exn) (l : list string) d :
  try_except_all (q ← getitem l 0; os_remove rf q d) d
  = Ok (match l with [] => d | q :: _ => after_remove rf q d end).
Proof.
  destruct l as [|q l]; [done|].
  assert (getitem (q :: l) 0 = Ok q) as ->.
  { apply (getitem_nat (q :: l) 0%nat q). done. }
  simpl. unfold os_remove, after_remove.
  destruct (rf q); [done|]. by destruct (d !! q).
Qed.

Section Step.
Variable rf : string → option exn.
Variable args : Args.


End Step.
End Disk.

Lemma outputs_exact_vec {X W : Type} (forward : W → list X → tensor) (w : W)
    (bs : list (list (X * Q))) :
  Forall (λ b, forward w (map fst b) = Vec (map snd b)) bs →
  outputs forward w bs = targets bs.
Proof.
  unfold outputs, targets. induction 1 as [|b bs Hb _ IH]; [done|].
  simpl. rewrite Hb, IH. done.
Qed.

Lemma outputs_exact_col {X W : Type} (forward : W → list X → tensor) (w : W)
    (bs : list (list (X * Q))) :
  Forall (λ b, forward w (map fst b) = Mat (map (λ p, [p]) (map snd b))) bs →
  outputs forward w bs = targets bs.
Proof.
  unfold outputs, targets. induction 1 as [|b bs Hb _ IH]; [done|].
  simpl. rewrite Hb, entries_col, IH. done.
Qed.

(** * Main results *)

(** C8. A [TDataset] built from an array and a label column with the same
    number of rows has that number as its length, and item [i] pairs row
    [i] of the array with row [i] of the labels. *)
Theorem TDataset_aligned_rows (st : TrainPy.storage) (path : string)
    (train : bool) (arr : list (list Q)) (table : gmap string (list Q))
    (col : list Q) :
  TrainPy.npy st !! path = Some arr →
  TrainPy.csv st !! (if train then TrainPy.split_train_csv
                     else TrainPy.split_val_csv) = Some table →
  table !! "PRODUCT_LENGTH" = Some col →
  length arr = length col →
  ∃ ds, TrainPy.TDataset_init st path train = Ok ds
        ∧ TrainPy.TDataset_len ds = length arr
        ∧ TrainPy.TDataset_len ds = length col
        ∧ ∀ (i : nat) (x : list Q) (v : Q),
            arr !! i = Some x → col !! i = Some v →
            TrainPy.TDataset_getitem ds (Z.of_nat i) = Ok (x, v).
Proof.
  intros Harr Htable Hcol Hlen.
  exists {| TrainPy.data := arr; TrainPy.values := col |}.
  split; [|split; [done|split; [done|]]].
  - unfold TrainPy.TDataset_init, TrainPy.np_load, TrainPy.read_csv_column.
    rewrite Harr. simpl. destruct train; rewrite Htable, Hcol; done.
  - intros i x v Hx Hv. unfold TrainPy.TDataset_getitem. simpl.
    by rewrite (getitem_nat _ _ _ Hx), (getitem_nat _ _ _ Hv).
Qed.

Lemma TDataset_aligned_rows_witness :
  ∃ ds, TrainPy.TDataset_init Demo.storage "val.npy" false = Ok ds
        ∧ TrainPy.TDataset_len ds = 2%nat
        ∧ TrainPy.TDataset_getitem ds 1 = Ok ([3; 4]%Q, 20%Q).
Proof.
  destruct (TDataset_aligned_rows Demo.storage "val.npy" false
              [[1; 2]; [3; 4]]%Q {[ "PRODUCT_LENGTH" := [10; 20]%Q ]}
              [10; 20]%Q)
    as (ds & Hinit & Hlen & _ & Hget).
  - reflexivity.
  - reflexivity.
  - reflexivity.
  - reflexivity.
  - exists ds. split; [exact Hinit|]. split; [exact Hlen|].
    exact (Hget 1%nat [3; 4]%Q 20%Q eq_refl eq_refl).
Defined.

(** C1, the claim as stated, fails in train.py: on two samples labelled 1
    with prediction 2, [Trainer.val] returns the sum of the two terms and
    prints one hundred times their mean; neither is the mean. *)
Lemma reported_mape_train_py_counterexample :
  ∃ t' s ms pct shown,
    TrainPy.Trainer_val Demo.col_forward Demo.trainer TrainPy.INTMAX
    = Ok (t', s, ms)
    ∧ TrainPy.console t' = [TrainPy.PrintVal TrainPy.INTMAX pct shown]
    ∧ ¬ (s == ape_sum [2; 2] [1; 1] / 2)%Q
    ∧ ¬ (pct == ape_sum [2; 2] [1; 1] / 2)%Q.
Proof.
  eexists _, _, _, _, _. split; [vm_compute; reflexivity|].
  split; [reflexivity|]. split; intros H; vm_compute in H; discriminate H.
Qed.

(** C1, amended. In end_to_end.py, for outputs shaped like the targets,
    [val] returns the sum over all validation samples of
    [|prediction - target| / (|target| + 1e-8)] divided by the size of the
    validation set.  In train.py, for column-shaped outputs, [Trainer.val]
    returns that sum undivided and prints one hundred times the sum divided
    by the size of the validation set. *)
Theorem val_reports_mape :
  (∀ (W : Type) (forward : W → list string → tensor) (w : W)
     (vl : DataLoader EndToEnd.sample),
     (0 < loader_batch_size vl)%nat → dataset vl ≠ [] →
     vec_shaped forward w (batches vl) →
     ∃ val_loss val_mape,
       EndToEnd.val forward w vl = Ok (val_loss, val_mape)
       ∧ (val_mape ==
          ape_sum (outputs forward w (batches vl)) (map snd (dataset vl))
          / inject_Z (Z.of_nat (length (dataset vl))))%Q)
  ∧ (∀ (W O : Type) (forward : W → list (list Q) → tensor)
       (t : @TrainPy.Trainer W O) (epoch : TrainPy.tag),
       let ds := TrainPy.loader_dataset (TrainPy.valloader t) in
       let bs := chunks (TrainPy.loader_bs (TrainPy.valloader t))
                   (zip (TrainPy.data ds) (TrainPy.values ds)) in
       length (TrainPy.data ds) = length (TrainPy.values ds) →
       (0 < TrainPy.loader_bs (TrainPy.valloader t))%nat →
       TrainPy.data ds ≠ [] →
       col_shaped forward (TrainPy.regressor t) bs →
       ∃ t' s ms shown_mse,
         TrainPy.Trainer_val forward t epoch = Ok (t', s, ms)
         ∧ (s == ape_sum (outputs forward (TrainPy.regressor t) bs)
                   (TrainPy.values ds))%Q
         ∧ TrainPy.console t'
           = TrainPy.console t
             ++ [TrainPy.PrintVal epoch
                   (100 * s
                    / inject_Z (Z.of_nat (length (TrainPy.data ds))))%Q
                   shown_mse]).
Proof.
  split.
  - intros W forward w vl. apply val_mape_vec.
  - intros W O forward t epoch ds bs Hal Hbs Hne Hshape.
    destruct (Trainer_val_col forward t epoch Hal Hbs Hne Hshape)
      as (t' & s & ms & shown & Hval & Hs & Hout & _).
    by exists t', s, ms, shown.
Qed.

Lemma val_reports_mape_witness :
  (∃ val_loss val_mape,
     EndToEnd.val Demo.const_forward 3%Q Demo.val_loader
     = Ok (val_loss, val_mape)
     ∧ (val_mape == ape_sum [3; 3] [1; 2] / 2)%Q)
  ∧ (∃ t' s ms,
       TrainPy.Trainer_val Demo.col_forward Demo.trainer TrainPy.INTMAX
       = Ok (t', s, ms)
       ∧ (s == ape_sum [2; 2] [1; 1])%Q).
Proof.
  split.
  - apply (proj1 val_reports_mape Q Demo.const_forward 3%Q Demo.val_loader).
    + simpl. lia.
    + discriminate.
    + repeat constructor. exists [3; 3]%Q. split; reflexivity.
  - destruct (proj2 val_reports_mape Q unit Demo.col_forward Demo.trainer
                TrainPy.INTMAX)
      as (t' & s & ms & shown & Hval & Hs & _).
    + reflexivity.
    + simpl. lia.
    + discriminate.
    + repeat constructor. exists [2; 2]%Q. split; reflexivity.
    + exists t', s, ms. split; [exact Hval|exact Hs].
Defined.

(** C7. The computed MAPE is non-negative, and it is 0 when the
    predictions equal the targets: for one batch of predictions and
    targets, for a whole validation pass of end_to_end.py, and for one of
    train.py. *)
Theorem mape_nonneg_and_zero :
  (∀ ps ys : list Q,
     length ps = length ys →
     ∃ s, batch_mape (Vec ps) ys = Ok s
          ∧ (0 <= s)%Q ∧ (ps = ys → (s == 0)%Q))
  ∧ (∀ (W : Type) (forward : W → list string → tensor) (w : W)
       (vl : DataLoader EndToEnd.sample) val_loss val_mape,
       EndToEnd.val forward w vl = Ok (val_loss, val_mape) →
       (0 <= val_mape)%Q)
  ∧ (∀ (W : Type) (forward : W → list string → tensor) (w : W)
       (vl : DataLoader EndToEnd.sample),
       (0 < loader_batch_size vl)%nat → dataset vl ≠ [] →
       Forall (λ b, forward w (map fst b) = Vec (map snd b)) (batches vl) →
       ∃ val_loss val_mape,
         EndToEnd.val forward w vl = Ok (val_loss, val_mape)
         ∧ (val_mape == 0)%Q)
  ∧ (∀ (W O : Type) (forward : W → list (list Q) → tensor)
       (t t' : @TrainPy.Trainer W O) (epoch : TrainPy.tag) s ms,
       TrainPy.Trainer_val forward t epoch = Ok (t', s, ms) → (0 <= s)%Q)
  ∧ (∀ (W O : Type) (forward : W → list (list Q) → tensor)
       (t : @TrainPy.Trainer W O) (epoch : TrainPy.tag),
       let ds := TrainPy.loader_dataset (TrainPy.valloader t) in
       let bs := chunks (TrainPy.loader_bs (TrainPy.valloader t))
                   (zip (TrainPy.data ds) (TrainPy.values ds)) in
       length (TrainPy.data ds) = length (TrainPy.values ds) →
       (0 < TrainPy.loader_bs (TrainPy.valloader t))%nat →
       TrainPy.data ds ≠ [] →
       Forall (λ b, forward (TrainPy.regressor t) (map fst b)
                    = Mat (map (λ p, [p]) (map snd b))) bs →
       ∃ t' s ms,
         TrainPy.Trainer_val forward t epoch = Ok (t', s, ms)
         ∧ (s == 0)%Q).
Proof.
  split; [|split; [|split; [|split]]].
  - intros ps ys Hlen. exists (ape_sum ps ys).
    split; [by apply batch_mape_vec|]. split; [apply ape_sum_nonneg|].
    intros ->. apply ape_sum_same.
  - intros W forward w vl val_loss val_mape. apply val_nonneg.
  - intros W forward w vl Hbs Hne Hsame.
    destruct (val_mape_vec forward w vl Hbs Hne) as (l & m & Hval & Hm).
    { eapply Forall_impl; [exact Hsame|]. intros b Hb.
      exists (map snd b). split; [done|]. by rewrite length_map. }
    exists l, m. split; [done|]. rewrite Hm.
    assert (outputs forward w (batches vl) = map snd (dataset vl)) as ->.
    { rewrite <- (batches_concat vl Hbs). rewrite <- targets_concat.
      by apply outputs_exact_vec. }
    rewrite ape_sum_same. unfold Qdiv. ring.
  - intros W O forward t t' epoch s ms. apply Trainer_val_nonneg.
  - intros W O forward t epoch ds bs Hal Hbs Hne Hsame.
    destruct (Trainer_val_col forward t epoch Hal Hbs Hne)
      as (t' & s & ms & shown & Hval & Hs & _).
    { eapply Forall_impl; [exact Hsame|]. intros b Hb.
      exists (map snd b). split; [done|]. by rewrite length_map. }
    exists t', s, ms. split; [done|]. rewrite Hs. fold ds. fold bs.
    assert (outputs forward (TrainPy.regressor t) bs = TrainPy.values ds)
      as ->.
    { transitivity (targets bs).
      - by apply outputs_exact_col.
      - rewrite targets_concat. subst bs. rewrite chunks_concat by done.
        change (map snd ?l) with (snd <$> l). apply snd_zip. lia. }
    apply ape_sum_same.
Qed.

Lemma mape_nonneg_and_zero_witness :
  (∃ s, batch_mape (Vec [1; 2]%Q) [1; 2]%Q = Ok s ∧ (s == 0)%Q)
  ∧ (∃ val_loss val_mape,
       EndToEnd.val Demo.const_forward 3%Q Demo.val_loader
       = Ok (val_loss, val_mape)
       ∧ (0 <= val_mape)%Q).
Proof.
  split.
  - destruct (proj1 mape_nonneg_and_zero [1; 2]%Q [1; 2]%Q eq_refl)
      as (s & Hs & _ & Hzero).
    exists s. split; [exact Hs|exact (Hzero eq_refl)].
  - eexists _, _. split; [vm_compute; reflexivity|].
    eapply (proj1 (proj2 mape_nonneg_and_zero) Q Demo.const_forward 3%Q
              Demo.val_loader).
    vm_compute. reflexivity.
Defined.

(** With a column-shaped output the subtraction in end_to_end.py's [val]
    broadcasts against the targets, and the batch term picks up the cross
    terms: it is positive even when the column holds the targets. *)
Example column_output_cross_terms :
  ∃ s, batch_mape (Mat [[1]; [2]]%Q) [1; 2]%Q = Ok s ∧ (0 < s)%Q.
Proof. eexists. split; [vm_compute; reflexivity|]. reflexivity. Qed.

(** C4. Resuming from a checkpoint saved at epoch [e] restores the model
    weights, the optimizer state, the step counter and the best metric it
    recorded, and the epoch loop continues from [e + 1]. *)
Theorem resume_restores_state {W O : Type}
    (forward : W → list string → tensor)
    (optim_step : W → O → list string → list Q → W * O)
    (remove_fault : string → option exn)
    (model0 : W) (optim0 : O) (train_set val_set : list EndToEnd.sample)
    (a : EndToEnd.Args) (d : gmap string (@EndToEnd.file W O))
    (c : @EndToEnd.checkpoint W O) :
  EndToEnd.resume a ≠ "" →
  d !! EndToEnd.resume a = Some (EndToEnd.CheckpointFile c) →
  0 < EndToEnd.batch_size a →
  ∃ r tl vl,
    EndToEnd.main_init model0 optim0 train_set val_set a d = Ok (r, tl, vl)
    ∧ EndToEnd.model r = EndToEnd.ck_state_dict c
    ∧ EndToEnd.optimizer r = EndToEnd.ck_optimizer c
    ∧ EndToEnd.iter (EndToEnd.args r) = EndToEnd.ck_iter c
    ∧ EndToEnd.best_val_mape (EndToEnd.args r) = EndToEnd.ck_best_val_mape c
    ∧ EndToEnd.start_epoch (EndToEnd.args r) = EndToEnd.ck_epoch c + 1
    ∧ EndToEnd.main forward optim_step remove_fault model0 optim0
        train_set val_set a d
      = foldlM (EndToEnd.train_epoch forward optim_step remove_fault tl vl) r
          (range (EndToEnd.ck_epoch c + 1) (EndToEnd.epochs a)).
Proof.
  intros Hres Hfile Hbs.
  unfold EndToEnd.main, EndToEnd.main_init, mkDataLoader.
  rewrite !decide_False by lia. simpl.
  rewrite bool_decide_true by done.
  unfold EndToEnd.torch_load. rewrite Hfile. simpl.
  eexists _, _, _. repeat split.
Qed.

Lemma resume_restores_state_witness :
  ∃ r tl vl,
    EndToEnd.main_init 0%Q tt [("a", 1%Q)] [("b", 2%Q)] Demo.resume_args
      Demo.resume_disk = Ok (r, tl, vl)
    ∧ EndToEnd.model r = (5 # 4)%Q
    ∧ EndToEnd.iter (EndToEnd.args r) = 8
    ∧ EndToEnd.best_val_mape (EndToEnd.args r) = EndToEnd.Fin (1 # 4)
    ∧ EndToEnd.start_epoch (EndToEnd.args r) = 4.
Proof.
  destruct (resume_restores_state Demo.const_forward Demo.halfway_step
              Demo.no_fault 0%Q tt [("a", 1%Q)] [("b", 2%Q)]
              Demo.resume_args Demo.resume_disk Demo.saved)
    as (r & tl & vl & Hinit & Hm & _ & Hi & Hb & He & _).
  - discriminate.
  - reflexivity.
  - reflexivity.
  - exists r, tl, vl. split; [exact Hinit|]. split; [exact Hm|].
    split; [exact Hi|]. split; [exact Hb|exact He].
Defined.




(** ** Lookups after one call of [save_checkpoint] *)

Section SaveCheckpointLookups.
Import EndToEnd.
Context {W O : Type}.
Variable rf : string → option exn.
Variable args : Args.
Implicit Types d : gmap string (@file W O).

(** The best-file deletion removes at most one file, a match of the
    pattern, and only when [os.remove] does not fault on it. *)
Lemma lookup_after_best_removal (past_best : list string) d (p : string) :
  past_best ≡ₚ past_best_files args d →
  after_best_removal rf past_best d !! p = d !! p
  ∨ (after_best_removal rf past_best d !! p = None ∧ rf p = None
     ∧ p ∈ past_best_files args d).
Proof.
  intros Hperm. unfold after_best_removal.
  destruct (decide (5 <= length past_best)%nat); [|by left].
  destruct past_best as [|q rest]; [by left|].
  rewrite lookup_after_remove.
  destruct (decide (q = p ∧ rf q = None)) as [[<- Hrf]|]; [|by left].
  right. split; [done|]. split; [done|]. rewrite <- Hperm. left.
Qed.

Lemma past_best_is_not_epoch_path d (e : Z) :
  epoch_path args e ∉ past_best_files args d.
Proof.
  unfold past_best_files. rewrite elem_of_glob_star.
  intros [_ Hm]. by rewrite glob_match_epoch_path in Hm.
Qed.
End SaveCheckpointLookups.



(** ** One epoch of end_to_end.py *)

Lemma same_setup_refl (a : EndToEnd.Args) : same_setup a a.
Proof. by repeat split. Qed.

Lemma same_setup_trans (a b c : EndToEnd.Args) :
  same_setup a b → same_setup b c → same_setup a c.
Proof.
  unfold same_setup. intros (? & ? & ? & ? & ?) (? & ? & ? & ? & ?).
  repeat split; congruence.
Qed.

Lemma epochs_begun_app (l1 l2 : list EndToEnd.event) :
  epochs_begun (l1 ++ l2) = epochs_begun l1 ++ epochs_begun l2.
Proof. apply omap_app. Qed.

Lemma range_snoc (a : Z) (n : nat) :
  range a (a + Z.of_nat (S n)) = range a (a + Z.of_nat n) ++ [a + Z.of_nat n].
Proof.
  unfold range.
  replace (Z.to_nat (a + Z.of_nat (S n) - a)) with (S n) by lia.
  replace (Z.to_nat (a + Z.of_nat n - a)) with n by lia.
  rewrite seq_S, map_app. done.
Qed.

Lemma range_as_count (a b : Z) :
  range a b = range a (a + Z.of_nat (Z.to_nat (b - a))).
Proof. unfold range. do 2 f_equal. lia. Qed.

Section EndToEndEpoch.
Import EndToEnd.
Context {W O : Type}.
Variable forward : W → list string → tensor.
Variable optim_step : W → O → list string → list Q → W * O.
Variable rf : string → option exn.

Lemma train_one_epoch_inv (r r1 : @run W O) (tl : DataLoader sample)
    (l : option Q) :
  train_one_epoch forward optim_step r tl = Ok (r1, l) →
  same_setup (args r) (args r1)
  ∧ best_val_mape (args r1) = best_val_mape (args r)
  ∧ fs r1 = fs r
  ∧ epochs_begun (console r1) = epochs_begun (console r)
  ∧ iter (args r1)
    = iter (args r) + Z.of_nat (length (concat (batches tl))).
Proof.
  unfold train_one_epoch. intros H.
  destruct (foldlM _ _ _) as [[[r2 losses] i]|] eqn:Hloop; [|done].
  simpl in H. injection H as -> _.
  apply (foldlM_invariant (train_batch forward optim_step)
           (λ done st,
              same_setup (args r) (args st.1.1)
              ∧ best_val_mape (args st.1.1) = best_val_mape (args r)
              ∧ fs st.1.1 = fs r
              ∧ epochs_begun (console st.1.1) = epochs_begun (console r)
              ∧ iter (args st.1.1)
                = iter (args r) + Z.of_nat (length (concat done)))
           _ _ _ ) in Hloop; [exact Hloop| |].
  - simpl. split; [apply same_setup_refl|]. repeat split. lia.
  - intros done b [[ra la] ia] st' (Hset & Hbest & Hfs & Hout & Hiter) Hstep.
    unfold train_batch in Hstep. simpl in *.
    destruct (mse_loss _ _) as [loss|]; [|done]. simpl in Hstep.
    destruct (optim_step _ _ _ _) as [w o].
    destruct (mod_ _ _) as [m|]; [|done]. simpl in Hstep.
    injection Hstep as <-. simpl.
    split; [exact Hset|]. split; [exact Hbest|]. split; [exact Hfs|]. split.
    + destruct (decide (m = 0)); [|done].
      rewrite epochs_begun_app, Hout. simpl. by rewrite app_nil_r.
    + rewrite Hiter, concat_app, length_app, length_map. simpl.
      rewrite app_nil_r. lia.
Qed.

(** What one pass of the epoch loop does to the run state. *)
Lemma train_epoch_inv (tl vl : DataLoader sample) (r r' : @run W O)
    (epoch : Z) :
  train_epoch forward optim_step rf tl vl r epoch = Ok r' →
  same_setup (args r) (args r')
  ∧ epochs_begun (console r') = epochs_begun (console r) ++ [epoch]
  ∧ iter (args r')
    = iter (args r) + Z.of_nat (length (concat (batches tl)))
  ∧ save_every (args r) ≠ 0
  ∧ ∃ m,
      epoch_val_mape forward optim_step (with_banner r epoch) tl vl = Ok m
      ∧ best_val_mape (args r')
        = (if lt_metric m (best_val_mape (args r)) then Fin m
           else best_val_mape (args r))
      ∧ (if decide (epoch `mod` save_every (args r) = 0) then
           save_checkpoint rf (state_of r' epoch)
             (lt_metric m (best_val_mape (args r))) (args r') (fs r)
           = Ok (fs r')
         else fs r' = fs r).
Proof.
  unfold train_epoch, epoch_val_mape. fold (with_banner r epoch). intros H.
  destruct (train_one_epoch _ _ _ _) as [[r1 tloss]|] eqn:Hone; [|done].
  apply train_one_epoch_inv in Hone
    as (Hset & Hbest & Hfs & Hout & Hiter).
  simpl in *.
  destruct (val _ _ _) as [[vloss m]|]; [|done]. simpl in *.
  rewrite Hbest in H. rewrite epochs_begun_app in Hout. simpl in Hout.
  destruct Hset as (He & Hs & Hl & Hd & Hst).
  destruct (lt_metric m (best_val_mape (args r))) eqn:Hlt; simpl in H;
    rewrite Hs in H; unfold mod_ in H;
    (destruct (decide (save_every (args r) = 0)) as [|Hnz]; [done|]);
    simpl in H;
    (destruct (decide (epoch `mod` save_every (args r) = 0)) as [Hmod|Hmod];
     [destruct (save_checkpoint _ _ _ _ _) as [d'|] eqn:Hsave; [|done]|]);
    simpl in H; injection H as <-; simpl;
    (split; [unfold same_setup; simpl; auto|]);
    (split; [rewrite !epochs_begun_app, Hout; simpl; rewrite ?app_nil_r;
             reflexivity|]);
    (split; [done|]); (split; [done|]);
    exists m; (split; [done|]); (split; [by rewrite ?Hlt|]);
    try done; rewrite Hlt, <- Hfs; exact Hsave.
Qed.
End EndToEndEpoch.

(** ** What a completed [save_checkpoint] did *)

Section SaveCheckpointInversion.
Import EndToEnd.
Context {W O : Type}.
Variable rf : string → option exn.
Variable args : Args.
Implicit Types d : gmap string (@file W O).

Lemma try_remove_OSError_inv (p : string) d d' :
  try_except_OSError (os_remove rf p d) d = Ok d' → d' = after_remove rf p d.
Proof.
  unfold os_remove, after_remove. destruct (rf p) as [ex|]; simpl.
  - destruct (is_OSError ex); [|done]. by intros [= <-].
  - destruct (d !! p); simpl; by intros [= <-].
Qed.

Lemma sorted_by_key_perm (key : string → result Z) (l l' : list string) :
  sorted_by_key key l = Ok l' → l' ≡ₚ l.
Proof.
  unfold sorted_by_key.
  destruct (mapM _ l) as [keyed|] eqn:Hkeyed; [|done]. simpl.
  intros [= <-]. destruct (keyed_spec key l keyed Hkeyed) as [Hsnd _].
  by rewrite sort_by_key_perm, Hsnd.
Qed.

Lemma save_checkpoint_inv (state : checkpoint) (is_best : bool) d d' :
  let e := ck_epoch state in
  let d2 := after_remove rf (epoch_path args (e - save_every args))
              (torch_save state (epoch_path args e) d) in
  save_checkpoint rf state is_best args d = Ok d' →
  ∃ past_best,
    past_best ≡ₚ past_best_files args d2
    ∧ d' = (if is_best then
              torch_save state (best_path args e)
                (after_best_removal rf past_best d2)
            else d2).
Proof.
  intros e d2. unfold save_checkpoint. fold e.
  destruct (try_except_OSError _ _) as [dd|] eqn:Hrm; [|done].
  apply try_remove_OSError_inv in Hrm. fold d2 in Hrm. subst dd. simpl.
  destruct is_best.
  - destruct (sorted_by_key _ _) as [past_best|] eqn:Hsort; [|done]. simpl.
    apply sorted_by_key_perm in Hsort.
    exists past_best. split; [done|].
    unfold after_best_removal.
    destruct (decide (5 <= length past_best)%nat).
    + rewrite try_remove_all in H. simpl in H. by injection H as <-.
    + simpl in H. by injection H as <-.
  - intros [= <-]. by exists (past_best_files args d2).
Qed.

(** The periodic files after a completed save: the new one is there, the
    one a save interval earlier is gone if [os.remove] did not fault, and
    the others are untouched. *)
Lemma lookup_epoch_after_save (state : checkpoint) (is_best : bool) d d'
    (e' : Z) :
  let e := ck_epoch state in
  save_checkpoint rf state is_best args d = Ok d' →
  d' !! epoch_path args e'
  = if decide (e' = e - save_every args
               ∧ rf (epoch_path args (e - save_every args)) = None)
    then None
    else if decide (e' = e) then Some (CheckpointFile state)
         else d !! epoch_path args e'.
Proof.
  intros e Hsave. subst e.
  destruct (save_checkpoint_inv state is_best d d' Hsave)
    as (past_best & Hperm & ->).
  set (e := ck_epoch state) in *.
  set (d2 := after_remove rf _ _) in *.
  assert (d2 !! epoch_path args e'
          = if decide (e' = e - save_every args
                       ∧ rf (epoch_path args (e - save_every args)) = None)
            then None
            else if decide (e' = e) then Some (CheckpointFile state)
                 else d !! epoch_path args e') as Hd2.
  { unfold d2. rewrite lookup_after_remove.
    destruct (decide (epoch_path args (e - save_every args)
                      = epoch_path args e'
                      ∧ rf (epoch_path args (e - save_every args)) = None))
      as [[Heq Hrf]|Hne].
    - apply epoch_path_inj in Heq.
      by rewrite decide_True by (split; [symmetry; exact Heq|done]).
    - rewrite decide_False by (intros [-> ?]; by apply Hne).
      unfold torch_save. destruct (decide (e' = e)) as [->|Hne'].
      + by rewrite lookup_insert_eq.
      + rewrite lookup_insert_ne; [done|].
        intros Heq. by apply epoch_path_inj in Heq. }
  destruct is_best; [|done].
  unfold torch_save. rewrite lookup_insert_ne
    by (intros H; symmetry in H; by apply epoch_path_ne_best_path in H).
  destruct (lookup_after_best_removal rf args past_best d2
              (epoch_path args e') Hperm) as [->|(_ & _ & Hin)]; [done|].
  by apply past_best_is_not_epoch_path in Hin.
Qed.

Lemma epoch_path_same_dir (args' : Args) (e : Z) :
  save_dir args' = save_dir args → epoch_path args' e = epoch_path args e.
Proof. unfold epoch_path. by intros ->. Qed.

End SaveCheckpointInversion.

(** ** Whole runs of end_to_end.py *)

Section EndToEndRun.
Import EndToEnd.
Context {W O : Type}.
Variable forward : W → list string → tensor.
Variable optim_step : W → O → list string → list Q → W * O.
Variable rf : string → option exn.
Variables tl vl : DataLoader sample.

Lemma train_epochs_snoc (r r' : @run W O) (a : Z) (n : nat) :
  foldlM (train_epoch forward optim_step rf tl vl) r
    (range a (a + Z.of_nat (S n))) = Ok r' →
  ∃ rmid,
    foldlM (train_epoch forward optim_step rf tl vl) r
      (range a (a + Z.of_nat n)) = Ok rmid
    ∧ train_epoch forward optim_step rf tl vl rmid (a + Z.of_nat n) = Ok r'.
Proof.
  rewrite range_snoc, foldlM_app.
  destruct (foldlM _ r _) as [rmid|]; [|done]. simpl.
  destruct (train_epoch _ _ _ _ _ rmid _) as [r''|] eqn:Hstep; [|done].
  intros [= <-]. by exists rmid.
Qed.

Lemma train_epochs_inv (a : Z) (n : nat) (r r' : @run W O) :
  foldlM (train_epoch forward optim_step rf tl vl) r
    (range a (a + Z.of_nat n)) = Ok r' →
  same_setup (args r) (args r')
  ∧ epochs_begun (console r')
    = epochs_begun (console r) ++ range a (a + Z.of_nat n)
  ∧ iter (args r')
    = iter (args r)
      + Z.of_nat n * Z.of_nat (length (concat (batches tl))).
Proof.
  revert r'. induction n as [|n IH]; intros r'.
  - replace (range a (a + Z.of_nat 0)) with (@nil Z)
      by (unfold range; by replace (Z.to_nat (a + Z.of_nat 0 - a)) with 0%nat
            by lia).
    intros [= <-]. split; [apply same_setup_refl|].
    split; [by rewrite app_nil_r|lia].
  - intros Hrun. apply train_epochs_snoc in Hrun as (rmid & Hmid & Hstep).
    destruct (IH rmid Hmid) as (Hset & Hout & Hiter).
    apply train_epoch_inv in Hstep as (Hset' & Hout' & Hiter' & _).
    split; [by eapply same_setup_trans|]. split.
    + by rewrite Hout', Hout, range_snoc, app_assoc.
    + rewrite Hiter', Hiter. lia.
Qed.

End EndToEndRun.



(** ** Rotation of the best files *)







Section BestRotation.
Import EndToEnd.
Context {W O : Type}.
Variable rf : string → option exn.
Variable args : Args.
Implicit Types d : gmap string (@file W O).






End BestRotation.

Section BestRotationRun.
Import EndToEnd.
Context {W O : Type}.
Variable rf : string → option exn.
Variable args : Args.

End BestRotationRun.



(** ** One epoch of train.py *)

Section TrainPyEpoch.
Import TrainPy.
Context {W O : Type}.
Variable forward : W → list (list Q) → tensor.
Variable optim_step : W → O → list (list Q) → list Q → W * O.
Variable shuffle : Z → list Z → list Z.

Lemma same_records_refl (t : @Trainer W O) : same_records t t.
Proof. by repeat split. Qed.

Lemma Trainer_train_epoch_inv (t t1 : @Trainer W O) (epoch : Z)
    (l : option Q) :
  Trainer_train_epoch forward optim_step shuffle t epoch = Ok (t1, l) →
  same_records t t1.
Proof.
  unfold Trainer_train_epoch. intros H.
  destruct (loader_batches _ _) as [bs|]; [|done]. simpl in H.
  destruct (foldlM _ _ _) as [[[t2 el] li]|] eqn:Hloop; [|done].
  simpl in H. destruct li as [i|]; [|done]. simpl in H.
  injection H as -> _.
  apply (foldlM_invariant (train_batch forward optim_step epoch)
           (λ _ st, same_records t st.1.1) _ _ _) in Hloop; [exact Hloop| |].
  - apply same_records_refl.
  - intros _ b [[ta ea] ia] st' Hrec Hstep. unfold train_batch in Hstep.
    destruct (mse_loss _ _) as [ls|]; [|done]. simpl in Hstep.
    destruct (optim_step _ _ _ _) as [w o].
    destruct (mod_ _ _) as [m|]; [|done]. simpl in Hstep.
    injection Hstep as <-. exact Hrec.
Qed.

Lemma Trainer_val_inv (t t' : @Trainer W O) (epoch : tag) (s : Q)
    (ms : option Q) :
  Trainer_val forward t epoch = Ok (t', s, ms) →
  same_records t t' ∧ regressor t' = regressor t.
Proof.
  unfold Trainer_val. intros H.
  destruct (loader_batches _ _) as [bs|]; [|done]. simpl in H.
  destruct (foldlM _ _ _) as [[acc ms']|]; [|done]. simpl in H.
  destruct acc as [z|q]; [done|]. simpl in H. injection H as <- _ _.
  by repeat split.
Qed.

(** What one pass of the epoch loop of [Trainer.train] does. *)
Lemma train_body_inv (t t' : @Trainer W O) (epoch : Z) :
  train_body forward optim_step shuffle t epoch = Ok t' →
  args t' = args t
  ∧ (∃ l, loss t' = loss t ++ [l])
  ∧ val_interval (args t) ≠ 0
  ∧ (epoch `mod` val_interval (args t) = 0 →
     ∃ ms,
       epoch_val_mse forward optim_step shuffle t epoch = Ok ms
       ∧ (flt ms (best_mse t) = true →
          ∃ dict,
            fs t' !! save_path (args t) "best" = Some dict
            ∧ sd_epoch dict = epoch
            ∧ sd_model dict = regressor t'
            ∧ Some (best_mse t') = ms)).
Proof.
  unfold train_body, epoch_val_mse. intros H.
  destruct (Trainer_train_epoch _ _ _ _ _) as [[t1 l]|] eqn:Hone; [|done].
  apply Trainer_train_epoch_inv in Hone
    as (Ha & _ & _ & Hl & _ & _ & Hb & _).
  simpl in H. simpl. rewrite Ha in H. unfold mod_ in H.
  destruct (decide (val_interval (args t) = 0)) as [|Hnz]; [done|].
  simpl in H.
  destruct (decide (epoch `mod` val_interval (args t) = 0)) as [Hmod|Hmod].
  - destruct (Trainer_val _ _ _) as [[[t2 mp] ms]|] eqn:Hval; [|done].
    apply Trainer_val_inv in Hval
      as ((Ha2 & _ & _ & Hl2 & _ & _ & Hb2 & _) & Hreg).
    simpl in *. rewrite Hb2, Hb in H.
    destruct (flt ms (best_mse t)) eqn:Hflt; simpl in H;
      injection H as <-; simpl.
    + split; [congruence|]. split; [exists l; congruence|].
      split; [done|]. intros _. exists ms. split; [done|]. intros _.
      eexists. rewrite Ha2, Ha, lookup_insert_eq. split; [done|].
      simpl. split; [done|]. split; [done|].
      unfold flt in Hflt. by destruct ms.
    + split; [congruence|]. split; [exists l; congruence|].
      split; [done|]. intros _. exists ms. split; [done|]. congruence.
  - injection H as <-. simpl. split; [done|].
    split; [exists l; congruence|]. split; [done|]. done.
Qed.
End TrainPyEpoch.

Lemma range_last (a b : Z) :
  last (range a b) = if decide (a < b) then Some (b - 1) else None.
Proof.
  destruct (decide (a < b)) as [Hlt|Hge].
  - rewrite range_as_count.
    replace (Z.to_nat (b - a)) with (S (Z.to_nat (b - a - 1))) by lia.
    rewrite range_snoc, last_snoc. f_equal. lia.
  - unfold range. by replace (Z.to_nat (b - a)) with 0%nat by lia.
Qed.




(** ** Whole runs of train.py *)

Section TrainPyRun.
Import TrainPy.
Context {W O : Type}.
Variable forward : W → list (list Q) → tensor.
Variable optim_step : W → O → list (list Q) → list Q → W * O.
Variable shuffle : Z → list Z → list Z.

Lemma train_loop_inv (t0 t' : @Trainer W O) (l : list Z) :
  foldlM (train_body forward optim_step shuffle) t0 l = Ok t' →
  args t' = args t0
  ∧ length (loss t') = (length (loss t0) + length l)%nat.
Proof.
  intros Hloop.
  apply (foldlM_invariant (train_body forward optim_step shuffle)
           (λ done tc, args tc = args t0
                       ∧ length (loss tc)
                         = (length (loss t0) + length done)%nat)
           _ _ _) in Hloop; [exact Hloop| |].
  - split; [done|simpl; lia].
  - intros done epoch tc tc' [Ha Hl] Hstep.
    apply train_body_inv in Hstep as (Ha' & [x Hx] & _).
    split; [congruence|]. rewrite Hx, !length_app, Hl. simpl. lia.
Qed.
End TrainPyRun.

(** ** Runs of end_to_end.py that cannot raise *)

Section EndToEndDefined.
Import EndToEnd.
Context {W O : Type}.
Variable forward : W → list string → tensor.
Variable optim_step : W → O → list string → list Q → W * O.
Variable rf : string → option exn.
Hypothesis Hshape : well_shaped forward.

Lemma train_batches_defined (bs : list (list sample))
    (st : @run W O * list (option Q) * Z) :
  log_every (args st.1.1) ≠ 0 →
  ∃ st', foldlM (train_batch forward optim_step) st bs = Ok st'.
Proof.
  revert st. induction bs as [|b bs IH]; intros [[r losses] i] Hlog.
  - by eexists.
  - simpl in Hlog. cbn [foldlM]. unfold train_batch at 1.
    destruct (Hshape (model r) (map fst b)) as (ps & -> & Hlen).
    destruct (mse_loss_vec_defined ps (map snd b)) as [l ->];
      [by rewrite Hlen, !length_map|].
    cbn [mbind result_bind]. destruct (optim_step _ _ _ _) as [w o].
    unfold mod_. cbn [log_every set_iter].
    rewrite decide_False by done. cbn [mbind result_bind mret result_ret].
    apply IH. by destruct (decide _).
Qed.

Lemma train_one_epoch_defined (r : @run W O) (tl : DataLoader sample) :
  log_every (args r) ≠ 0 →
  ∃ r1 l, train_one_epoch forward optim_step r tl = Ok (r1, l).
Proof.
  intros Hlog. unfold train_one_epoch.
  destruct (train_batches_defined (batches tl) (r, [], 0) Hlog)
    as [[[r1 losses] i] ->].
  by eexists _, _.
Qed.

Lemma val_defined (w : W) (vl : DataLoader sample) :
  (0 < loader_batch_size vl)%nat → dataset vl ≠ [] →
  ∃ l m, val forward w vl = Ok (l, m).
Proof.
  intros Hbs Hne. destruct (val_mape_vec forward w vl Hbs Hne)
    as (l & m & Hval & _); [|by exists l, m].
  apply Forall_forall. intros b _.
  destruct (Hshape w (map fst b)) as (ps & Hps & Hlen).
  exists ps. split; [done|]. by rewrite Hlen, length_map.
Qed.




End EndToEndDefined.



(** * Further properties of the two scripts *)

(** ** Empty datasets and empty epoch ranges *)

(** X1 (end_to_end.py, [val]).  On an empty validation set the loop body
    never runs, [mape] is still the Python int [0], and [mape.item()]
    raises [AttributeError], before the division by the dataset's length
    is reached; the model and the batch size play no part. *)
Theorem val_empty_dataset_raises {W : Type}
    (forward : W → list string → tensor) (w : W)
    (vl : DataLoader EndToEnd.sample) :
  dataset vl = [] → EndToEnd.val forward w vl = Raise AttributeError.
Proof.
  intros Hempty. unfold EndToEnd.val, batches, chunks.
  rewrite Hempty. reflexivity.
Qed.

Lemma val_empty_dataset_raises_witness :
  EndToEnd.val Demo.const_forward 3%Q
    {| dataset := []; loader_batch_size := 32 |} = Raise AttributeError.
Proof. apply val_empty_dataset_raises. reflexivity. Defined.

(** X2 (train.py, [Trainer.val]).  On an empty validation set both sums
    are still the int [0] when the report divides them by
    [len(self.valloader.dataset)], which is zero: [ZeroDivisionError]. *)
Theorem Trainer_val_empty_dataset_raises {W O : Type}
    (forward : W → list (list Q) → tensor) (t : @TrainPy.Trainer W O)
    (epoch : TrainPy.tag) :
  TrainPy.data (TrainPy.loader_dataset (TrainPy.valloader t)) = [] →
  TrainPy.Trainer_val forward t epoch = Raise ZeroDivisionError.
Proof.
  intros Hempty.
  unfold TrainPy.Trainer_val, TrainPy.loader_batches, TrainPy.TDataset_len.
  rewrite Hempty. reflexivity.
Qed.

Lemma Trainer_val_empty_dataset_raises_witness :
  TrainPy.Trainer_val Demo.col_forward
    {| TrainPy.args := Demo.train_args; TrainPy.regressor := 2%Q;
       TrainPy.optimizer := tt;
       TrainPy.trainloader := Demo.pair_loader;
       TrainPy.valloader :=
         {| TrainPy.loader_dataset :=
              {| TrainPy.data := []; TrainPy.values := [1%Q] |};
            TrainPy.loader_bs := 2 |};
       TrainPy.loss := []; TrainPy.mape := []; TrainPy.mse := [];
       TrainPy.best_mse := 0%Q; TrainPy.last_metrics := None;
       TrainPy.fs := ∅; TrainPy.console := [] |}
    (TrainPy.Epoch 1) = Raise ZeroDivisionError.
Proof. apply Trainer_val_empty_dataset_raises. reflexivity. Defined.

(** X3 (end_to_end.py, [train_one_epoch]).  The other script survives an
    empty training set: no step is taken, the run state is returned as it
    was, and the epoch's loss is the mean of no numbers, NaN. *)
Theorem train_one_epoch_empty_dataset {W O : Type}
    (forward : W → list string → tensor)
    (optim_step : W → O → list string → list Q → W * O)
    (r : @EndToEnd.run W O) (tl : DataLoader EndToEnd.sample) :
  dataset tl = [] →
  EndToEnd.train_one_epoch forward optim_step r tl = Ok (r, None).
Proof.
  intros Hempty. unfold EndToEnd.train_one_epoch, batches, chunks.
  rewrite Hempty. reflexivity.
Qed.

Lemma train_one_epoch_empty_dataset_witness :
  EndToEnd.train_one_epoch Demo.const_forward Demo.halfway_step
    (Demo.run_of Demo.args) {| dataset := []; loader_batch_size := 2 |}
  = Ok (Demo.run_of Demo.args, None).
Proof. apply train_one_epoch_empty_dataset. reflexivity. Defined.

(** X4 (train.py, [Trainer.train]).  With [epochs <= 0] the epoch loop has
    no iteration and never binds [epoch]; the final validation still runs,
    and when it succeeds the call [self.save('last', epoch)] raises
    [UnboundLocalError]: nothing is saved.  Conversely a [train] that
    returns had at least one epoch. *)
Theorem Trainer_train_without_epochs {W O : Type}
    (forward : W → list (list Q) → tensor)
    (optim_step : W → O → list (list Q) → list Q → W * O)
    (shuffle : Z → list Z → list Z) (t : @TrainPy.Trainer W O) :
  (TrainPy.epochs (TrainPy.args t) <= 0 →
   ∀ t1 mp ms,
     TrainPy.Trainer_val forward
       (TrainPy.set_metrics [] [] [] TrainPy.best_mse_init t) TrainPy.INTMAX
     = Ok (t1, mp, ms) →
     TrainPy.Trainer_train forward optim_step shuffle t
     = Raise UnboundLocalError)
  ∧ (∀ t', TrainPy.Trainer_train forward optim_step shuffle t = Ok t' →
           1 <= TrainPy.epochs (TrainPy.args t)).
Proof.
  split.
  - intros Hle t1 mp ms Hval. unfold TrainPy.Trainer_train.
    cbv zeta. unfold TrainPy.epoch_range.
    cbn [TrainPy.args TrainPy.set_metrics].
    assert (range 1 (TrainPy.epochs (TrainPy.args t) + 1) = []) as ->.
    { unfold range. replace (Z.to_nat _) with 0%nat by lia. done. }
    cbn [foldlM mbind result_bind]. rewrite Hval.
    apply Trainer_val_inv in Hval as ((Ha & _) & _). simpl in Ha.
    cbn [mbind result_bind].
    rewrite Ha, range_last. rewrite decide_False by lia. done.
  - intros t' H. unfold TrainPy.Trainer_train in H.
    destruct (foldlM _ _ _) as [t1|] eqn:Hloop; [|done].
    apply train_loop_inv in Hloop as [Ha _]. simpl in Ha.
    cbn [mbind result_bind] in H.
    destruct (TrainPy.Trainer_val _ _ _) as [[[t2 mp] ms]|] eqn:Hval; [|done].
    apply Trainer_val_inv in Hval as ((Ha2 & _) & _).
    cbn [mbind result_bind] in H. unfold TrainPy.epoch_range in H.
    rewrite Ha2, Ha, range_last in H.
    destruct (decide (1 < TrainPy.epochs (TrainPy.args t) + 1)); [lia|done].
Qed.

Lemma Trainer_train_without_epochs_witness :
  TrainPy.Trainer_train Demo.col_forward Demo.col_step (λ _ l, l)
    {| TrainPy.args :=
         {| TrainPy.train_data_path := "train.npy";
            TrainPy.val_data_path := "val.npy";
            TrainPy.epochs := 0; TrainPy.lr := 1 # 100;
            TrainPy.batch_size := 2; TrainPy.features := 1;
            TrainPy.seed := 421; TrainPy.log_interval := 5;
            TrainPy.val_interval := 1; TrainPy.save := "model" |};
       TrainPy.regressor := 2%Q; TrainPy.optimizer := tt;
       TrainPy.trainloader := Demo.pair_loader;
       TrainPy.valloader := Demo.pair_loader;
       TrainPy.loss := []; TrainPy.mape := []; TrainPy.mse := [];
       TrainPy.best_mse := 0%Q; TrainPy.last_metrics := None;
       TrainPy.fs := ∅; TrainPy.console := [] |}
  = Raise UnboundLocalError.
Proof.
  match goal with
  | |- TrainPy.Trainer_train _ _ _ ?t = _ =>
      destruct (TrainPy.Trainer_val Demo.col_forward
                  (TrainPy.set_metrics [] [] [] TrainPy.best_mse_init t)
                  TrainPy.INTMAX) as [[[t1 mp] ms]|ex] eqn:Hval;
        [|vm_compute in Hval; discriminate Hval];
      apply (proj1 (Trainer_train_without_epochs Demo.col_forward
                      Demo.col_step (λ _ l, l) t) ltac:(simpl; lia)
               t1 mp ms Hval)
  end.
Defined.

(** ** What one epoch of train.py records *)

Lemma Qltb_lt (x y : Q) : EndToEnd.Qltb x y = true ↔ (x < y)%Q.
Proof.
  unfold EndToEnd.Qltb. rewrite negb_true_iff.
  destruct (Qle_bool y x) eqn:H.
  - apply Qle_bool_iff in H. split; [done|]. intros Hlt.
    exfalso. apply (Qlt_not_le _ _ Hlt H).
  - split; [|done]. intros _. apply Qnot_le_lt. intros Hle.
    apply Qle_bool_iff in Hle. congruence.
Qed.

Lemma Qltb_ge (x y : Q) : EndToEnd.Qltb x y = false ↔ (y <= x)%Q.
Proof.
  unfold EndToEnd.Qltb. rewrite negb_false_iff. apply Qle_bool_iff.
Qed.

Lemma str_app_inj_l (a x y : string) : a +:+ x = a +:+ y → x = y.
Proof.
  induction a as [|c a IH]; [by rewrite !str_app_nil_l|].
  rewrite !str_app_cons. intros H. injection H as H. by apply IH.
Qed.

Section TrainPyRecords.
Import TrainPy.
Context {W O : Type}.
Variable forward : W → list (list Q) → tensor.
Variable optim_step : W → O → list (list Q) → list Q → W * O.
Variable shuffle : Z → list Z → list Z.

Lemma save_path_best_ne_last (a : Args) :
  save_path a "best" ≠ save_path a "last".
Proof.
  unfold save_path. intros H.
  apply str_app_inj_l, str_app_inj_l in H. discriminate H.
Qed.

(** Everything one pass of the epoch loop changes in the trainer's
    records and on disk. *)
Lemma train_body_records (t t' : @Trainer W O) (epoch : Z) :
  train_body forward optim_step shuffle t epoch = Ok t' →
  args t' = args t
  ∧ trainloader t' = trainloader t ∧ valloader t' = valloader t
  ∧ if decide (epoch `mod` val_interval (args t) = 0) then
      ∃ mp ms,
        mape t' = mape t ++ [mp] ∧ mse t' = mse t ++ [ms]
        ∧ if flt ms (best_mse t) then
            ms = Some (best_mse t')
            ∧ fs t'
              = <[save_path (args t) "best" :=
                    {| sd_model := regressor t'; sd_loss := loss t';
                       sd_mape := mape t'; sd_mse := mse t';
                       sd_best_mse := best_mse t; sd_epoch := epoch |}]>
                  (fs t)
          else best_mse t' = best_mse t ∧ fs t' = fs t
    else mape t' = mape t ∧ mse t' = mse t
         ∧ best_mse t' = best_mse t ∧ fs t' = fs t.
Proof.
  unfold train_body. intros H.
  destruct (Trainer_train_epoch _ _ _ _ _) as [[t1 l]|] eqn:Hone; [|done].
  apply Trainer_train_epoch_inv in Hone
    as (Ha & Htl & Hvl & Hl & Hmp & Hms & Hb & Hfs).
  simpl in H. rewrite Ha in H. unfold mod_ in H.
  destruct (decide (val_interval (args t) = 0)) as [|Hnz]; [done|].
  simpl in H.
  destruct (decide (epoch `mod` val_interval (args t) = 0)) as [Hmod|Hmod].
  - destruct (Trainer_val _ _ _) as [[[t2 mp] ms]|] eqn:Hval; [|done].
    apply Trainer_val_inv in Hval
      as ((Ha2 & Htl2 & Hvl2 & Hl2 & Hmp2 & Hms2 & Hb2 & Hfs2) & Hreg).
    simpl in *. rewrite Hb2, Hb in H.
    destruct (flt ms (best_mse t)) eqn:Hflt; simpl in H;
      injection H as <-; simpl.
    + split; [congruence|]. split; [congruence|]. split; [congruence|].
      exists mp, ms. split; [congruence|]. split; [congruence|].
      rewrite Hflt. split.
      * unfold flt in Hflt. by destruct ms.
      * rewrite Ha2, Ha, Hfs2, Hfs. done.
    + split; [congruence|]. split; [congruence|]. split; [congruence|].
      exists mp, ms. split; [congruence|]. split; [congruence|].
      rewrite Hflt. split; congruence.
  - injection H as <-. simpl.
    split; [done|]. split; [done|]. split; [done|].
    split; [done|]. split; [done|]. split; done.
Qed.

Lemma bounds_below_snoc (b : Q) (l : list (option Q)) (ms : option Q) :
  bounds_below b l → match ms with Some v => (b <= v)%Q | None => True end →
  bounds_below b (l ++ [ms]).
Proof.
  intros Hl Hms. apply Forall_app. split; [exact Hl|].
  apply Forall_singleton. exact Hms.
Qed.

Lemma bounds_below_le (b b' : Q) (l : list (option Q)) :
  (b' <= b)%Q → bounds_below b l → bounds_below b' l.
Proof.
  intros Hle Hl. eapply Forall_impl; [exact Hl|]. intros [v|]; [|done].
  simpl. intros Hv. by apply Qle_trans with b.
Qed.

(** What the epoch loop of [Trainer.train] maintains, from the trainer
    [t0] it starts with. *)
Lemma train_loop_records (t0 t' : @Trainer W O) (l : list Z) :
  bounds_below (best_mse t0) (mse t0) →
  foldlM (train_body forward optim_step shuffle) t0 l = Ok t' →
  let validated := filter (λ e, e `mod` val_interval (args t0) = 0) l in
  let best := save_path (args t0) "best" in
  args t' = args t0
  ∧ valloader t' = valloader t0
  ∧ length (mape t') = (length (mape t0) + length validated)%nat
  ∧ length (mse t') = (length (mse t0) + length validated)%nat
  ∧ bounds_below (best_mse t') (mse t')
  ∧ (best_mse t' <= best_mse t0)%Q
  ∧ (∀ p, p ≠ best → fs t' !! p = fs t0 !! p)
  ∧ ((best_mse t' = best_mse t0 ∧ fs t' !! best = fs t0 !! best)
     ∨ (∃ dict,
          fs t' !! best = Some dict
          ∧ last (sd_mse dict) = Some (Some (best_mse t'))
          ∧ (best_mse t' < sd_best_mse dict)%Q
          ∧ (sd_best_mse dict <= best_mse t0)%Q
          ∧ sd_epoch dict ∈ validated
          ∧ Some (best_mse t') ∈ mse t')).
Proof.
  intros Hinit Hloop. cbv zeta.
  apply (foldlM_invariant (train_body forward optim_step shuffle)
    (λ done tc,
       let validated :=
         filter (λ e, e `mod` val_interval (args t0) = 0) done in
       args tc = args t0
       ∧ valloader tc = valloader t0
       ∧ length (mape tc) = (length (mape t0) + length validated)%nat
       ∧ length (mse tc) = (length (mse t0) + length validated)%nat
       ∧ bounds_below (best_mse tc) (mse tc)
       ∧ (best_mse tc <= best_mse t0)%Q
       ∧ (∀ p, p ≠ save_path (args t0) "best" → fs tc !! p = fs t0 !! p)
       ∧ ((best_mse tc = best_mse t0
           ∧ fs tc !! save_path (args t0) "best"
             = fs t0 !! save_path (args t0) "best")
          ∨ (∃ dict,
               fs tc !! save_path (args t0) "best" = Some dict
               ∧ last (sd_mse dict) = Some (Some (best_mse tc))
               ∧ (best_mse tc < sd_best_mse dict)%Q
               ∧ (sd_best_mse dict <= best_mse t0)%Q
               ∧ sd_epoch dict ∈ validated
               ∧ Some (best_mse tc) ∈ mse tc)))
    _ _ _) in Hloop; [exact Hloop| |].
  - cbv zeta. simpl. rewrite !Nat.add_0_r.
    repeat (split; [done || apply Qle_refl|]). by left.
  - intros done epoch tc tc'
      (Ha & Hvl & Hlmp & Hlms & Hbound & Hle & Hframe & Hbest) Hstep.
    apply train_body_records in Hstep as (Ha' & _ & Hvl' & Hrec).
    cbv zeta. rewrite filter_app. rewrite Ha in Hrec.
    destruct (decide (epoch `mod` val_interval (args t0) = 0)) as [Hmod|Hmod].
    + rewrite filter_cons_True, filter_nil by exact Hmod.
      destruct Hrec as (mp & ms & Hmp & Hms & Hrec).
      rewrite Hmp, Hms, !length_app, Hlmp, Hlms. simpl.
      split; [congruence|]. split; [congruence|].
      split; [lia|]. split; [lia|].
      destruct (flt ms (best_mse tc)) eqn:Hflt.
      * destruct Hrec as [-> Hfs]. simpl in Hflt.
        apply Qltb_lt in Hflt.
        split.
        { apply bounds_below_snoc; [|apply Qle_refl].
          apply bounds_below_le with (best_mse tc);
            [by apply Qlt_le_weak|done]. }
        split; [apply Qle_trans with (best_mse tc);
                [by apply Qlt_le_weak|done]|].
        split.
        { intros p Hp. rewrite Hfs, lookup_insert_ne by done.
          by apply Hframe. }
        right. eexists. rewrite Hfs, lookup_insert_eq.
        split; [done|]. simpl. rewrite Hms, last_snoc.
        split; [done|]. split; [done|]. split; [done|].
        split; [apply elem_of_app; right; by apply list_elem_of_singleton|].
        apply elem_of_app; right. by apply list_elem_of_singleton.
      * destruct Hrec as [Hb Hfs]. rewrite Hb, Hfs.
        split.
        { apply bounds_below_snoc; [done|].
          destruct ms as [v|]; [|done]. simpl in Hflt.
          by apply Qltb_ge in Hflt. }
        split; [done|]. split; [done|].
        destruct Hbest
          as [Hsame|(dict & Hd & Hlast & Hlt & Hold & Hin & Hmem)];
          [by left|].
        right. exists dict. split; [done|]. split; [done|]. split; [done|].
        split; [done|]. split; apply elem_of_app; by left.
    + rewrite filter_cons_False, filter_nil, app_nil_r by exact Hmod.
      destruct Hrec as (Hmp & Hms & Hb & Hfs).
      rewrite Hmp, Hms, Hb, Hfs.
      split; [congruence|]. split; [congruence|]. done.
Qed.
End TrainPyRecords.

Section TrainPyRunRecords.
Import TrainPy.
Context {W O : Type}.
Variable forward : W → list (list Q) → tensor.
Variable optim_step : W → O → list (list Q) → list Q → W * O.
Variable shuffle : Z → list Z → list Z.

(** The state [Trainer.train] returns, against the trainer it was called
    on. *)
Lemma Trainer_train_records (t t' : @Trainer W O) :
  Trainer_train forward optim_step shuffle t = Ok t' →
  let best := save_path (args t) "best" in
  let final :=
    {| sd_model := regressor t'; sd_loss := loss t'; sd_mape := mape t';
       sd_mse := mse t'; sd_best_mse := best_mse t';
       sd_epoch := epochs (args t) |} in
  args t' = args t
  ∧ length (mape t') = length (validated_epochs (args t))
  ∧ length (mse t') = length (validated_epochs (args t))
  ∧ bounds_below (best_mse t') (mse t')
  ∧ (best_mse t' <= best_mse_init)%Q
  ∧ (∀ p, p ≠ best → p ≠ save_path (args t) "last" →
          fs t' !! p = fs t !! p)
  ∧ fs t' !! save_path (args t) "last" = Some final
  ∧ ((best_mse t' = best_mse_init ∧ fs t' !! best = fs t !! best)
     ∨ (∃ dict,
          fs t' !! best = Some dict
          ∧ last (sd_mse dict) = Some (Some (best_mse t'))
          ∧ (best_mse t' < sd_best_mse dict)%Q
          ∧ (sd_best_mse dict <= best_mse_init)%Q
          ∧ sd_epoch dict ∈ validated_epochs (args t)
          ∧ Some (best_mse t') ∈ mse t'))
  ∧ data (loader_dataset (valloader t)) ≠ []
  ∧ ∃ mp ms, last_metrics t' = Some (mp, ms) ∧ (0 <= mp)%Q.
Proof.
  unfold Trainer_train. intros H. cbv zeta in H.
  destruct (foldlM _ _ _) as [t1|] eqn:Hloop; [|done].
  apply train_loop_records in Hloop; [|by apply Forall_nil].
  cbv zeta in Hloop. simpl in Hloop.
  destruct Hloop as (Ha & Hvl & Hlmp & Hlms & Hbound & Hle & Hframe & Hbest).
  cbn [mbind result_bind] in H.
  destruct (Trainer_val _ _ _) as [[[t2 mp] ms]|] eqn:Hval; [|done].
  assert (data (loader_dataset (valloader t)) ≠ []) as Hne.
  { intros Hempty. rewrite <- Hvl in Hempty.
    unfold Trainer_val, loader_batches, TDataset_len in Hval.
    rewrite Hempty in Hval. done. }
  pose proof (Trainer_val_nonneg _ _ _ _ _ _ Hval) as Hpos.
  apply Trainer_val_inv in Hval
    as ((Ha2 & _ & _ & Hl2 & Hmp2 & Hms2 & Hb2 & Hfs2) & Hreg).
  cbn [mbind result_bind] in H. unfold epoch_range in H.
  rewrite Ha2, Ha, range_last in H.
  destruct (decide (1 < epochs (args t) + 1)); [|done].
  injection H as <-. cbv zeta. simpl.
  rewrite Hmp2, Hms2, Hb2, Hfs2.
  replace (epochs (args t) + 1 - 1) with (epochs (args t)) by lia.
  pose proof (save_path_best_ne_last (args t)) as Hpaths.
  split; [done|]. split; [exact Hlmp|]. split; [exact Hlms|].
  split; [done|]. split; [done|].
  split.
  { intros p Hp Hp'. rewrite lookup_insert_ne by done. by apply Hframe. }
  split; [by rewrite lookup_insert_eq|].
  split; [|split; [done|by exists mp, ms]].
  rewrite lookup_insert_ne by done. exact Hbest.
Qed.
End TrainPyRunRecords.

(** ** train.py: what a completed training leaves behind *)

(** X5 (train.py, [Trainer.train] and [save]).  [save('best', epoch)] runs
    before [self.best_mse = mse], so the file best.pt written in an improving
    epoch stores under ['best_mse'] the previous best, strictly larger than
    the MSE of the model it holds; that MSE is the last entry of the file's
    ['mse'] list and the trainer's final [best_mse].  best.pt is written in
    a run exactly when some validated epoch came below the sentinel. *)
Theorem best_file_best_mse_is_stale {W O : Type}
    (forward : W → list (list Q) → tensor)
    (optim_step : W → O → list (list Q) → list Q → W * O)
    (shuffle : Z → list Z → list Z) (t t' : @TrainPy.Trainer W O) :
  TrainPy.Trainer_train forward optim_step shuffle t = Ok t' →
  let best := TrainPy.save_path (TrainPy.args t) "best" in
  ((TrainPy.best_mse t' < TrainPy.best_mse_init)%Q →
   ∃ dict,
     TrainPy.fs t' !! best = Some dict
     ∧ last (TrainPy.sd_mse dict) = Some (Some (TrainPy.best_mse t'))
     ∧ (TrainPy.best_mse t' < TrainPy.sd_best_mse dict)%Q
     ∧ TrainPy.sd_epoch dict ∈ validated_epochs (TrainPy.args t))
  ∧ (¬ (TrainPy.best_mse t' < TrainPy.best_mse_init)%Q →
     TrainPy.fs t' !! best = TrainPy.fs t !! best).
Proof.
  intros Hrun. cbv zeta.
  apply Trainer_train_records in Hrun
    as (_ & _ & _ & _ & _ & _ & _ & Hbest & _). cbv zeta in Hbest.
  destruct Hbest as [[Hb Hfs]|(dict & Hd & Hlast & Hlt & Hold & Hin & _)].
  - split; [|done]. rewrite Hb. intros Hlt.
    exfalso. by apply (Qlt_irrefl TrainPy.best_mse_init).
  - split; [intros _; by exists dict|]. intros Hnot. exfalso.
    apply Hnot. by apply Qlt_le_trans with (TrainPy.sd_best_mse dict).
Qed.

Lemma best_file_best_mse_is_stale_witness :
  ∃ t' dict,
    TrainPy.Trainer_train Demo.col_forward Demo.col_step Demo.in_order
      Demo.trainer = Ok t'
    ∧ TrainPy.fs t' !! "model/best.pt" = Some dict
    ∧ (TrainPy.best_mse t' < TrainPy.sd_best_mse dict)%Q.
Proof.
  destruct (TrainPy.Trainer_train Demo.col_forward Demo.col_step
              Demo.in_order Demo.trainer) as [t'|ex] eqn:Hrun;
    [|vm_compute in Hrun; discriminate Hrun].
  pose proof Hrun as Hc. vm_compute in Hc. injection Hc as Hc.
  assert (TrainPy.best_mse t' < TrainPy.best_mse_init)%Q as Hlt
    by (rewrite <- Hc; reflexivity).
  destruct (proj1 (best_file_best_mse_is_stale Demo.col_forward Demo.col_step
                     Demo.in_order Demo.trainer t' Hrun) Hlt)
    as (dict & Hfile & _ & Hstale & _).
  exists t', dict. split; [reflexivity|]. split; [exact Hfile|exact Hstale].
Defined.

(** X6 (train.py, [Trainer.train]).  [best_mse] after training is the
    minimum of the sentinel 100000000 and the validation MSEs recorded in
    [self.mse]: it is at most each of them (NaN entries apart), at most the
    sentinel, and it is the sentinel or one of the recorded values. *)
Theorem best_mse_is_running_minimum {W O : Type}
    (forward : W → list (list Q) → tensor)
    (optim_step : W → O → list (list Q) → list Q → W * O)
    (shuffle : Z → list Z → list Z) (t t' : @TrainPy.Trainer W O) :
  TrainPy.Trainer_train forward optim_step shuffle t = Ok t' →
  bounds_below (TrainPy.best_mse t') (TrainPy.mse t')
  ∧ (TrainPy.best_mse t' <= TrainPy.best_mse_init)%Q
  ∧ (TrainPy.best_mse t' = TrainPy.best_mse_init
     ∨ Some (TrainPy.best_mse t') ∈ TrainPy.mse t').
Proof.
  intros Hrun.
  apply Trainer_train_records in Hrun
    as (_ & _ & _ & Hbound & Hle & _ & _ & Hbest & _). cbv zeta in Hbest.
  split; [done|]. split; [done|].
  destruct Hbest as [[Hb _]|(dict & _ & _ & _ & _ & _ & Hmem)];
    [by left|by right].
Qed.

Lemma best_mse_is_running_minimum_witness :
  ∃ t',
    TrainPy.Trainer_train Demo.col_forward Demo.col_step Demo.in_order
      Demo.trainer = Ok t'
    ∧ bounds_below (TrainPy.best_mse t') (TrainPy.mse t').
Proof.
  destruct (TrainPy.Trainer_train Demo.col_forward Demo.col_step
              Demo.in_order Demo.trainer) as [t'|ex] eqn:Hrun;
    [|vm_compute in Hrun; discriminate Hrun].
  exists t'. split; [reflexivity|].
  apply (best_mse_is_running_minimum Demo.col_forward Demo.col_step
           Demo.in_order Demo.trainer t' Hrun).
Defined.

(** X7 (train.py, [Trainer.train]).  A training that returns has appended
    one MAPE and one MSE per epoch that is a multiple of [val_interval],
    has run the final validation on a non-empty validation set, and has
    kept its non-negative MAPE sum in [last_mape]. *)
Theorem validation_history_lengths {W O : Type}
    (forward : W → list (list Q) → tensor)
    (optim_step : W → O → list (list Q) → list Q → W * O)
    (shuffle : Z → list Z → list Z) (t t' : @TrainPy.Trainer W O) :
  TrainPy.Trainer_train forward optim_step shuffle t = Ok t' →
  length (TrainPy.mape t') = length (validated_epochs (TrainPy.args t))
  ∧ length (TrainPy.mse t') = length (validated_epochs (TrainPy.args t))
  ∧ TrainPy.data (TrainPy.loader_dataset (TrainPy.valloader t)) ≠ []
  ∧ ∃ mp ms, TrainPy.last_metrics t' = Some (mp, ms) ∧ (0 <= mp)%Q.
Proof.
  intros Hrun.
  apply Trainer_train_records in Hrun
    as (_ & Hmp & Hms & _ & _ & _ & _ & _ & Hne & Hlast).
  done.
Qed.

Lemma validation_history_lengths_witness :
  ∃ t',
    TrainPy.Trainer_train Demo.col_forward Demo.col_step Demo.in_order
      Demo.trainer = Ok t'
    ∧ length (TrainPy.mape t') = 2%nat
    ∧ length (TrainPy.mse t') = 2%nat.
Proof.
  destruct (TrainPy.Trainer_train Demo.col_forward Demo.col_step
              Demo.in_order Demo.trainer) as [t'|ex] eqn:Hrun;
    [|vm_compute in Hrun; discriminate Hrun].
  destruct (validation_history_lengths Demo.col_forward Demo.col_step
              Demo.in_order Demo.trainer t' Hrun) as (Hmape & Hmse & _).
  exists t'. split; [reflexivity|]. split; [exact Hmape|exact Hmse].
Defined.

(** X8 (train.py, [Trainer.train], [save] and [load]).  Training writes
    no file but best.pt and last.pt under [args.save] and deletes none;
    last.pt holds the final regressor, histories and [best_mse], so that
    [load] of it puts the final regressor into any trainer, and changes
    nothing else of that trainer. *)
Theorem last_file_restores_final_model {W O : Type}
    (forward : W → list (list Q) → tensor)
    (optim_step : W → O → list (list Q) → list Q → W * O)
    (shuffle : Z → list Z → list Z) (t t' : @TrainPy.Trainer W O) :
  TrainPy.Trainer_train forward optim_step shuffle t = Ok t' →
  let last := TrainPy.save_path (TrainPy.args t) "last" in
  (∀ p, p ≠ TrainPy.save_path (TrainPy.args t) "best" → p ≠ last →
        TrainPy.fs t' !! p = TrainPy.fs t !! p)
  ∧ (∃ dict,
       TrainPy.fs t' !! last = Some dict
       ∧ TrainPy.sd_model dict = TrainPy.regressor t'
       ∧ TrainPy.sd_mape dict = TrainPy.mape t'
       ∧ TrainPy.sd_mse dict = TrainPy.mse t'
       ∧ TrainPy.sd_best_mse dict = TrainPy.best_mse t')
  ∧ (∀ u : @TrainPy.Trainer W O,
       TrainPy.fs u = TrainPy.fs t' →
       ∃ u',
         TrainPy.Trainer_load u last = Ok u'
         ∧ TrainPy.regressor u' = TrainPy.regressor t'
         ∧ same_records u u'
         ∧ TrainPy.optimizer u' = TrainPy.optimizer u).
Proof.
  intros Hrun. cbv zeta.
  apply Trainer_train_records in Hrun
    as (_ & _ & _ & _ & _ & Hframe & Hlast & _). cbv zeta in Hframe, Hlast.
  split; [exact Hframe|]. split; [eexists; split; [exact Hlast|done]|].
  intros u Hu. unfold TrainPy.Trainer_load. rewrite Hu, Hlast.
  eexists. split; [done|]. simpl. split; [done|].
  split; [by repeat split|done].
Qed.

Lemma last_file_restores_final_model_witness :
  ∃ t' u',
    TrainPy.Trainer_train Demo.col_forward Demo.col_step Demo.in_order
      Demo.trainer = Ok t'
    ∧ TrainPy.Trainer_load t' "model/last.pt" = Ok u'
    ∧ TrainPy.regressor u' = TrainPy.regressor t'.
Proof.
  destruct (TrainPy.Trainer_train Demo.col_forward Demo.col_step
              Demo.in_order Demo.trainer) as [t'|ex] eqn:Hrun;
    [|vm_compute in Hrun; discriminate Hrun].
  destruct (last_file_restores_final_model Demo.col_forward Demo.col_step
              Demo.in_order Demo.trainer t' Hrun) as (_ & _ & Hload).
  destruct (Hload t' eq_refl) as (u' & Hu & Hreg & _).
  exists t', u'. split; [reflexivity|]. split; [exact Hu|exact Hreg].
Defined.

(** ** end_to_end.py: when [save_checkpoint] raises *)

Lemma mapM_Raise_inv {A B : Type} (f : A → result B) (l : list A) (e : exn) :
  mapM f l = Raise e → ∃ x, x ∈ l ∧ f x = Raise e.
Proof.
  induction l as [|x l IH]; [done|]. cbn.
  destruct (f x) as [y|e'] eqn:Hx; cbn.
  - destruct (mapM f l) as [k|e'']; cbn; [done|]. intros [= ->].
    destruct IH as (z & Hz & Hfz); [done|].
    exists z. split; [by apply list_elem_of_further|done].
  - intros [= ->]. exists x. split; [apply list_elem_of_here|done].
Qed.

Section SortKeyErrors.
Import EndToEnd.



End SortKeyErrors.



(** ** end_to_end.py: intervals of zero *)

Section EndToEndZeroIntervals.
Import EndToEnd.
Context {W O : Type}.
Variable forward : W → list string → tensor.
Variable optim_step : W → O → list string → list Q → W * O.
Variable rf : string → option exn.

Lemma train_one_epoch_zero_log_every (r : @run W O) (tl : DataLoader sample) :
  well_shaped forward → log_every (args r) = 0 → dataset tl ≠ [] →
  train_one_epoch forward optim_step r tl = Raise ZeroDivisionError.
Proof.
  intros Hshape Hzero Hne. unfold train_one_epoch, batches.
  destruct (chunks (loader_batch_size tl) (dataset tl)) as [|b bs] eqn:Hb.
  { by apply chunks_nonempty in Hb. }
  cbn [foldlM].
  assert (train_batch forward optim_step (r, [], 0) b
          = Raise ZeroDivisionError) as ->; [|reflexivity].
  unfold train_batch. cbv zeta.
  destruct (Hshape (model r) (map fst b)) as (ps & -> & Hlen).
  destruct (mse_loss_vec_defined ps (map snd b)) as [l ->].
  { by rewrite Hlen, !length_map. }
  cbn [mbind result_bind]. destruct (optim_step _ _ _ _) as [w o].
  cbn [log_every set_iter]. rewrite Hzero. reflexivity.
Qed.

Lemma train_epoch_zero_save_every (tl vl : DataLoader sample) (r : @run W O)
    (epoch : Z) :
  well_shaped forward → log_every (args r) ≠ 0 →
  (0 < loader_batch_size vl)%nat → dataset vl ≠ [] →
  save_every (args r) = 0 →
  train_epoch forward optim_step rf tl vl r epoch = Raise ZeroDivisionError.
Proof.
  intros Hshape Hlog Hbs Hne Hzero. unfold train_epoch.
  destruct (train_one_epoch_defined forward optim_step Hshape
              (with_banner r epoch) tl Hlog) as (r1 & l & Hone).
  unfold with_banner in Hone. rewrite Hone.
  apply train_one_epoch_inv in Hone as ((_ & Hs & _) & _).
  simpl in Hs. cbn [mbind result_bind].
  destruct (val_defined forward Hshape (model r1) vl Hbs Hne)
    as (vloss & m & ->).
  cbn [mbind result_bind].
  destruct (lt_metric m (best_val_mape (args r1)));
    cbn [save_every set_best_val_mape]; rewrite Hs, Hzero; reflexivity.
Qed.
End EndToEndZeroIntervals.

(** X10 (end_to_end.py, [train] and [train_one_epoch]).  The command line
    accepts [--save_every 0] and [--log_every 0], and both end the run
    with [ZeroDivisionError] from the [%] test: with [log_every = 0] at the
    first batch, with [save_every = 0] at the end of the first epoch, once
    the whole epoch has been trained and validated.  (The model answers
    with shape (B,), so that nothing else can raise before.) *)
Theorem zero_interval_stops_first_epoch {W O : Type}
    (forward : W → list string → tensor)
    (optim_step : W → O → list string → list Q → W * O)
    (remove_fault : string → option exn)
    (tl vl : DataLoader EndToEnd.sample) (r : @EndToEnd.run W O) :
  well_shaped forward →
  EndToEnd.start_epoch (EndToEnd.args r) < EndToEnd.epochs (EndToEnd.args r) →
  (EndToEnd.log_every (EndToEnd.args r) = 0 ∧ dataset tl ≠ [])
  ∨ (EndToEnd.log_every (EndToEnd.args r) ≠ 0
     ∧ EndToEnd.save_every (EndToEnd.args r) = 0
     ∧ (0 < loader_batch_size vl)%nat ∧ dataset vl ≠ []) →
  EndToEnd.train forward optim_step remove_fault r tl vl
  = Raise ZeroDivisionError.
Proof.
  intros Hshape Hrange Hzero. unfold EndToEnd.train.
  rewrite range_as_count.
  destruct (Z.to_nat _) as [|n] eqn:Hn; [lia|].
  replace (Z.of_nat (S n)) with (1 + Z.of_nat n) by lia.
  assert (∀ a k, range a (a + (1 + Z.of_nat k))
                 = a :: range (a + 1) (a + 1 + Z.of_nat k)) as Hcons.
  { intros a k. unfold range.
    replace (Z.to_nat (a + (1 + Z.of_nat k) - a)) with (S k) by lia.
    replace (Z.to_nat (a + 1 + Z.of_nat k - (a + 1))) with k by lia.
    cbn [seq map]. f_equal; [lia|].
    rewrite <- seq_shift, map_map. apply map_ext. intros i. lia. }
  rewrite Hcons. cbn [foldlM].
  destruct Hzero as [[Hlog Hne]|(Hlog & Hsave & Hbs & Hne)].
  - unfold EndToEnd.train_epoch.
    rewrite (train_one_epoch_zero_log_every forward optim_step) by done.
    reflexivity.
  - by rewrite (train_epoch_zero_save_every forward optim_step remove_fault).
Qed.

Lemma zero_interval_stops_first_epoch_witness :
  EndToEnd.train Demo.const_forward Demo.halfway_step Demo.no_fault
    (Demo.run_of
       {| EndToEnd.epochs := 10; EndToEnd.lr := 1 # 10000;
          EndToEnd.log_every := 10; EndToEnd.save_every := 0;
          EndToEnd.run_name := "v0"; EndToEnd.resume := "";
          EndToEnd.batch_size := 2; EndToEnd.save_dir := "checkpoints/v0";
          EndToEnd.best_val_mape := EndToEnd.Inf; EndToEnd.start_epoch := 0;
          EndToEnd.iter := 0 |})
    Demo.val_loader Demo.val_loader
  = Raise ZeroDivisionError.
Proof.
  apply zero_interval_stops_first_epoch.
  - intros w xs. exists (map (λ _, w) xs). split; [reflexivity|].
    apply length_map.
  - simpl. lia.
  - right. simpl. split; [lia|]. split; [reflexivity|].
    split; [lia|discriminate].
Defined.

(** ** train.py: indexing the dataset *)

Lemma getitem_Ok_iff {A : Type} (l : list A) (i : Z) :
  (∃ x, getitem l i = Ok x)
  ↔ - Z.of_nat (length l) <= i < Z.of_nat (length l).
Proof.
  unfold getitem. cbv zeta.
  destruct (decide (i < 0)); destruct (decide (0 <= _ < _)) as [Hj|Hj].
  - split; [lia|]. intros _.
    destruct (lookup_lt_is_Some_2 l (Z.to_nat (i + Z.of_nat (length l))))
      as [x ->]; [lia|eauto].
  - split; [by intros [? ?]|lia].
  - split; [lia|]. intros _.
    destruct (lookup_lt_is_Some_2 l (Z.to_nat i)) as [x ->]; [lia|eauto].
  - split; [by intros [? ?]|lia].
Qed.

Lemma getitem_Raise {A : Type} (l : list A) (i : Z) (e : exn) :
  getitem l i = Raise e → e = IndexError.
Proof.
  unfold getitem. cbv zeta. destruct (decide (0 <= _ < _)).
  - destruct (l !! _); [done|]. by intros [= <-].
  - by intros [= <-].
Qed.

Lemma getitem_negative {A : Type} (l : list A) (i : Z) :
  - Z.of_nat (length l) <= i < 0 →
  getitem l i = getitem l (i + Z.of_nat (length l)).
Proof.
  intros Hi. unfold getitem. cbv zeta.
  rewrite (decide_True (P := i < 0)) by lia.
  rewrite (decide_False (P := i + Z.of_nat (length l) < 0)) by lia.
  done.
Qed.

Lemma mapM_Ok_inv {A B : Type} (f : A → result B) (l : list A) (k : list B) :
  mapM f l = Ok k → ∀ x, x ∈ l → ∃ y, f x = Ok y.
Proof.
  revert k. induction l as [|x l IH]; intros k Hk z Hz.
  - by apply elem_of_nil in Hz.
  - cbn in Hk. destruct (f x) as [y|] eqn:Hx; [|done]. cbn in Hk.
    destruct (mapM f l) as [k'|] eqn:Hl; [|done].
    apply elem_of_cons in Hz as [->|Hz]; [eauto|by apply (IH k')].
Qed.

Section TrainPyIndexing.
Import TrainPy.

Lemma TDataset_getitem_Raise (ds : TDataset) (i : Z) (e : exn) :
  TDataset_getitem ds i = Raise e → e = IndexError.
Proof.
  unfold TDataset_getitem.
  destruct (getitem (data ds) i) as [x|e1] eqn:Hx; cbn.
  - destruct (getitem (values ds) i) as [v|e2] eqn:Hv; cbn; [done|].
    intros [= <-]. by apply getitem_Raise in Hv.
  - intros [= <-]. by apply getitem_Raise in Hx.
Qed.

Lemma TDataset_getitem_Ok_iff (ds : TDataset) (i : Z) :
  (∃ xv, TDataset_getitem ds i = Ok xv)
  ↔ (- Z.of_nat (length (data ds)) <= i < Z.of_nat (length (data ds)))
    ∧ (- Z.of_nat (length (values ds)) <= i < Z.of_nat (length (values ds))).
Proof.
  rewrite <- !getitem_Ok_iff. unfold TDataset_getitem. split.
  - intros [xv H].
    destruct (getitem (data ds) i) as [x|]; [|done]. cbn in H.
    destruct (getitem (values ds) i) as [v|]; [|done]. eauto.
  - intros [[x ->] [v ->]]. cbn. eauto.
Qed.
End TrainPyIndexing.

(** X11 (train.py, [TDataset.__getitem__] and [__len__]).  On aligned
    sources of [n] rows, [ds[i]] is defined exactly for [-n <= i < n], a
    negative index counting from the end; outside, and whatever the
    sources, the only exception is [IndexError]. *)
Theorem TDataset_getitem_bounds (ds : TrainPy.TDataset) (i : Z) :
  length (TrainPy.data ds) = length (TrainPy.values ds) →
  let n := Z.of_nat (TrainPy.TDataset_len ds) in
  ((∃ xv, TrainPy.TDataset_getitem ds i = Ok xv) ↔ - n <= i < n)
  ∧ (- n <= i < 0 →
     TrainPy.TDataset_getitem ds i = TrainPy.TDataset_getitem ds (i + n))
  ∧ (¬ (- n <= i < n) → TrainPy.TDataset_getitem ds i = Raise IndexError).
Proof.
  intros Hlen n. unfold n, TrainPy.TDataset_len. split; [|split].
  - rewrite TDataset_getitem_Ok_iff, <- Hlen. lia.
  - intros Hi. unfold TrainPy.TDataset_getitem.
    rewrite (getitem_negative (TrainPy.data ds)) by done.
    rewrite (getitem_negative (TrainPy.values ds)) by lia.
    by rewrite Hlen.
  - intros Hout.
    destruct (TrainPy.TDataset_getitem ds i) as [xv|e] eqn:Hget.
    + exfalso. apply Hout.
      assert (∃ xv, TrainPy.TDataset_getitem ds i = Ok xv) as Hex by eauto.
      apply TDataset_getitem_Ok_iff in Hex. lia.
    + by apply TDataset_getitem_Raise in Hget as ->.
Qed.

Lemma TDataset_getitem_bounds_witness :
  TrainPy.TDataset_getitem
    {| TrainPy.data := [[1; 2]; [3; 4]]%Q; TrainPy.values := [10; 20]%Q |}
    (-1)
  = TrainPy.TDataset_getitem
      {| TrainPy.data := [[1; 2]; [3; 4]]%Q; TrainPy.values := [10; 20]%Q |}
      (-1 + 2).
Proof.
  apply (TDataset_getitem_bounds
           {| TrainPy.data := [[1; 2]; [3; 4]]%Q;
              TrainPy.values := [10; 20]%Q |} (-1)).
  - reflexivity.
  - unfold TrainPy.TDataset_len. simpl length. lia.
Defined.

(** X12 (train.py, [TDataset] under a [DataLoader]).  Nothing checks that
    the array and the label column have the same length, and [__len__]
    counts the array only.  With fewer labels than rows, the item of index
    [len(values)] raises [IndexError] and so does a pass over the loader;
    with more labels than rows the pass succeeds and the surplus labels
    are never read. *)
Theorem misaligned_labels (l : TrainPy.TLoader) :
  let ds := TrainPy.loader_dataset l in
  ((length (TrainPy.values ds) < length (TrainPy.data ds))%nat →
   TrainPy.TDataset_getitem ds (Z.of_nat (length (TrainPy.values ds)))
   = Raise IndexError
   ∧ TrainPy.loader_batches id l = Raise IndexError)
  ∧ ((length (TrainPy.data ds) <= length (TrainPy.values ds))%nat →
     TrainPy.loader_batches id l
     = Ok (chunks (TrainPy.loader_bs l)
             (zip (TrainPy.data ds) (TrainPy.values ds)))).
Proof.
  intros ds. split.
  - intros Hshort.
    assert (TrainPy.TDataset_getitem ds (Z.of_nat (length (TrainPy.values ds)))
            = Raise IndexError) as Hitem.
    { destruct (TrainPy.TDataset_getitem ds _) as [xv|e] eqn:Hget.
      - assert (∃ xv, TrainPy.TDataset_getitem ds
                        (Z.of_nat (length (TrainPy.values ds))) = Ok xv)
          as Hex by eauto.
        apply TDataset_getitem_Ok_iff in Hex. lia.
      - by apply TDataset_getitem_Raise in Hget as ->. }
    split; [exact Hitem|].
    unfold TrainPy.loader_batches, id. fold ds.
    destruct (mapM _ _) as [items|e] eqn:Hitems.
    + exfalso.
      destruct (mapM_Ok_inv _ _ _ Hitems
                  (Z.of_nat (length (TrainPy.values ds)))) as [xv Hxv];
        [|congruence].
      apply list_elem_of_lookup. exists (length (TrainPy.values ds)).
      rewrite range_lookup by (unfold TrainPy.TDataset_len; lia).
      f_equal; lia.
    + apply mapM_Raise_inv in Hitems as (i & _ & Hi).
      by apply TDataset_getitem_Raise in Hi as ->.
  - intros Hlong. unfold TrainPy.loader_batches, id. fold ds.
    rewrite (mapM_Ok_lookup _ _ (zip (TrainPy.data ds) (TrainPy.values ds)));
      [done| |].
    + rewrite range_length, length_zip_with. unfold TrainPy.TDataset_len. lia.
    + intros i idx [x v] Hidx Hxv.
      apply lookup_zip_with_Some in Hxv as (x' & v' & [= <- <-] & Hx & Hv).
      pose proof (lookup_lt_Some _ _ _ Hx) as Hi.
      rewrite range_lookup in Hidx by (unfold TrainPy.TDataset_len; lia).
      injection Hidx as <-. unfold TrainPy.TDataset_getitem.
      rewrite Z.add_0_l, (getitem_nat _ _ _ Hx), (getitem_nat _ _ _ Hv). done.
Qed.

Lemma misaligned_labels_witness :
  TrainPy.loader_batches id
    {| TrainPy.loader_dataset :=
         {| TrainPy.data := [[1]; [2]; [3]]%Q;
            TrainPy.values := [10; 20]%Q |};
       TrainPy.loader_bs := 2 |}
  = Raise IndexError.
Proof.
  apply (proj1 (misaligned_labels
                  {| TrainPy.loader_dataset :=
                       {| TrainPy.data := [[1]; [2]; [3]]%Q;
                          TrainPy.values := [10; 20]%Q |};
                     TrainPy.loader_bs := 2 |})).
  simpl. lia.
Defined.

(** ** end_to_end.py: where [save_checkpoint] writes *)


Section SaveDirFrame.
Import EndToEnd.
Context {W O : Type}.
Variable rf : string → option exn.
Implicit Types d : gmap string (@file W O).




Lemma under_save_dir_same (args args' : Args) (p : string) :
  save_dir args' = save_dir args →
  under_save_dir args' p ↔ under_save_dir args p.
Proof. unfold under_save_dir. by intros ->. Qed.

End SaveDirFrame.



(** ** end_to_end.py: the best metric over a run *)

Section EndToEndRunFacts.
Import EndToEnd.
Context {W O : Type}.
Variable forward : W → list string → tensor.
Variable optim_step : W → O → list string → list Q → W * O.
Variable rf : string → option exn.
Variables tl vl : DataLoader sample.

Lemma metric_le_refl (a : metric) : metric_le a a.
Proof. destruct a; [done|apply Qle_refl]. Qed.

Lemma metric_le_trans (a b c : metric) :
  metric_le a b → metric_le b c → metric_le a c.
Proof.
  destruct a as [|x], b as [|y], c as [|z]; try done.
  simpl. apply Qle_trans.
Qed.

Lemma train_epoch_best (r r' : @run W O) (epoch : Z) :
  train_epoch forward optim_step rf tl vl r epoch = Ok r' →
  metric_le (best_val_mape (args r')) (best_val_mape (args r)).
Proof.
  intros Hstep.
  apply train_epoch_inv in Hstep as (_ & _ & _ & _ & m & _ & -> & _).
  destruct (best_val_mape (args r)) as [|b]; simpl; [done|].
  destruct (Qltb m b) eqn:Hlt; simpl.
  - apply Qltb_lt in Hlt. by apply Qlt_le_weak.
  - apply Qle_refl.
Qed.

Lemma train_epochs_best (a : Z) (n : nat) (r r' : @run W O) :
  foldlM (train_epoch forward optim_step rf tl vl) r
    (range a (a + Z.of_nat n)) = Ok r' →
  metric_le (best_val_mape (args r')) (best_val_mape (args r)).
Proof.
  revert r'. induction n as [|n IH]; intros r'.
  - replace (range a (a + Z.of_nat 0)) with (@nil Z)
      by (unfold range; by replace (Z.to_nat (a + Z.of_nat 0 - a)) with 0%nat
            by lia).
    intros [= <-]. apply metric_le_refl.
  - intros Hrun. apply train_epochs_snoc in Hrun as (rmid & Hmid & Hstep).
    eapply metric_le_trans; [by eapply train_epoch_best|by apply IH].
Qed.
End EndToEndRunFacts.

(** X14 (end_to_end.py, [train]).  [args.best_val_mape] never gets worse
    during a run: it is replaced only by a validation MAPE that is strictly
    below it, so after [train] it is at most what it was before. *)
Theorem best_val_mape_never_increases {W O : Type}
    (forward : W → list string → tensor)
    (optim_step : W → O → list string → list Q → W * O)
    (remove_fault : string → option exn)
    (tl vl : DataLoader EndToEnd.sample) (r r' : @EndToEnd.run W O) :
  EndToEnd.train forward optim_step remove_fault r tl vl = Ok r' →
  metric_le (EndToEnd.best_val_mape (EndToEnd.args r'))
    (EndToEnd.best_val_mape (EndToEnd.args r)).
Proof.
  intros Hrun. unfold EndToEnd.train in Hrun.
  rewrite range_as_count in Hrun. by eapply train_epochs_best.
Qed.

Lemma best_val_mape_never_increases_witness :
  ∃ r',
    EndToEnd.train Demo.const_forward Demo.halfway_step Demo.no_fault
      (Demo.run_of (EndToEnd.set_best_val_mape (EndToEnd.Fin 100)
                      Demo.ring_args))
      Demo.val_loader Demo.val_loader = Ok r'
    ∧ metric_le (EndToEnd.best_val_mape (EndToEnd.args r'))
        (EndToEnd.Fin 100).
Proof.
  destruct (EndToEnd.train Demo.const_forward Demo.halfway_step
              Demo.no_fault
              (Demo.run_of (EndToEnd.set_best_val_mape (EndToEnd.Fin 100)
                              Demo.ring_args))
              Demo.val_loader Demo.val_loader) as [r'|ex] eqn:Hrun;
    [|vm_compute in Hrun; discriminate Hrun].
  exists r'. split; [reflexivity|].
  apply (best_val_mape_never_increases Demo.const_forward Demo.halfway_step
           Demo.no_fault Demo.val_loader Demo.val_loader _ r' Hrun).
Defined.

(** ** end_to_end.py: the checkpoint a finished run leaves *)

Section EndToEndFinalCheckpoint.
Import EndToEnd.
Context {W O : Type}.
Variable forward : W → list string → tensor.
Variable optim_step : W → O → list string → list Q → W * O.
Variable rf : string → option exn.
Variables tl vl : DataLoader sample.

Lemma epoch_path_nonempty (a : Args) (e : Z) : epoch_path a e ≠ "".
Proof.
  rewrite epoch_path_eq. intros H.
  apply (f_equal String.length) in H.
  rewrite !str_length_app in H. simpl in H. lia.
Qed.

Lemma train_final_checkpoint (r r' : @run W O) :
  train forward optim_step rf r tl vl = Ok r' →
  start_epoch (args r) < epochs (args r) →
  (epochs (args r) - 1) `mod` save_every (args r) = 0 →
  fs r' !! epoch_path (args r) (epochs (args r) - 1)
  = Some (CheckpointFile (state_of r' (epochs (args r) - 1))).
Proof.
  intros Hrun Hlt Hmod. unfold train in Hrun.
  rewrite range_as_count in Hrun.
  destruct (Z.to_nat _) as [|n] eqn:Hn; [lia|].
  apply train_epochs_snoc in Hrun as (rmid & Hmid & Hstep).
  apply train_epochs_inv in Hmid as ((_ & Hs & _ & Hd & _) & _).
  replace (start_epoch (args r) + Z.of_nat n) with (epochs (args r) - 1)
    in Hstep by lia.
  apply train_epoch_inv in Hstep
    as ((_ & Hs' & _ & Hd' & _) & _ & _ & Hnz & m & _ & _ & Hsave).
  rewrite Hs, Hmod in Hsave. rewrite decide_True in Hsave by done.
  assert (save_dir (args r') = save_dir (args r)) as Hdir by congruence.
  rewrite <- (epoch_path_same_dir (args r) (args r') _ Hdir).
  rewrite (lookup_epoch_after_save rf (args r') _ _ _ _ _ Hsave).
  simpl. rewrite decide_False by (intros [Heq _]; lia).
  by rewrite decide_True.
Qed.
End EndToEndFinalCheckpoint.

(** X15 (end_to_end.py, [train] and [main]).  When the last epoch of a
    run is one that saves, the periodic file of that epoch holds the run's
    final weights, optimizer state, step counter and best MAPE; and [main],
    resumed with no larger [--epochs] from that file on any disk that still
    holds it, restores exactly these, starts at [epochs] and begins no
    epoch. *)
Theorem final_checkpoint_resumes_to_nothing {W O : Type}
    (forward : W → list string → tensor)
    (optim_step : W → O → list string → list Q → W * O)
    (remove_fault : string → option exn)
    (tl vl : DataLoader EndToEnd.sample) (r r' : @EndToEnd.run W O) :
  EndToEnd.train forward optim_step remove_fault r tl vl = Ok r' →
  EndToEnd.start_epoch (EndToEnd.args r) < EndToEnd.epochs (EndToEnd.args r) →
  (EndToEnd.epochs (EndToEnd.args r) - 1)
    `mod` EndToEnd.save_every (EndToEnd.args r) = 0 →
  let final :=
    EndToEnd.epoch_path (EndToEnd.args r)
      (EndToEnd.epochs (EndToEnd.args r) - 1) in
  EndToEnd.fs r' !! final
  = Some (EndToEnd.CheckpointFile
            (state_of r' (EndToEnd.epochs (EndToEnd.args r) - 1)))
  ∧ ∀ (model0 : W) (optim0 : O) (train_set val_set : list EndToEnd.sample)
      (a : EndToEnd.Args) (d : gmap string (@EndToEnd.file W O)),
      d !! final = EndToEnd.fs r' !! final →
      EndToEnd.resume a = final → 0 < EndToEnd.batch_size a →
      EndToEnd.epochs a <= EndToEnd.epochs (EndToEnd.args r) →
      ∃ r2,
        EndToEnd.main forward optim_step remove_fault model0 optim0
          train_set val_set a d = Ok r2
        ∧ EndToEnd.model r2 = EndToEnd.model r'
        ∧ EndToEnd.optimizer r2 = EndToEnd.optimizer r'
        ∧ EndToEnd.iter (EndToEnd.args r2) = EndToEnd.iter (EndToEnd.args r')
        ∧ EndToEnd.best_val_mape (EndToEnd.args r2)
          = EndToEnd.best_val_mape (EndToEnd.args r')
        ∧ EndToEnd.start_epoch (EndToEnd.args r2)
          = EndToEnd.epochs (EndToEnd.args r)
        ∧ epochs_begun (EndToEnd.console r2) = [].
Proof.
  intros Hrun Hlt Hmod final.
  pose proof (train_final_checkpoint forward optim_step remove_fault tl vl
                r r' Hrun Hlt Hmod) as Hfile.
  fold final in Hfile. split; [exact Hfile|].
  intros model0 optim0 train_set val_set a d Hd Hres Hbs Hep.
  rewrite Hfile in Hd.
  unfold EndToEnd.main, EndToEnd.main_init, mkDataLoader.
  rewrite !decide_False by lia. cbn [mbind result_bind].
  cbn [EndToEnd.resume EndToEnd.set_save_dir].
  rewrite bool_decide_true
    by (rewrite Hres; apply epoch_path_nonempty).
  unfold EndToEnd.torch_load. rewrite Hres, Hd.
  cbn [mbind result_bind mret result_ret]. unfold EndToEnd.train.
  cbn [EndToEnd.args EndToEnd.start_epoch EndToEnd.epochs EndToEnd.set_iter
       EndToEnd.set_start_epoch EndToEnd.set_best_val_mape
       EndToEnd.set_save_dir state_of EndToEnd.ck_epoch].
  assert (range (EndToEnd.epochs (EndToEnd.args r) - 1 + 1)
            (EndToEnd.epochs a) = []) as ->.
  { unfold range. by replace (Z.to_nat _) with 0%nat by lia. }
  cbn [foldlM]. eexists. split; [reflexivity|]. cbn.
  repeat split; lia.
Qed.

Lemma final_checkpoint_resumes_to_nothing_witness :
  ∃ r',
    EndToEnd.train Demo.const_forward Demo.halfway_step Demo.no_fault
      (Demo.run_of Demo.ring_args) Demo.val_loader Demo.val_loader = Ok r'
    ∧ EndToEnd.fs r' !! "checkpoints/v0/epoch_2.pth.tar"
      = Some (EndToEnd.CheckpointFile (state_of r' 2)).
Proof.
  destruct (EndToEnd.train Demo.const_forward Demo.halfway_step
              Demo.no_fault (Demo.run_of Demo.ring_args) Demo.val_loader
              Demo.val_loader) as [r'|ex] eqn:Hrun;
    [|vm_compute in Hrun; discriminate Hrun].
  exists r'. split; [reflexivity|].
  apply (final_checkpoint_resumes_to_nothing Demo.const_forward
           Demo.halfway_step Demo.no_fault Demo.val_loader Demo.val_loader
           (Demo.run_of Demo.ring_args) r' Hrun).
  - simpl. lia.
  - reflexivity.
Defined.

(** ** Column-shaped model outputs *)

Lemma bc_row_singleton (f : Q → Q → Q) (p : Q) (ys : list Q) :
  bc_row f [p] ys = Ok (map (f p) ys).
Proof.
  unfold bc_row, bc_axis. destruct (decide _) as [Hlen|Hlen].
  - destruct ys as [|y [|y' ys]]; try done.
  - by rewrite mapM_Ok.
Qed.

Lemma broadcast_col_vec (f : Q → Q → Q) (ps ys : list Q) :
  broadcast f (Mat (map (λ p, [p]) ps)) (Vec ys)
  = Ok (Mat (map (λ p, map (f p) ys) ps)).
Proof.
  unfold broadcast.
  rewrite (mapM_Ok_ext _ (λ r, map (f (hd 0%Q r)) ys)).
  - cbn. by rewrite map_map.
  - intros r Hr. apply list_elem_of_fmap in Hr as (p & -> & _).
    apply bc_row_singleton.
Qed.

Lemma ape_row (p : Q) (ys : list Q) :
  zip_with Qdiv (map Qabs (map (Qminus p) ys))
    (map (λ t, t + epsilon)%Q (map Qabs ys))
  = map (ape p) ys.
Proof. induction ys as [|y ys IH]; [done|]. cbn. by rewrite IH. Qed.

Lemma batch_mape_col (ps ys : list Q) :
  batch_mape (Mat (map (λ p, [p]) ps)) ys = Ok (cross_ape_sum ps ys).
Proof.
  unfold batch_mape. rewrite broadcast_col_vec.
  cbn [mbind result_bind tmap]. unfold broadcast.
  rewrite (mapM_Ok_ext _
             (λ r, zip_with Qdiv r (map (λ t, t + epsilon)%Q (map Qabs ys)))).
  - cbn. unfold cross_ape_sum. do 2 f_equal.
    induction ps as [|p ps IH]; [done|].
    cbn [map]. by rewrite IH, ape_row.
  - intros r Hr. rewrite map_map in Hr.
    apply list_elem_of_fmap in Hr as (p & -> & _).
    apply bc_row_same_length. by rewrite !length_map.
Qed.

Lemma qsum_elem_le (l : list Q) (i : nat) (x : Q) :
  Forall (λ y, 0 <= y)%Q l → l !! i = Some x → (x <= qsum l)%Q.
Proof.
  revert i. induction l as [|y l IH]; intros i Hpos Hx; [done|].
  apply Forall_cons in Hpos as [Hy Hl].
  change (qsum (y :: l)) with (y + qsum l)%Q.
  pose proof (qsum_nonneg l Hl).
  destruct i as [|i]; simpl in Hx.
  - injection Hx as ->. lra.
  - specialize (IH i Hl Hx). lra.
Qed.

Lemma qsum_le_pointwise (l1 l2 : list Q) :
  Forall2 Qle l1 l2 → (qsum l1 <= qsum l2)%Q.
Proof.
  induction 1 as [|x y l1 l2 Hxy _ IH]; [apply Qle_refl|].
  change (x + qsum l1 <= y + qsum l2)%Q. lra.
Qed.

Lemma cross_ape_sum_ge (ps ys : list Q) :
  length ps = length ys → (ape_sum ps ys <= cross_ape_sum ps ys)%Q.
Proof.
  intros Hlen. unfold ape_sum, cross_ape_sum. apply qsum_le_pointwise.
  apply Forall2_same_length_lookup_2.
  - by rewrite length_zip_with, length_map; lia.
  - intros i a b Ha Hb.
    apply lookup_zip_with_Some in Ha as (p & y & -> & Hp & Hy).
    change (map ?f ?l) with (f <$> l) in Hb.
    rewrite list_lookup_fmap, Hp in Hb. injection Hb as <-.
    apply (qsum_elem_le _ i).
    + apply Forall_forall. intros z Hz.
      apply list_elem_of_fmap in Hz as (t & -> & _). apply ape_nonneg.
    + change (map ?f ?l) with (f <$> l). by rewrite list_lookup_fmap, Hy.
Qed.

Lemma squeeze1_vec_inv (o : tensor) (ps : list Q) :
  squeeze1 o = Ok (Vec ps) → o = Mat (map (λ p, [p]) ps).
Proof.
  destruct o as [x|xs|rs]; [done|done|]. unfold squeeze1.
  destruct (forallb _ rs) eqn:Hall; [|done]. intros [= <-]. f_equal.
  induction rs as [|r rs IH]; [done|].
  cbn in Hall. apply andb_true_iff in Hall as [Hr Hrs].
  apply bool_decide_eq_true in Hr.
  destruct r as [|x [|y r]]; try done. cbn. by rewrite <- IH.
Qed.

Lemma length_concat_const {A B : Type} (g : A → list B) (n : nat)
    (l : list A) :
  (∀ x, length (g x) = n) → length (concat (map g l)) = (length l * n)%nat.
Proof.
  intros Hg. induction l as [|x l IH]; [done|].
  cbn. rewrite length_app, Hg, IH. lia.
Qed.

Lemma mse_loss_col (ps ys : list Q) :
  mse_loss (Mat (map (λ p, [p]) ps)) (Vec ys)
  = Ok (if decide ((length ps * length ys)%nat = 0%nat) then None
        else Some (cross_sq_sum ps ys
                   / inject_Z (Z.of_nat (length ps * length ys)))%Q).
Proof.
  unfold mse_loss. rewrite broadcast_col_vec. cbn [mbind result_bind mret result_ret].
  cbn [numel tmap tsum].
  rewrite (length_concat_const (λ p, map (Qminus p) ys) (length ys))
    by (intros p; apply length_map).
  f_equal. destruct (decide _); [done|]. do 3 f_equal.
  unfold cross_sq_sum. rewrite !map_map. f_equal.
  apply map_ext. intros p. by rewrite map_map.
Qed.

Lemma squeeze_col_cases (ps : list Q) :
  (∃ p, ps = [p] ∧ squeeze (Mat (map (λ p, [p]) ps)) = Scalar p)
  ∨ squeeze (Mat (map (λ p, [p]) ps)) = Vec ps.
Proof.
  destruct ps as [|p [|p' ps]]; [by right|left; by exists p|right].
  pose proof (squeeze1_col (p :: p' :: ps)) as Hsq.
  unfold squeeze1 in Hsq. simpl in *.
  destruct (forallb _ _); [congruence|done].
Qed.

Lemma mse_loss_squeeze_col_defined (ps ys : list Q) :
  length ps = length ys →
  ∃ l, mse_loss (squeeze (Mat (map (λ p, [p]) ps))) (Vec ys) = Ok l.
Proof.
  intros Hlen. destruct (squeeze_col_cases ps) as [(p & -> & ->)| ->].
  - unfold mse_loss. cbn. eauto.
  - by apply mse_loss_same_length.
Qed.

Section EndToEndValColumn.
Import EndToEnd.
Context {W : Type} (forward : W → list string → tensor) (w : W).

Lemma val_batch_column (losses : list (option Q)) (acc : accum)
    (b : list sample) (ps : list Q) :
  forward w (map fst b) = Mat (map (λ p, [p]) ps) → length ps = length b →
  ∃ l, val_batch forward w (losses, acc) b
       = Ok (losses ++ [l], iadd acc (cross_ape_sum ps (map snd b))).
Proof.
  intros Hout Hlen. unfold val_batch. rewrite Hout.
  destruct (mse_loss_squeeze_col_defined ps (map snd b)) as [l ->];
    [by rewrite length_map|].
  rewrite batch_mape_col. cbn. eauto.
Qed.

Lemma val_loop_column (bs : list (list sample)) :
  col_shaped forward w bs →
  (ape_sum (outputs forward w bs) (targets bs)
   <= cross_ape_batches forward w bs)%Q
  ∧ ∀ losses acc, ∃ losses' acc',
      foldlM (val_batch forward w) (losses, acc) bs = Ok (losses', acc')
      ∧ (accum_value acc'
         == accum_value acc + cross_ape_batches forward w bs)%Q
      ∧ (bs ≠ [] → ∃ s, acc' = Tensor0 s).
Proof.
  induction 1 as [|b bs (ps & Hout & Hlen) _ [IHle IH]].
  - split; [apply Qle_refl|]. intros losses acc.
    exists losses, acc. split; [done|]. split; [|done].
    change (cross_ape_batches forward w []) with 0%Q. ring.
  - assert (cross_ape_batches forward w (b :: bs)
            = (cross_ape_sum ps (map snd b)
               + cross_ape_batches forward w bs)%Q) as Hcons.
    { unfold cross_ape_batches. cbn [map]. by rewrite Hout, entries_col. }
    split.
    + change (outputs forward w (b :: bs))
        with (entries (forward w (map fst b)) ++ outputs forward w bs).
      change (targets (b :: bs)) with (map snd b ++ targets bs).
      rewrite Hout, entries_col, Hcons.
      rewrite ape_sum_app by (by rewrite length_map).
      pose proof (cross_ape_sum_ge ps (map snd b)) as Hge.
      rewrite length_map in Hge. specialize (Hge Hlen). lra.
    + intros losses acc.
      destruct (val_batch_column losses acc b ps Hout Hlen) as [l Hstep].
      destruct (IH (losses ++ [l])
                  (iadd acc (cross_ape_sum ps (map snd b))))
        as (losses' & acc' & Hloop & Hval & Htensor).
      exists losses', acc'. split; [|split].
      * cbn [foldlM]. rewrite Hstep. exact Hloop.
      * rewrite Hval, accum_value_iadd, Hcons. ring.
      * intros _. destruct bs as [|b' bs'].
        -- cbn in Hloop. injection Hloop as _ <-. apply iadd_is_tensor.
        -- by apply Htensor.
Qed.
End EndToEndValColumn.

(** X16 (end_to_end.py, [val], line 96).  The MAPE term is computed on
    the raw [output], not on [output.squeeze()] as the loss two lines above.
    When the model answers with a column, shape (B, 1), the difference
    [output - y] broadcasts to B x B, and the batch's term is the sum of
    [|p_i - t_j| / (|t_j| + 1e-8)] over all pairs [(i, j)].  [val] then
    returns the total of these sums divided by the number of samples, which
    is never less than the mean of the per-sample terms. *)
Theorem column_output_mape_sums_all_pairs :
  (∀ ps ys : list Q,
     batch_mape (Mat (map (λ p, [p]) ps)) ys = Ok (cross_ape_sum ps ys))
  ∧ (∀ (W : Type) (forward : W → list string → tensor) (w : W)
       (vl : DataLoader EndToEnd.sample),
       (0 < loader_batch_size vl)%nat → dataset vl ≠ [] →
       col_shaped forward w (batches vl) →
       ∃ val_loss val_mape,
         EndToEnd.val forward w vl = Ok (val_loss, val_mape)
         ∧ (val_mape ==
            cross_ape_batches forward w (batches vl)
            / inject_Z (Z.of_nat (length (dataset vl))))%Q
         ∧ (ape_sum (outputs forward w (batches vl)) (map snd (dataset vl))
            / inject_Z (Z.of_nat (length (dataset vl))) <= val_mape)%Q).
Proof.
  split; [apply batch_mape_col|].
  intros W forward w vl Hbs Hne Hshape.
  destruct (val_loop_column forward w (batches vl) Hshape) as [Hle Hloop].
  destruct (Hloop [] (PyInt 0)) as (losses & acc & Hrun & Hval & Htensor).
  destruct Htensor as [s ->]; [by apply chunks_nonempty|].
  unfold EndToEnd.val. rewrite Hrun. cbn.
  rewrite decide_False by (by destruct (dataset vl)).
  eexists _, _. split; [done|].
  cbn in Hval. rewrite targets_concat, (batches_concat vl Hbs) in Hle.
  assert (0 < inject_Z (Z.of_nat (length (dataset vl))))%Q as Hn.
  { change 0%Q with (inject_Z 0). rewrite <- Zlt_Qlt.
    destruct (dataset vl); [done|]. simpl. lia. }
  assert (s == cross_ape_batches forward w (batches vl))%Q as Hs.
  { rewrite Hval. change (inject_Z 0) with 0%Q. ring. }
  split.
  - by rewrite Hs.
  - rewrite Hs. unfold Qdiv. apply Qmult_le_compat_r; [done|].
    apply Qlt_le_weak, Qinv_lt_0_compat, Hn.
Qed.

Lemma column_output_mape_sums_all_pairs_witness :
  ∃ val_loss val_mape,
    EndToEnd.val (λ (w : Q) xs, Mat (map (λ _, [w]) xs)) 3%Q Demo.val_loader
    = Ok (val_loss, val_mape)
    ∧ (ape_sum [3; 3]%Q [1; 2]%Q / 2 <= val_mape)%Q.
Proof.
  destruct (proj2 column_output_mape_sums_all_pairs Q
              (λ (w : Q) xs, Mat (map (λ _, [w]) xs)) 3%Q Demo.val_loader)
    as (val_loss & val_mape & Hval & _ & Hge).
  - simpl. lia.
  - discriminate.
  - repeat constructor. exists [3; 3]%Q. split; reflexivity.
  - exists val_loss, val_mape. split; [exact Hval|exact Hge].
Defined.

(** X17 (train.py, [train_epoch] against [val]).  [val] squeezes
    axis 1 of the regressor's output before comparing it with the labels;
    [train_epoch] does not.  Whenever [squeeze(1)] turns an output into
    the vector of predictions that [val] scores, the training loss
    [MSELoss()(output, val)] on that same output is the mean of
    [(p_i - t_j)^2] over all pairs, not over the samples. *)
Theorem training_loss_averages_all_pairs (o : tensor) (ps ys : list Q) :
  squeeze1 o = Ok (Vec ps) →
  mse_loss o (Vec ys)
  = Ok (if decide ((length ps * length ys)%nat = 0%nat) then None
        else Some (cross_sq_sum ps ys
                   / inject_Z (Z.of_nat (length ps * length ys)))%Q).
Proof.
  intros Hsq. apply squeeze1_vec_inv in Hsq as ->. apply mse_loss_col.
Qed.

Lemma training_loss_averages_all_pairs_witness :
  mse_loss (Demo.col_forward 2%Q [[0]; [0]]%Q) (Vec [1; 3]%Q)
  = Ok (Some (cross_sq_sum [2; 2]%Q [1; 3]%Q / inject_Z 4)%Q).
Proof.
  apply (training_loss_averages_all_pairs
           (Demo.col_forward 2%Q [[0]; [0]]%Q) [2; 2]%Q [1; 3]%Q).
  reflexivity.
Defined.

(** ** Runs of train.py that cannot raise *)

Section TrainPyDefined.
Import TrainPy.
Context {W O : Type}.
Variable forward : W → list (list Q) → tensor.
Variable optim_step : W → O → list (list Q) → list Q → W * O.
Variable shuffle : Z → list Z → list Z.
Hypothesis Hcol : column_shaped forward.
Hypothesis Hperm : ∀ e l, shuffle e l ≡ₚ l.

Lemma column_shaped_col_shaped (w : W) (bs : list (list (list Q * Q))) :
  col_shaped forward w bs.
Proof.
  apply Forall_forall. intros b _.
  destruct (Hcol w (map fst b)) as (ps & Hout & Hlen).
  exists ps. split; [done|]. by rewrite Hlen, length_map.
Qed.

Lemma shuffled_batches_defined (l : TLoader) (epoch : Z) :
  length (data (loader_dataset l)) = length (values (loader_dataset l)) →
  data (loader_dataset l) ≠ [] →
  ∃ bs, loader_batches (shuffle epoch) l = Ok bs ∧ bs ≠ [].
Proof.
  intros Hal Hne. unfold loader_batches.
  destruct (mapM_defined (TDataset_getitem (loader_dataset l))
              (shuffle epoch
                 (range 0 (Z.of_nat (TDataset_len (loader_dataset l))))))
    as [items Hitems].
  - intros i Hi. rewrite Hperm in Hi.
    apply list_elem_of_lookup in Hi as [k Hk].
    pose proof (lookup_lt_Some _ _ _ Hk) as Hlt.
    rewrite range_length in Hlt.
    rewrite range_lookup in Hk by lia. injection Hk as <-.
    apply TDataset_getitem_Ok_iff. unfold TDataset_len in Hlt. lia.
  - rewrite Hitems. cbn. eexists. split; [done|].
    apply chunks_nonempty. intros ->.
    apply mapM_Ok_length in Hitems. rewrite Hperm, range_length in Hitems.
    unfold TDataset_len in Hitems. destruct (data (loader_dataset l)); [done|].
    simpl in Hitems. lia.
Qed.

Lemma train_batches_loop_defined (epoch : Z)
    (bs : list (list (list Q * Q)))
    (st : @Trainer W O * option Q * option Z) :
  log_interval (args st.1.1) ≠ 0 →
  ∃ st', foldlM (train_batch forward optim_step epoch) st bs = Ok st'
         ∧ (bs ≠ [] → is_Some st'.2).
Proof.
  revert st. induction bs as [|b bs IH]; intros [[t el] prev] Hlog.
  - eexists. split; [done|]. done.
  - cbn [foldlM]. unfold train_batch at 1.
    destruct (Hcol (regressor t) (map fst b)) as (ps & -> & _).
    rewrite mse_loss_col. cbn [mbind result_bind].
    destruct (optim_step _ _ _ _) as [w o].
    unfold mod_. simpl in Hlog.
    rewrite (decide_False (P := log_interval (args t) = 0)) by done.
    cbn [mbind result_bind mret result_ret].
    match goal with
    | |- ∃ st', foldlM _ ?s bs = _ ∧ _ =>
        destruct (IH s) as (st' & Hloop & Hsome); [exact Hlog|]
    end.
    exists st'. split; [exact Hloop|]. intros _.
    destruct bs as [|b' bs']; [|by apply Hsome].
    cbn in Hloop. injection Hloop as <-. done.
Qed.

Lemma Trainer_train_epoch_defined (t : @Trainer W O) (epoch : Z) :
  log_interval (args t) ≠ 0 →
  length (data (loader_dataset (trainloader t)))
  = length (values (loader_dataset (trainloader t))) →
  data (loader_dataset (trainloader t)) ≠ [] →
  ∃ t1 l, Trainer_train_epoch forward optim_step shuffle t epoch = Ok (t1, l).
Proof.
  intros Hlog Hal Hne. unfold Trainer_train_epoch.
  destruct (shuffled_batches_defined (trainloader t) epoch Hal Hne)
    as (bs & -> & Hbs).
  cbn [mbind result_bind].
  destruct (train_batches_loop_defined epoch bs (t, Some 0%Q, None) Hlog)
    as ([[t1 el] last_idx] & -> & Hsome).
  destruct (Hsome Hbs) as [i Hi]. simpl in Hi. subst last_idx.
  cbn. eauto.
Qed.

Lemma Trainer_val_defined (t : @Trainer W O) (epoch : tag) :
  length (data (loader_dataset (valloader t)))
  = length (values (loader_dataset (valloader t))) →
  data (loader_dataset (valloader t)) ≠ [] →
  (0 < loader_bs (valloader t))%nat →
  ∃ t' mp ms, Trainer_val forward t epoch = Ok (t', mp, ms).
Proof.
  intros Hal Hne Hbs.
  destruct (Trainer_val_col forward t epoch Hal Hbs Hne
              (column_shaped_col_shaped _ _)) as (t' & s & ms & _ & Hval & _).
  eauto.
Qed.

Lemma train_body_defined (t : @Trainer W O) (epoch : Z) :
  ready_trainer t →
  ∃ t', train_body forward optim_step shuffle t epoch = Ok t'.
Proof.
  intros (_ & Hlog & Hval & Hloaders).
  apply Forall_cons in Hloaders as [(Hal & Hne & _) Hloaders].
  apply Forall_cons in Hloaders as [(Hal' & Hne' & Hbs') _].
  unfold train_body.
  destruct (Trainer_train_epoch_defined t epoch Hlog Hal Hne)
    as (t1 & l & Hone).
  rewrite Hone. apply Trainer_train_epoch_inv in Hone as (Ha & _ & Hvl & _).
  cbn [mbind result_bind]. cbn [args set_metrics].
  unfold mod_. rewrite Ha.
  rewrite (decide_False (P := val_interval (args t) = 0)) by done.
  cbn [mbind result_bind]. destruct (decide _); [|eauto].
  match goal with
  | |- context [Trainer_val forward ?u ?e] =>
      destruct (Trainer_val_defined u e) as (t2 & mp & ms & ->)
  end; try (simpl; by rewrite Hvl).
  cbn [mbind result_bind]. destruct (flt _ _); eauto.
Qed.

Lemma ready_trainer_step (t t' : @Trainer W O) :
  args t' = args t → trainloader t' = trainloader t →
  valloader t' = valloader t → ready_trainer t → ready_trainer t'.
Proof. unfold ready_trainer. by intros -> -> ->. Qed.

Lemma train_loop_defined (l : list Z) (t : @Trainer W O) :
  ready_trainer t →
  ∃ t', foldlM (train_body forward optim_step shuffle) t l = Ok t'
        ∧ ready_trainer t'.
Proof.
  revert t. induction l as [|e l IH]; intros t Hready; [by exists t|].
  destruct (train_body_defined t e Hready) as [t1 Hstep].
  cbn [foldlM]. rewrite Hstep.
  apply train_body_records in Hstep as (Ha & Htl & Hvl & _).
  apply IH. by apply (ready_trainer_step t).
Qed.

Lemma Trainer_train_defined (t : @Trainer W O) :
  ready_trainer t →
  ∃ t', Trainer_train forward optim_step shuffle t = Ok t'.
Proof.
  intros Hready. unfold Trainer_train. cbv zeta.
  destruct (train_loop_defined
              (epoch_range (args (set_metrics [] [] [] best_mse_init t)))
              (set_metrics [] [] [] best_mse_init t))
    as (t1 & -> & Hready1); [exact Hready|].
  cbn [mbind result_bind].
  pose proof Hready1 as (Hep & _ & _ & Hloaders).
  apply Forall_cons in Hloaders as [_ Hloaders].
  apply Forall_cons in Hloaders as [(Hal & Hne & Hbs) _].
  destruct (Trainer_val_defined t1 INTMAX Hal Hne Hbs)
    as (t2 & mp & ms & Hval).
  rewrite Hval. apply Trainer_val_inv in Hval as ((Ha & _) & _).
  cbn [mbind result_bind]. unfold epoch_range.
  rewrite Ha, range_last, decide_True by lia. eauto.
Qed.
End TrainPyDefined.

(** X18 (train.py, [main], [Trainer.__init__], [Trainer.train]).  When
    both arrays and both label columns are found, each array is non-empty
    and as long as its column, the batch size and the number of epochs are
    positive, the two intervals are not zero, the regressor answers with a
    column and the sampler permutes the indices, the script runs to
    completion provided the directory [args.save] exists or [os.mkdir]
    creates it: it records one training loss per epoch and leaves last.pt.
    If the directory is missing and [os.mkdir] raises, [main] raises that
    exception before any training.  ([torch.save] into the directory is
    taken to succeed.) *)
Theorem train_py_main_returns {W O : Type}
    (forward : W → list (list Q) → tensor)
    (optim_step : W → O → list (list Q) → list Q → W * O)
    (shuffle : Z → list Z → list Z)
    (path_exists : string → bool) (mkdir_fault : string → option exn)
    (a : TrainPy.Args) (st : TrainPy.storage) (w0 : W) (o0 : O)
    (d : gmap string (@TrainPy.save_dict W))
    (train_arr val_arr : list (list Q))
    (train_table val_table : gmap string (list Q))
    (train_col val_col : list Q) :
  column_shaped forward → (∀ e l, shuffle e l ≡ₚ l) →
  TrainPy.npy st !! TrainPy.train_data_path a = Some train_arr →
  TrainPy.npy st !! TrainPy.val_data_path a = Some val_arr →
  TrainPy.csv st !! TrainPy.split_train_csv = Some train_table →
  TrainPy.csv st !! TrainPy.split_val_csv = Some val_table →
  train_table !! "PRODUCT_LENGTH" = Some train_col →
  val_table !! "PRODUCT_LENGTH" = Some val_col →
  length train_arr = length train_col → train_arr ≠ [] →
  length val_arr = length val_col → val_arr ≠ [] →
  0 < TrainPy.batch_size a → 1 <= TrainPy.epochs a →
  TrainPy.log_interval a ≠ 0 → TrainPy.val_interval a ≠ 0 →
  (path_exists (TrainPy.save a) = true ∨ mkdir_fault (TrainPy.save a) = None →
   ∃ t',
     TrainPy.main forward optim_step shuffle path_exists mkdir_fault
       a st w0 o0 d = Ok t'
     ∧ length (TrainPy.loss t') = Z.to_nat (TrainPy.epochs a)
     ∧ is_Some (TrainPy.fs t' !! TrainPy.save_path a "last"))
  ∧ (∀ e, path_exists (TrainPy.save a) = false →
          mkdir_fault (TrainPy.save a) = Some e →
          TrainPy.main forward optim_step shuffle path_exists mkdir_fault
            a st w0 o0 d = Raise e).
Proof.
  intros Hcol Hperm Htr Hva Htt Hvt Htc Hvc Htlen Htne Hvlen Hvne Hbs Hep
    Hlog Hval.
  unfold TrainPy.main, TrainPy.Trainer_init, TrainPy.TDataset_init,
    TrainPy.np_load, TrainPy.read_csv_column, TrainPy.mkShuffledLoader,
    TrainPy.mkTLoader, TrainPy.ensure_dir.
  rewrite Htr, Hva, Htt, Hvt, Htc, Hvc.
  cbn [mbind result_bind mret result_ret TrainPy.TDataset_len TrainPy.data].
  destruct (decide (TrainPy.TDataset_len _ = 0%nat)) as [Hzero|_].
  { unfold TrainPy.TDataset_len in Hzero. simpl in Hzero.
    destruct train_arr; done. }
  destruct (decide (TrainPy.batch_size a <= 0)) as [?|_]; [lia|].
  cbn [mbind result_bind mret result_ret].
  split.
  - intros Hdir.
    assert ((if path_exists (TrainPy.save a) then Ok ()
             else match mkdir_fault (TrainPy.save a) with
                  | Some e => Raise e
                  | None => Ok ()
                  end) = Ok ()) as ->.
    { destruct Hdir as [-> | ->]; [done|].
      by destruct (path_exists (TrainPy.save a)). }
    cbn [mbind result_bind mret result_ret].
    match goal with
    | |- ∃ t', TrainPy.Trainer_train _ _ _ ?t = _ ∧ _ =>
        destruct (Trainer_train_defined forward optim_step shuffle Hcol Hperm
                    t) as [t' Hrun]
    end.
    { split; [done|]. split; [done|]. split; [done|].
      repeat constructor; simpl; try done; lia. }
    exists t'. split; [exact Hrun|].
    pose proof (Trainer_train_records _ _ _ _ _ Hrun)
      as (_ & _ & _ & _ & _ & _ & Hlast & _).
    cbv zeta in Hlast. simpl in Hlast. split; [|by rewrite Hlast].
    unfold TrainPy.Trainer_train in Hrun. cbv zeta in Hrun.
    destruct (foldlM _ _ _) as [t1|] eqn:Hloop; [|done].
    apply train_loop_inv in Hloop as [_ Hl]. simpl in Hl.
    cbn [mbind result_bind] in Hrun.
    destruct (TrainPy.Trainer_val _ _ _) as [[[t2 mp] ms]|] eqn:Hv; [|done].
    apply Trainer_val_inv in Hv as ((_ & _ & _ & Hl2 & _) & _).
    cbn [mbind result_bind] in Hrun.
    destruct (last _); [|done]. injection Hrun as <-. simpl.
    rewrite Hl2, Hl. unfold TrainPy.epoch_range. rewrite range_length. lia.
  - intros e -> ->. reflexivity.
Qed.

Lemma train_py_main_returns_witness :
  ∃ t',
    TrainPy.main Demo.col_forward Demo.col_step Demo.in_order
      (λ _, false) (λ _, None)
      Demo.train_args Demo.both_splits 0%Q tt ∅ = Ok t'
    ∧ length (TrainPy.loss t') = 2%nat
    ∧ is_Some (TrainPy.fs t' !! "model/last.pt").
Proof.
  apply (train_py_main_returns Demo.col_forward Demo.col_step Demo.in_order
           (λ _, false) (λ _, None)
           Demo.train_args Demo.both_splits 0%Q tt ∅
           [[0]; [0]]%Q [[1; 2]; [3; 4]]%Q
           {[ "PRODUCT_LENGTH" := [1; 1]%Q ]}
           {[ "PRODUCT_LENGTH" := [10; 20]%Q ]}
           [1; 1]%Q [10; 20]%Q).
  - intros w xs. exists (map (λ _, w) xs). split; [|apply length_map].
    unfold Demo.col_forward. f_equal. by rewrite map_map.
  - reflexivity.
  - reflexivity.
  - reflexivity.
  - reflexivity.
  - reflexivity.
  - reflexivity.
  - reflexivity.
  - reflexivity.
  - discriminate.
  - reflexivity.
  - discriminate.
  - simpl. lia.
  - simpl. lia.
  - simpl. lia.
  - simpl. lia.
  - right. reflexivity.
Defined.

(** X19 (train.py, [train_epoch] and [train]).  [--log_interval 0] makes
    the first batch of the first epoch raise [ZeroDivisionError];
    [--val_interval 0] makes the first epoch raise it once its training
    pass is done.  (Aligned, non-empty training data and a column-shaped
    regressor, so that nothing else raises before.) *)
Theorem train_py_zero_interval_raises {W O : Type}
    (forward : W → list (list Q) → tensor)
    (optim_step : W → O → list (list Q) → list Q → W * O)
    (shuffle : Z → list Z → list Z) (t : @TrainPy.Trainer W O) (epoch : Z) :
  column_shaped forward → (∀ e l, shuffle e l ≡ₚ l) →
  length (TrainPy.data (TrainPy.loader_dataset (TrainPy.trainloader t)))
  = length (TrainPy.values (TrainPy.loader_dataset (TrainPy.trainloader t))) →
  TrainPy.data (TrainPy.loader_dataset (TrainPy.trainloader t)) ≠ [] →
  (TrainPy.log_interval (TrainPy.args t) = 0 →
   TrainPy.Trainer_train_epoch forward optim_step shuffle t epoch
   = Raise ZeroDivisionError)
  ∧ (TrainPy.log_interval (TrainPy.args t) ≠ 0 →
     TrainPy.val_interval (TrainPy.args t) = 0 →
     TrainPy.train_body forward optim_step shuffle t epoch
     = Raise ZeroDivisionError).
Proof.
  intros Hcol Hperm Hal Hne. split.
  - intros Hzero. unfold TrainPy.Trainer_train_epoch.
    destruct (shuffled_batches_defined shuffle Hperm (TrainPy.trainloader t)
                epoch Hal Hne) as (bs & -> & Hbs).
    cbn [mbind result_bind]. destruct bs as [|b bs]; [done|].
    cbn [foldlM].
    assert (TrainPy.train_batch forward optim_step epoch (t, Some 0%Q, None) b
            = Raise ZeroDivisionError) as ->; [|reflexivity].
    unfold TrainPy.train_batch.
    destruct (Hcol (TrainPy.regressor t) (map fst b)) as (ps & -> & _).
    rewrite mse_loss_col. cbn [mbind result_bind].
    destruct (optim_step _ _ _ _) as [w o].
    rewrite Hzero. reflexivity.
  - intros Hlog Hzero. unfold TrainPy.train_body.
    destruct (Trainer_train_epoch_defined forward optim_step shuffle Hcol
                Hperm t epoch Hlog Hal Hne) as (t1 & l & Hone).
    rewrite Hone. apply Trainer_train_epoch_inv in Hone as (Ha & _).
    cbn [mbind result_bind]. cbn [TrainPy.args TrainPy.set_metrics].
    rewrite Ha, Hzero. reflexivity.
Qed.

Lemma train_py_zero_interval_raises_witness :
  TrainPy.train_body Demo.col_forward Demo.col_step Demo.in_order
    {| TrainPy.args :=
         {| TrainPy.train_data_path := "train.npy";
            TrainPy.val_data_path := "val.npy";
            TrainPy.epochs := 2; TrainPy.lr := 1 # 100;
            TrainPy.batch_size := 2; TrainPy.features := 1;
            TrainPy.seed := 421; TrainPy.log_interval := 5;
            TrainPy.val_interval := 0; TrainPy.save := "model" |};
       TrainPy.regressor := 2%Q; TrainPy.optimizer := tt;
       TrainPy.trainloader := Demo.pair_loader;
       TrainPy.valloader := Demo.pair_loader;
       TrainPy.loss := []; TrainPy.mape := []; TrainPy.mse := [];
       TrainPy.best_mse := 0%Q; TrainPy.last_metrics := None;
       TrainPy.fs := ∅; TrainPy.console := [] |} 1
  = Raise ZeroDivisionError.
Proof.
  apply train_py_zero_interval_raises.
  - intros w xs. exists (map (λ _, w) xs). split; [|apply length_map].
    unfold Demo.col_forward. f_equal. by rewrite map_map.
  - reflexivity.
  - reflexivity.
  - discriminate.
  - simpl. lia.
  - reflexivity.
Defined.

(** X20 (train.py, [Trainer.val], line 80).  [squeeze(1)] needs an axis 1:
    a regressor that answers with a vector of shape (B,) makes every
    validation on aligned, non-empty data raise [IndexError]. *)
Theorem Trainer_val_vector_output_raises {W O : Type}
    (forward : W → list (list Q) → tensor) (t : @TrainPy.Trainer W O)
    (epoch : TrainPy.tag) :
  (∀ embs, ∃ ps, forward (TrainPy.regressor t) embs = Vec ps) →
  length (TrainPy.data (TrainPy.loader_dataset (TrainPy.valloader t)))
  = length (TrainPy.values (TrainPy.loader_dataset (TrainPy.valloader t))) →
  TrainPy.data (TrainPy.loader_dataset (TrainPy.valloader t)) ≠ [] →
  TrainPy.Trainer_val forward t epoch = Raise IndexError.
Proof.
  intros Hvec Hal Hne. unfold TrainPy.Trainer_val.
  rewrite loader_batches_aligned by done. cbn [mbind result_bind].
  destruct (chunks _ _) as [|b bs] eqn:Hb.
  { apply chunks_nonempty in Hb; [done|].
    destruct (TrainPy.data _), (TrainPy.values _); done. }
  cbn [foldlM]. unfold TrainPy.val_batch at 1.
  destruct (Hvec (map fst b)) as [ps ->]. reflexivity.
Qed.

Lemma Trainer_val_vector_output_raises_witness :
  TrainPy.Trainer_val (λ (w : Q) embs, Vec (map (λ _, w) embs))
    Demo.trainer TrainPy.INTMAX
  = Raise IndexError.
Proof.
  apply Trainer_val_vector_output_raises.
  - intros embs. eexists. reflexivity.
  - reflexivity.
  - discriminate.
Defined.

(** ** end_to_end.py: the sort key and the start of [main] *)

(** X21 (end_to_end.py, [save_checkpoint], line 55).  The sort key joins
    every digit of the whole path, those of the directory included.  For
    the best files of one directory with an ASCII name it still orders by
    epoch: the key is defined on [model_best_epoch_<e>.pth.tar] for every
    [e >= 0], and is strictly increasing in [e], so epoch 9 sorts before
    epoch 10 whatever decimal digits the run name carries.  (A non-ASCII
    digit in the name is outside: [str.isdigit] keeps it and [int]
    rejects it.) *)
Theorem best_file_key_orders_by_epoch (args : EndToEnd.Args) (e1 e2 : Z) :
  isascii (EndToEnd.save_dir args) = true →
  0 <= e1 < e2 →
  ∃ key1 key2,
    EndToEnd.digits_key (EndToEnd.best_path args e1) = Ok key1
    ∧ EndToEnd.digits_key (EndToEnd.best_path args e2) = Ok key2
    ∧ key1 < key2.
Proof.
  intros _ He.
  destruct (digits_key_best_path args e1) as (k1 & Hk1 & _); [lia|].
  destruct (digits_key_best_path args e2) as (k2 & Hk2 & _); [lia|].
  eexists _, _. split; [exact Hk1|]. split; [exact Hk2|].
  by apply (digits_key_mono args e1 e2).
Qed.

Lemma best_file_key_orders_by_epoch_witness :
  ∃ key1 key2,
    EndToEnd.digits_key "checkpoints/v0/model_best_epoch_9.pth.tar" = Ok key1
    ∧ EndToEnd.digits_key "checkpoints/v0/model_best_epoch_10.pth.tar"
      = Ok key2
    ∧ key1 < key2.
Proof.
  apply (best_file_key_orders_by_epoch Demo.args 9 10); [reflexivity|lia].
Defined.

(** X22 (end_to_end.py, [main]).  What stops [main] before the first
    epoch: a batch size that is not positive raises [ValueError] when the
    loaders are built, before the checkpoint is looked at; with a positive
    one, a [--resume] path that names no file raises [FileNotFoundError]
    from [torch.load]. *)
Theorem main_fails_before_training {W O : Type}
    (forward : W → list string → tensor)
    (optim_step : W → O → list string → list Q → W * O)
    (remove_fault : string → option exn)
    (model0 : W) (optim0 : O) (train_set val_set : list EndToEnd.sample)
    (a : EndToEnd.Args) (d : gmap string (@EndToEnd.file W O)) :
  (EndToEnd.batch_size a <= 0 →
   EndToEnd.main forward optim_step remove_fault model0 optim0
     train_set val_set a d = Raise ValueError)
  ∧ (0 < EndToEnd.batch_size a → EndToEnd.resume a ≠ "" →
     d !! EndToEnd.resume a = None →
     EndToEnd.main forward optim_step remove_fault model0 optim0
       train_set val_set a d = Raise FileNotFoundError).
Proof.
  unfold EndToEnd.main, EndToEnd.main_init, mkDataLoader. split.
  - intros Hbs.
    destruct (decide (EndToEnd.batch_size a <= 0)); [reflexivity|lia].
  - intros Hbs Hres Hnone.
    destruct (decide (EndToEnd.batch_size a <= 0)) as [?|_]; [lia|].
    cbn [mbind result_bind EndToEnd.resume EndToEnd.set_save_dir].
    rewrite bool_decide_true by done. unfold EndToEnd.torch_load.
    rewrite Hnone. reflexivity.
Qed.

Lemma main_fails_before_training_witness :
  EndToEnd.main Demo.const_forward Demo.halfway_step Demo.no_fault 0%Q tt
    [("a", 1%Q)] [("b", 2%Q)] Demo.resume_args
    (∅ : gmap string (@EndToEnd.file Q unit))
  = Raise FileNotFoundError.
Proof.
  apply (main_fails_before_training Demo.const_forward Demo.halfway_step
           Demo.no_fault 0%Q tt [("a", 1%Q)] [("b", 2%Q)] Demo.resume_args ∅).
  - simpl. lia.
  - discriminate.
  - reflexivity.
Defined.

(** ** end_to_end.py: the periodic ring at any save interval *)

Lemma multiples_gap (s e1 e2 : Z) :
  0 < s → e1 `mod` s = 0 → e2 `mod` s = 0 → e1 < e2 → e1 + s <= e2.
Proof.
  intros Hs H1 H2 Hlt.
  apply Z.mod_divide in H1 as [k1 ->]; [|lia].
  apply Z.mod_divide in H2 as [k2 ->]; [|lia].
  assert (k1 < k2) by nia.
  replace (k1 * s + s) with ((k1 + 1) * s) by ring.
  apply Z.mul_le_mono_nonneg_r; lia.
Qed.

Lemma multiple_next (s e : Z) : 0 < s → e `mod` s = 0 → (e + s) `mod` s = 0.
Proof.
  intros Hs He. rewrite <- (Z.mul_1_l s) at 1.
  rewrite Z.mod_add by lia. exact He.
Qed.

Section EndToEndRing.
Import EndToEnd.
Context {W O : Type}.
Variable forward : W → list string → tensor.
Variable optim_step : W → O → list string → list Q → W * O.
Variable rf : string → option exn.
Variables tl vl : DataLoader sample.

Lemma ring_any_interval_inv (a : Z) (n : nat) (r r' : @run W O) :
  (∀ p, rf p = None) → 0 < save_every (args r) →
  foldlM (train_epoch forward optim_step rf tl vl) r
    (range a (a + Z.of_nat n)) = Ok r' →
  ∀ e, e `mod` save_every (args r) = 0 →
       a - save_every (args r) <= e < a + Z.of_nat n →
       (e + save_every (args r) < a + Z.of_nat n →
        fs r' !! epoch_path (args r) e = None)
       ∧ (a <= e → a + Z.of_nat n <= e + save_every (args r) →
          is_Some (fs r' !! epoch_path (args r) e)).
Proof.
  intros Hrf Hs. revert r'. induction n as [|n IH]; intros r' Hrun e He Hin.
  - split; intros; lia.
  - apply train_epochs_snoc in Hrun as (rmid & Hmid & Hstep).
    specialize (IH rmid Hmid).
    apply train_epochs_inv in Hmid as ((_ & Hsv & _ & Hd & _) & _).
    apply train_epoch_inv in Hstep
      as ((_ & Hsv' & _ & Hd' & _) & _ & _ & _ & m & _ & _ & Hsave).
    rewrite Hsv in Hsave.
    assert (save_dir (args r') = save_dir (args r)) as Hdir by congruence.
    assert (save_every (args r') = save_every (args r)) as Hsame
      by congruence.
    destruct (decide ((a + Z.of_nat n) `mod` save_every (args r) = 0))
      as [Hmod|Hmod].
    + rewrite <- (epoch_path_same_dir (args r) (args r') e Hdir).
      rewrite (lookup_epoch_after_save rf (args r') _ _ _ _ e Hsave).
      simpl. rewrite Hsame. split.
      * intros Hnext.
        destruct (decide (e = a + Z.of_nat n - save_every (args r)))
          as [->|Hne].
        { rewrite decide_True; [done|]. split; [done|apply Hrf]. }
        rewrite decide_False by (by intros [? _]).
        rewrite decide_False by lia.
        rewrite (epoch_path_same_dir (args r) (args r') e Hdir).
        apply IH; [done|lia|].
        pose proof (multiples_gap _ _ _ Hs (multiple_next _ _ Hs He) Hmod).
        lia.
      * intros Hge Hlast.
        assert (e = a + Z.of_nat n) as ->.
        { destruct (decide (e = a + Z.of_nat n)); [done|].
          pose proof (multiples_gap _ e (a + Z.of_nat n) Hs He Hmod). lia. }
        rewrite decide_False by (intros [? _]; lia).
        by rewrite decide_True.
    + rewrite Hsave.
      assert (e ≠ a + Z.of_nat n) as Hne by (intros ->; done).
      split.
      * intros Hnext. apply IH; [done|lia|].
        assert (e + save_every (args r) ≠ a + Z.of_nat n)
          by (intros Heq; rewrite <- Heq in Hmod;
              by apply Hmod, multiple_next).
        lia.
      * intros Hge Hlast. apply IH; [done|lia|done|lia].
Qed.
End EndToEndRing.

(** X23 (end_to_end.py, [train] and [save_checkpoint]).  At any positive
    [--save_every], when no deletion fails, a run keeps one periodic
    checkpoint of its own, the last it saved: among the epochs that are
    multiples of the interval, from one interval before the start to the
    end, every file that was followed by a later save is gone, and the
    last saved one is there. *)
Theorem periodic_ring_any_interval {W O : Type}
    (forward : W → list string → tensor)
    (optim_step : W → O → list string → list Q → W * O)
    (remove_fault : string → option exn)
    (tl vl : DataLoader EndToEnd.sample) (r r' : @EndToEnd.run W O) :
  (∀ p, remove_fault p = None) →
  0 < EndToEnd.save_every (EndToEnd.args r) →
  EndToEnd.start_epoch (EndToEnd.args r) <= EndToEnd.epochs (EndToEnd.args r) →
  EndToEnd.train forward optim_step remove_fault r tl vl = Ok r' →
  let s := EndToEnd.save_every (EndToEnd.args r) in
  ∀ e, e `mod` s = 0 →
       EndToEnd.start_epoch (EndToEnd.args r) - s <= e
       < EndToEnd.epochs (EndToEnd.args r) →
       (e + s < EndToEnd.epochs (EndToEnd.args r) →
        EndToEnd.fs r' !! EndToEnd.epoch_path (EndToEnd.args r) e = None)
       ∧ (EndToEnd.start_epoch (EndToEnd.args r) <= e →
          EndToEnd.epochs (EndToEnd.args r) <= e + s →
          is_Some (EndToEnd.fs r'
                   !! EndToEnd.epoch_path (EndToEnd.args r) e)).
Proof.
  intros Hrf Hs Hle Hrun s e He Hin. unfold EndToEnd.train in Hrun.
  rewrite range_as_count in Hrun.
  pose proof (ring_any_interval_inv forward optim_step remove_fault tl vl
                _ _ r r' Hrf Hs Hrun e He) as Hinv.
  rewrite Z2Nat.id in Hinv by lia.
  replace (EndToEnd.start_epoch (EndToEnd.args r)
           + (EndToEnd.epochs (EndToEnd.args r)
              - EndToEnd.start_epoch (EndToEnd.args r)))
    with (EndToEnd.epochs (EndToEnd.args r)) in Hinv by lia.
  by apply Hinv.
Qed.

Lemma periodic_ring_any_interval_witness :
  ∃ r',
    EndToEnd.train Demo.const_forward Demo.halfway_step Demo.no_fault
      (Demo.run_of
         {| EndToEnd.epochs := 5; EndToEnd.lr := 1 # 10000;
            EndToEnd.log_every := 10; EndToEnd.save_every := 2;
            EndToEnd.run_name := "v0"; EndToEnd.resume := "";
            EndToEnd.batch_size := 2; EndToEnd.save_dir := "checkpoints/v0";
            EndToEnd.best_val_mape := EndToEnd.Inf;
            EndToEnd.start_epoch := 0; EndToEnd.iter := 0 |})
      Demo.val_loader Demo.val_loader = Ok r'
    ∧ EndToEnd.fs r' !! "checkpoints/v0/epoch_2.pth.tar" = None
    ∧ is_Some (EndToEnd.fs r' !! "checkpoints/v0/epoch_4.pth.tar").
Proof.
  match goal with
  | |- ∃ r', EndToEnd.train _ _ _ ?r _ _ = _ ∧ _ =>
      destruct (EndToEnd.train Demo.const_forward Demo.halfway_step
                  Demo.no_fault r Demo.val_loader Demo.val_loader)
        as [r'|ex] eqn:Hrun;
        [|vm_compute in Hrun; discriminate Hrun];
      pose proof (periodic_ring_any_interval Demo.const_forward
                    Demo.halfway_step Demo.no_fault Demo.val_loader
                    Demo.val_loader r r' (λ _, eq_refl)
                    ltac:(simpl; lia) ltac:(simpl; lia) Hrun) as Hring
  end.
  exists r'. split; [reflexivity|]. split.
  - apply (Hring 2); [reflexivity|simpl; lia|simpl; lia].
  - apply (Hring 4); [reflexivity|simpl; lia|simpl; lia|simpl; lia].
Defined.
